(** * Safety monitors and UPS benchmark of cm5-local-scripts

    A shallow embedding of
      - [src/safety-scripts/pct2075_safety.py]  (module [Pct2075]),
      - [src/scripts/mcp9601_safety.py]         (module [Mcp9601]),
      - [src/scripts/ina219_safety.py]          (module [Ina219]),
      - [src/scripts/ups_benchmark.py]          (module [UpsBenchmark]).

    Python [float]s are IEEE-754 binary64 values: they are embedded as the
    kernel's primitive floats, whose operations are specified by
    [FloatAxioms] against [SpecFloat].  Python [int]s are unbounded: [Z]. *)

From Stdlib Require Import ZArith List Bool String Ascii Lia Floats.
From Stdlib Require Import Reals Lra.
Import ListNotations.

#[local] Set Warnings "-inexact-float,-register-all".
#[local] Open Scope Z_scope.

(** ** Python's float operators *)

Module Py.

(** [a < b], [a <= b], [a > b], [a >= b] on floats: the IEEE comparisons,
    all false as soon as one side is a NaN. *)
Definition lt (a b : float) : bool := PrimFloat.ltb a b.
Definition le (a b : float) : bool := PrimFloat.leb a b.
Definition gt (a b : float) : bool := PrimFloat.ltb b a.
Definition ge (a b : float) : bool := PrimFloat.leb b a.

(** [min(a, b)] and [max(a, b)] keep their first argument unless the second
    is strictly smaller (larger). *)
Definition min (a b : float) : float := if lt b a then b else a.
Definition max (a b : float) : float := if gt b a then b else a.

(** [a / b] raises [ZeroDivisionError] when [b] is a zero. *)
Definition div (a b : float) : option float :=
  if PrimFloat.eqb b 0%float then None else Some (a / b)%float.

(** The float nearest to an [int], ties to even; an infinity when the [int]
    is beyond the range of floats. *)
Definition float_of_int (z : Z) : float :=
  SF2Prim (binary_normalize prec emax z 0 false).

(** An [int] used where a float is expected ([float(z)], [x * z]) is
    converted to the nearest float; beyond the range of floats Python
    raises [OverflowError]: [None]. *)
Definition converted (z : Z) : option float :=
  let f := float_of_int z in
  if PrimFloat.is_infinity f then None else Some f.

End Py.

(** ** What the three monitoring loops share

    The three scripts repeat the same text for the failure counter, the
    shutdown command and the shape of the loop. *)

Module Monitor.

Definition MAX_CONSECUTIVE_FAILURES : Z := 5.

(** What one evaluation of a reading decides. *)
Inductive Action := NoAction | WarnRaised | WarnCleared | Shutdown.

(** Why [main] gave up before its loop. *)
Inductive StartupError :=
| ConfigFileMissing
| SectionMissing
| BadValue (field : string)
| ThresholdOrder
| CellCountRange
| BadThermocoupleType
| SensorInitFailed
| UncaughtException.

(** What a run leaves behind, in order. *)
Inductive Event :=
| Startup (e : StartupError)   (* [logger.error] of a startup check *)
| Started                      (* [logger.info("Starting ...")] *)
| Act (a : Action)             (* a reading evaluated *)
| ShutdownCmdFailed            (* [logger.error("Failed to initiate shutdown")] *)
| ReadError (n : Z)            (* [logger.error("Failed to read sensor (n/5)")] *)
| CriticalFailure.             (* [logger.critical("Sensor read failed 5 consecutive times")] *)

(** The loop's local variables. *)
Record LoopState := {
  consecutive_failures : Z;
  warning_logged : bool
}.

Definition initial : LoopState :=
  {| consecutive_failures := 0; warning_logged := false |}.

(** How [subprocess.run(["shutdown", "-h", "+1", ...], check=True)] ends. *)
Inductive CmdResult := CmdOk | CmdCalledProcessError | CmdOtherException.

(** Where the process is after an iteration. *)
Inductive Next := Continue (st : LoopState) | Exited (code : Z).

(** The [except Exception] block of the loop. *)
Definition on_failure (st : LoopState) : list Event * Next :=
  let n := consecutive_failures st + 1 in
  if MAX_CONSECUTIVE_FAILURES <=? n
  then ([ReadError n; CriticalFailure],
        Continue {| consecutive_failures := 0; warning_logged := warning_logged st |})
  else ([ReadError n],
        Continue {| consecutive_failures := n; warning_logged := warning_logged st |}).

(** [trigger_shutdown(reason); time.sleep(70); sys.exit(1)], inside the
    loop's [try]: [trigger_shutdown] catches [CalledProcessError] only, any
    other exception of [subprocess.run] reaches the loop's [except]. *)
Definition shutdown_path (st : LoopState) (c : CmdResult) : list Event * Next :=
  match c with
  | CmdOk => ([Act Shutdown], Exited 1)
  | CmdCalledProcessError => ([Act Shutdown; ShutdownCmdFailed], Exited 1)
  | CmdOtherException =>
      let '(evs, nx) := on_failure st in (Act Shutdown :: evs, nx)
  end.

(** The tail of the hysteresis: the [if]/[else] on the warning threshold. *)
Definition warn_path (crossed : bool) (warned : bool) : Action * bool :=
  if crossed
  then (if negb warned then (WarnRaised, true) else (NoAction, warned))
  else (if warned then (WarnCleared, false) else (NoAction, warned)).

Section Loop.

Variables Config Input : Type.
Variable iteration : Config -> LoopState -> Input -> list Event * Next.

(** [while True]: one iteration per input, until the process exits; the
    inputs are what the sensor (and the shutdown command) will answer. *)
Fixpoint run (cfg : Config) (st : LoopState) (inputs : list Input)
  : list Event * Next :=
  match inputs with
  | [] => ([], Continue st)
  | i :: rest =>
      let '(evs, nx) := iteration cfg st i in
      match nx with
      | Continue st' =>
          let '(evs', nx') := run cfg st' rest in (evs ++ evs', nx')
      | Exited c => (evs, Exited c)
      end
  end.

End Loop.

(** The actions of a trace, and how many critical escalations it holds. *)
Definition actions (evs : list Event) : list Action :=
  flat_map (fun e => match e with Act a => [a] | _ => [] end) evs.

Definition is_critical (e : Event) : bool :=
  match e with CriticalFailure => true | _ => false end.

Definition criticals (evs : list Event) : nat :=
  List.length (filter is_critical evs).

Definition final_state (r : list Event * Next) : option LoopState :=
  match snd r with Continue st => Some st | Exited _ => None end.

(** *** Reading the configuration

    What [yaml.safe_load] gives: [None] (an empty file, a name with nothing
    after its colon), a boolean, a number, a string, a sequence or a
    mapping, the values of YAML's core schema (dates and values under an
    explicit tag are left out).  A mapping is held by its entries under
    string keys: the scripts look up strings only, and an entry under
    another key is never found. *)

Inductive pyval :=
| PyNone
| PyBool (b : bool)
| PyInt (z : Z)
| PyFloat (f : float)
| PyStr (s : string)
| PyList (l : list pyval)
| PyDict (d : list (string * pyval)).

Definition dict := list (string * pyval).

Fixpoint lookup {A : Type} (d : list (string * A)) (key : string) : option A :=
  match d with
  | [] => None
  | (k, v) :: rest => if String.eqb k key then Some v else lookup rest key
  end.

(** [config.get(key, default)] *)
Definition get (d : dict) (key : string) (default : pyval) : pyval :=
  match lookup d key with Some v => v | None => default end.

(** A call returns, raises [TypeError] or [ValueError] (which the scripts
    catch and report), or raises something else (which nothing catches). *)
Inductive Raises (A : Type) :=
| Returns (a : A)
| ValueOrTypeError
| OtherException.

Arguments Returns {A} a.
Arguments ValueOrTypeError {A}.
Arguments OtherException {A}.

(** The builtins on strings, which are Python's and not this repository's. *)
Record Builtins := {
  str_to_float : string -> option float;   (* [float(s)], [None]: ValueError *)
  str_to_int : Z -> string -> option Z;    (* [int(s, base)], [None]: ValueError *)
  str_upper : pyval -> string              (* [str(v).upper()] *)
}.

(** [float(v)]: [TypeError] for [None], a sequence and a mapping,
    [OverflowError] for an [int] beyond the range of floats. *)
Definition py_float (B : Builtins) (v : pyval) : Raises float :=
  match v with
  | PyNone | PyList _ | PyDict _ => ValueOrTypeError
  | PyBool b => Returns (if b then 1 else 0)%float
  | PyInt z =>
      match Py.converted z with Some f => Returns f | None => OtherException end
  | PyFloat f => Returns f
  | PyStr s =>
      match str_to_float B s with Some f => Returns f | None => ValueOrTypeError end
  end.

(** [int(v)]: a float is truncated towards zero ([ValueError] for a NaN,
    [OverflowError] for an infinity). *)
Definition py_int (B : Builtins) (v : pyval) : Raises Z :=
  match v with
  | PyNone | PyList _ | PyDict _ => ValueOrTypeError
  | PyBool b => Returns (if b then 1 else 0)
  | PyInt z => Returns z
  | PyFloat f =>
      match Prim2SF f with
      | S754_nan => ValueOrTypeError
      | S754_infinity _ => OtherException
      | S754_zero _ => Returns 0
      | S754_finite s m e =>
          Returns (cond_Zopp s (if 0 <=? e then Z.shiftl (Zpos m) e
                               else Z.shiftr (Zpos m) (- e)))
      end
  | PyStr s =>
      match str_to_int B 10 s with Some z => Returns z | None => ValueOrTypeError end
  end.

(** Startup either fails with its reason or goes on with a value. *)
Definition Start (A : Type) : Type := StartupError + A.

Definition bind {A B : Type} (m : Start A) (k : A -> Start B) : Start B :=
  match m with inl e => inl e | inr a => k a end.

Notation "x <- m ;; k" := (bind m (fun x => k))
  (at level 61, m at next level, right associativity).

(** A coercion inside [main]'s [try]: its [ValueError] names the field and
    ends the process, any other exception ends it uncaught. *)
Definition coerced {A : Type} (field : string) (r : Raises A) : Start A :=
  match r with
  | Returns a => inr a
  | ValueOrTypeError => inl (BadValue field)
  | OtherException => inl UncaughtException
  end.

(** The configuration file as [load_config] finds it. *)
Inductive ConfigFile :=
| Missing                   (* [CONFIG_PATH.exists()] is false *)
| Unreadable                (* [open] or [yaml.safe_load] raises *)
| Parsed (config : pyval).  (* what [yaml.safe_load] returns *)

(** [sub in s] on strings. *)
Fixpoint contains (sub s : string) : bool :=
  String.prefix sub s
  || match s with
     | EmptyString => false
     | String _ rest => contains sub rest
     end.

(** [key in config] for a string [key]: a key of a mapping, an item of a
    sequence, a part of a string; [None] is the [TypeError] of a value that
    holds nothing. *)
Definition py_in (key : string) (config : pyval) : option bool :=
  match config with
  | PyDict d => Some (match lookup d key with Some _ => true | None => false end)
  | PyList l =>
      Some (existsb (fun v => match v with
                              | PyStr s => String.eqb s key
                              | _ => false
                              end) l)
  | PyStr s => Some (contains key s)
  | PyNone | PyBool _ | PyInt _ | PyFloat _ => None
  end.

(** [config[key]] for a string [key] that is [in config]: the value of a
    mapping; [None] is the [TypeError] of the index of a sequence or of a
    string. *)
Definition py_getitem (config : pyval) (key : string) : option pyval :=
  match config with
  | PyDict d => lookup d key
  | _ => None
  end.

(** [load_config()]: what nothing catches ends the process as an uncaught
    exception. *)
Definition load_config (sensor_name : string) (file : ConfigFile) : Start pyval :=
  match file with
  | Missing => inl ConfigFileMissing
  | Unreadable => inl UncaughtException
  | Parsed config =>
      match py_in sensor_name config with
      | None => inl UncaughtException
      | Some false => inl SectionMissing
      | Some true =>
          match py_getitem config sensor_name with
          | Some section => inr section
          | None => inl UncaughtException
          end
      end
  end.

(** [config.get], the attribute: a mapping has it, and on anything else
    ([None] for a section with nothing in it, a number, a string, a
    sequence) the lookup raises [AttributeError], which nothing catches.
    Every [main] looks it up first thing after [load_config]. *)
Definition get_of (config : pyval) : Start dict :=
  match config with
  | PyDict d => inr d
  | _ => inl UncaughtException
  end.

(** [parse_i2c_address(addr)] *)
Definition parse_i2c_address (B : Builtins) (addr : pyval) : Raises Z :=
  match addr with
  | PyStr s =>
      match str_to_int B 16 s with Some z => Returns z | None => ValueOrTypeError end
  | _ => py_int B addr
  end.

(** [_coerce_float(name, value)] and [_coerce_int(name, value)] *)
Definition _coerce_float (B : Builtins) (name : string) (value : pyval) : Start float :=
  coerced name (py_float B value).

Definition _coerce_int (B : Builtins) (name : string) (value : pyval) : Start Z :=
  coerced name (py_int B value).

(** What a monitor's process meets: the configuration file, whether the
    sensor can be opened, and what each turn of the loop will read. *)
Record Env (Input : Type) := {
  config_file : ConfigFile;
  sensor_init : bool;
  inputs : list Input
}.

Arguments config_file {Input} e.
Arguments sensor_init {Input} e.
Arguments inputs {Input} e.

(** The end of every [main]: the start-up line, the sensor, the loop. *)
Definition start_loop {Config Input : Type}
  (loop : Config -> LoopState -> list Input -> list Event * Next)
  (env : Env Input) (configured : Start Config) : list Event * Next :=
  match configured with
  | inl e => ([Startup e], Exited 1)
  | inr cfg =>
      if sensor_init env
      then let '(evs, nx) := loop cfg initial (inputs env) in (Started :: evs, nx)
      else ([Started; Startup SensorInitFailed], Exited 1)
  end.

End Monitor.

Import Monitor.

#[local] Notation "x <- m ;; k" := (bind m (fun x => k))
  (at level 61, m at next level, right associativity).

(** ** PCT2075 temperature monitor *)

Module Pct2075.

Record Config := {
  i2c_address : Z;
  warning_temp : float;
  shutdown_temp : float;
  poll_interval : float
}.

(** One turn of the loop meets a sensor read (a temperature, or an
    exception) and, if it comes to that, the shutdown command. *)
Record Input := {
  temperature : option float;
  cmd : CmdResult
}.

(** Lines 127-141: the decision on a temperature that was read. *)
Definition evaluate (cfg : Config) (warned : bool) (t : float) : Action * bool :=
  if Py.ge t (shutdown_temp cfg) then (Shutdown, warned)
  else warn_path (Py.ge t (warning_temp cfg)) warned.

(** Lines 121-153: the body of [while True]. *)
Definition iteration (cfg : Config) (st : LoopState) (i : Input)
  : list Event * Next :=
  match temperature i with
  | None => on_failure st
  | Some t =>
      let st0 := {| consecutive_failures := 0; warning_logged := warning_logged st |} in
      match evaluate cfg (warning_logged st) t with
      | (Shutdown, _) => shutdown_path st0 (cmd i)
      | (a, warned') =>
          ([Act a], Continue {| consecutive_failures := 0; warning_logged := warned' |})
      end
  end.

Definition loop := run Config Input iteration.

Definition SENSOR_NAME : string := "pct2075".

(** Lines 79-95 of [main]: the options, their defaults and the check. *)
Definition configure (B : Builtins) (file : ConfigFile) : Start Config :=
  section <- load_config SENSOR_NAME file ;;
  config <- get_of section ;;
  addr <- coerced "i2c_address" (parse_i2c_address B (get config "i2c_address" (PyInt 55))) ;;
  warning <- _coerce_float B "warning_temp_c" (get config "warning_temp_c" (PyInt 70)) ;;
  shutdown <- _coerce_float B "shutdown_temp_c" (get config "shutdown_temp_c" (PyInt 80)) ;;
  poll <- _coerce_float B "poll_interval_s" (get config "poll_interval_s" (PyInt 5)) ;;
  if Py.ge warning shutdown then inl ThresholdOrder
  else inr {| i2c_address := addr; warning_temp := warning;
              shutdown_temp := shutdown; poll_interval := poll |}.

Definition main (B : Builtins) (env : Env Input) : list Event * Next :=
  start_loop loop env (configure B (config_file env)).

End Pct2075.

(** ** MCP9601 thermocouple monitor *)

Module Mcp9601.

Definition VALID_THERMOCOUPLE_TYPES : list string :=
  ["K"; "J"; "T"; "N"; "S"; "E"; "B"; "R"]%string.

Record Config := {
  i2c_address : Z;
  warning_temp : float;
  shutdown_temp : float;
  poll_interval : float;
  thermocouple_type : string
}.

(** The sensor gives the hot junction and the ambient temperature. *)
Record Reading := {
  hot_temp : float;
  ambient_temp : float
}.

(** [reading] is [None] when either attribute read raises: nothing of the
    loop's state is touched before both have returned. *)
Record Input := {
  reading : option Reading;
  cmd : CmdResult
}.

(** Lines 154-168: the decision on a reading. *)
Definition evaluate (cfg : Config) (warned : bool) (r : Reading) : Action * bool :=
  if Py.ge (hot_temp r) (shutdown_temp cfg) then (Shutdown, warned)
  else warn_path (Py.ge (hot_temp r) (warning_temp cfg)) warned.

(** Lines 145-180: the body of [while True]. *)
Definition iteration (cfg : Config) (st : LoopState) (i : Input)
  : list Event * Next :=
  match reading i with
  | None => on_failure st
  | Some r =>
      let st0 := {| consecutive_failures := 0; warning_logged := warning_logged st |} in
      match evaluate cfg (warning_logged st) r with
      | (Shutdown, _) => shutdown_path st0 (cmd i)
      | (a, warned') =>
          ([Act a], Continue {| consecutive_failures := 0; warning_logged := warned' |})
      end
  end.

Definition loop := run Config Input iteration.

Definition SENSOR_NAME : string := "mcp9601".

(** Lines 93-114 of [main]. *)
Definition configure (B : Builtins) (file : ConfigFile) : Start Config :=
  section <- load_config SENSOR_NAME file ;;
  config <- get_of section ;;
  addr <- coerced "i2c_address" (parse_i2c_address B (get config "i2c_address" (PyInt 103))) ;;
  warning <- _coerce_float B "warning_temp_c" (get config "warning_temp_c" (PyInt 60)) ;;
  shutdown <- _coerce_float B "shutdown_temp_c" (get config "shutdown_temp_c" (PyInt 75)) ;;
  poll <- _coerce_float B "poll_interval_s" (get config "poll_interval_s" (PyInt 5)) ;;
  let tc := str_upper B (get config "thermocouple_type" (PyStr "K")) in
  if Py.ge warning shutdown then inl ThresholdOrder
  else if negb (existsb (String.eqb tc) VALID_THERMOCOUPLE_TYPES) then inl BadThermocoupleType
  else inr {| i2c_address := addr; warning_temp := warning;
              shutdown_temp := shutdown; poll_interval := poll;
              thermocouple_type := tc |}.

Definition main (B : Builtins) (env : Env Input) : list Event * Next :=
  start_loop loop env (configure B (config_file env)).

End Mcp9601.

(** ** INA219 battery monitor *)

Module Ina219.

Definition CELL_VOLTAGE_FULL : float := 4.2.
Definition CELL_VOLTAGE_EMPTY : float := 3.0.
Definition DEFAULT_CELL_COUNT : Z := 3.
Definition MAX_CELL_COUNT : Z := 6.

(** Lines 62-74.  [None] is an exception: the [OverflowError] of a cell
    count beyond the range of floats (line 69), the [ZeroDivisionError] of a
    zero range (line 73). *)
Definition calculate_battery_percent (voltage : float) (cell_count : Z)
  : option float :=
  match Py.converted cell_count with
  | None => None
  | Some cells =>
      let voltage_full := (CELL_VOLTAGE_FULL * cells)%float in
      let voltage_empty := (CELL_VOLTAGE_EMPTY * cells)%float in
      let voltage_range := (voltage_full - voltage_empty)%float in
      match Py.div (voltage - voltage_empty)%float voltage_range with
      | None => None
      | Some ratio =>
          let percent := (ratio * Py.float_of_int 100)%float in
          Some (Py.max 0%float (Py.min 100%float percent))
      end
  end.

Record Config := {
  i2c_address : Z;
  warning_percent : float;
  shutdown_percent : float;
  poll_interval : float;
  cell_count : Z
}.

Record Reading := {
  bus_voltage : float;
  shunt_voltage : float;
  current : float   (* [sensor.current], in mA *)
}.

Record Input := {
  reading : option Reading;
  cmd : CmdResult
}.

(** Line 160 and line 164. *)
Definition voltage (r : Reading) : float := (bus_voltage r + shunt_voltage r)%float.
Definition is_charging (r : Reading) : bool := Py.gt (current r) 0%float.

(** Lines 174-190: the decision once the percentage and the charging flag
    are known. *)
Definition evaluate (cfg : Config) (warned : bool)
  (battery_percent : float) (charging : bool) : Action * bool :=
  if negb charging && Py.le battery_percent (shutdown_percent cfg)
  then (Shutdown, warned)
  else warn_path (negb charging && Py.le battery_percent (warning_percent cfg)) warned.

(** Lines 156-202: the body of [while True].  The percentage is computed
    before the failure counter is reset, so an exception there leaves the
    counter as it was. *)
Definition iteration (cfg : Config) (st : LoopState) (i : Input)
  : list Event * Next :=
  match reading i with
  | None => on_failure st
  | Some r =>
      match calculate_battery_percent (voltage r) (cell_count cfg) with
      | None => on_failure st
      | Some battery_percent =>
          let st0 := {| consecutive_failures := 0; warning_logged := warning_logged st |} in
          match evaluate cfg (warning_logged st) battery_percent (is_charging r) with
          | (Shutdown, _) => shutdown_path st0 (cmd i)
          | (a, warned') =>
              ([Act a], Continue {| consecutive_failures := 0; warning_logged := warned' |})
          end
      end
  end.

Definition loop := run Config Input iteration.

Definition SENSOR_NAME : string := "ina219".

(** Lines 108-129 of [main]. *)
Definition configure (B : Builtins) (file : ConfigFile) : Start Config :=
  section <- load_config SENSOR_NAME file ;;
  config <- get_of section ;;
  addr <- coerced "i2c_address" (parse_i2c_address B (get config "i2c_address" (PyInt 65))) ;;
  warning <- _coerce_float B "warning_battery_percent"
               (get config "warning_battery_percent" (PyInt 15)) ;;
  shutdown <- _coerce_float B "shutdown_battery_percent"
                (get config "shutdown_battery_percent" (PyInt 5)) ;;
  poll <- _coerce_float B "poll_interval_s" (get config "poll_interval_s" (PyInt 10)) ;;
  cells <- _coerce_int B "battery_cell_count"
             (get config "battery_cell_count" (PyInt DEFAULT_CELL_COUNT)) ;;
  if Py.le warning shutdown then inl ThresholdOrder
  else if negb ((1 <=? cells) && (cells <=? MAX_CELL_COUNT)) then inl CellCountRange
  else inr {| i2c_address := addr; warning_percent := warning;
              shutdown_percent := shutdown; poll_interval := poll;
              cell_count := cells |}.

Definition main (B : Builtins) (env : Env Input) : list Event * Next :=
  start_loop loop env (configure B (config_file env)).

End Ina219.


(** ** UPS benchmark: the battery percentage and the worker pool *)

Module UpsBenchmark.

Definition CELL_VOLTAGE_FULL : float := 4.2.
Definition CELL_VOLTAGE_EMPTY : float := 3.0.
Definition DEFAULT_CELL_COUNT : Z := 3.

(** Lines 39-50: the same text as in the battery monitor, with the same
    two exceptions (lines 45 and 49). *)
Definition calculate_battery_percent (voltage : float) (cell_count : Z)
  : option float :=
  match Py.converted cell_count with
  | None => None
  | Some cells =>
      let voltage_full := (CELL_VOLTAGE_FULL * cells)%float in
      let voltage_empty := (CELL_VOLTAGE_EMPTY * cells)%float in
      let voltage_range := (voltage_full - voltage_empty)%float in
      match Py.div (voltage - voltage_empty)%float voltage_range with
      | None => None
      | Some ratio =>
          let percent := (ratio * Py.float_of_int 100)%float in
          Some (Py.max 0%float (Py.min 100%float percent))
      end
  end.

(** Processes and events are objects of [multiprocessing]: each is known by
    a handle, and what the pool does to them is a call on a handle. *)
Definition handle := nat.

Inductive Call :=
| ProcessStart (w : handle)       (* [worker.start()] *)
| EventSet (e : handle)           (* [stop_event.set()] *)
| ProcessJoin (w : handle)        (* [worker.join(timeout=2.0)] *)
| ProcessTerminate (w : handle).  (* [worker.terminate()] *)

(** The system around the pool: the next fresh handle and the calls made so
    far, oldest first. *)
Record World := {
  next_handle : handle;
  calls : list Call
}.

Definition call (c : Call) (w : World) : World :=
  {| next_handle := next_handle w; calls := calls w ++ [c] |}.

Definition fresh (w : World) : handle * World :=
  (next_handle w, {| next_handle := S (next_handle w); calls := calls w |}).

(** [class WorkerPool] *)
Record WorkerPool := {
  max_workers : Z;
  workers : list handle;
  stop_events : list handle
}.

(** [__init__] *)
Definition init (max_workers : Z) : WorkerPool :=
  {| max_workers := max_workers; workers := []; stop_events := [] |}.

(** [list.pop()]: the last element, [None] for the [IndexError] of an empty
    list. *)
Definition pop {A : Type} (l : list A) : option (A * list A) :=
  match rev l with
  | [] => None
  | x :: r => Some (x, rev r)
  end.

Section Pool.

(** Whether a worker is still alive once [join(timeout=2.0)] has returned. *)
Variable is_alive : handle -> bool.

(** [worker.join(timeout=2.0)], then [worker.terminate()] if it is alive. *)
Definition join_or_terminate (worker : handle) (w : World) : World :=
  let w := call (ProcessJoin worker) w in
  if is_alive worker then call (ProcessTerminate worker) w else w.

(** Lines 82-91, [n] times. *)
Fixpoint start_workers (n : nat) (p : WorkerPool) (w : World) : WorkerPool * World :=
  match n with
  | O => (p, w)
  | S n' =>
      let '(stop_event, w) := fresh w in
      let '(worker, w) := fresh w in
      let w := call (ProcessStart worker) w in
      start_workers n'
        {| max_workers := max_workers p;
           workers := workers p ++ [worker];
           stop_events := stop_events p ++ [stop_event] |} w
  end.

(** Lines 95-101, [n] times. *)
Fixpoint stop_workers (n : nat) (p : WorkerPool) (w : World)
  : option (WorkerPool * World) :=
  match n with
  | O => Some (p, w)
  | S n' =>
      match pop (stop_events p) with
      | None => None
      | Some (stop_event, events') =>
          match pop (workers p) with
          | None => None
          | Some (worker, workers') =>
              let w := call (EventSet stop_event) w in
              let w := join_or_terminate worker w in
              stop_workers n'
                {| max_workers := max_workers p;
                   workers := workers';
                   stop_events := events' |} w
          end
      end
  end.

(** [set_worker_count(count)]: the count it returns, the pool and the world
    it leaves; [None] when a [pop] raises. *)
Definition set_worker_count (p : WorkerPool) (w : World) (count : Z)
  : option (Z * WorkerPool * World) :=
  let count := Z.max 0 (Z.min count (max_workers p)) in
  let current := Z.of_nat (List.length (workers p)) in
  if current <? count then
    let '(p', w') := start_workers (Z.to_nat (count - current)) p w in
    Some (Z.of_nat (List.length (workers p')), p', w')
  else if count <? current then
    match stop_workers (Z.to_nat (current - count)) p w with
    | None => None
    | Some (p', w') => Some (Z.of_nat (List.length (workers p')), p', w')
    end
  else Some (Z.of_nat (List.length (workers p)), p, w).

(** [shutdown()] *)
Definition shutdown (p : WorkerPool) (w : World) : WorkerPool * World :=
  let w := fold_left (fun w event => call (EventSet event) w) (stop_events p) w in
  let w := fold_left (fun w worker => join_or_terminate worker w) (workers p) w in
  ({| max_workers := max_workers p; workers := []; stop_events := [] |}, w).

End Pool.

(** The pools that [__init__], [set_worker_count] and [shutdown] build hold
    one stop event per worker. *)
Definition paired (p : WorkerPool) : Prop :=
  List.length (stop_events p) = List.length (workers p).

End UpsBenchmark.

(** ** The three monitors side by side *)

Module Kinds.

Inductive Kind := Temperature | Thermocouple | Battery.

Definition Config (k : Kind) : Type :=
  match k with
  | Temperature => Pct2075.Config
  | Thermocouple => Mcp9601.Config
  | Battery => Ina219.Config
  end.

Definition Input (k : Kind) : Type :=
  match k with
  | Temperature => Pct2075.Input
  | Thermocouple => Mcp9601.Input
  | Battery => Ina219.Input
  end.

Definition iteration (k : Kind)
  : Config k -> LoopState -> Input k -> list Event * Next :=
  match k with
  | Temperature => Pct2075.iteration
  | Thermocouple => Mcp9601.iteration
  | Battery => Ina219.iteration
  end.

Definition loop (k : Kind) := run (Config k) (Input k) (iteration k).

Definition main (k : Kind) : Builtins -> Env (Input k) -> list Event * Next :=
  match k with
  | Temperature => Pct2075.main
  | Thermocouple => Mcp9601.main
  | Battery => Ina219.main
  end.

Definition configure (k : Kind)
  : Builtins -> ConfigFile -> Start (Config k) :=
  match k with
  | Temperature => Pct2075.configure
  | Thermocouple => Mcp9601.configure
  | Battery => Ina219.configure
  end.

Definition SENSOR_NAME (k : Kind) : string :=
  match k with
  | Temperature => Pct2075.SENSOR_NAME
  | Thermocouple => Mcp9601.SENSOR_NAME
  | Battery => Ina219.SENSOR_NAME
  end.

(** The sensor read of this turn raised. *)
Definition read_failed (k : Kind) : Input k -> bool :=
  match k with
  | Temperature => fun i =>
      match Pct2075.temperature i with None => true | Some _ => false end
  | Thermocouple => fun i =>
      match Mcp9601.reading i with None => true | Some _ => false end
  | Battery => fun i =>
      match Ina219.reading i with None => true | Some _ => false end
  end.

(** The quantity the thresholds are compared with. *)
Definition quantity (k : Kind) : Config k -> Input k -> option float :=
  match k with
  | Temperature => fun _ i => Pct2075.temperature i
  | Thermocouple => fun _ i =>
      match Mcp9601.reading i with
      | Some r => Some (Mcp9601.hot_temp r)
      | None => None
      end
  | Battery => fun cfg i =>
      match Ina219.reading i with
      | Some r =>
          Ina219.calculate_battery_percent (Ina219.voltage r) (Ina219.cell_count cfg)
      | None => None
      end
  end.

Definition warning_threshold (k : Kind) : Config k -> float :=
  match k with
  | Temperature => Pct2075.warning_temp
  | Thermocouple => Mcp9601.warning_temp
  | Battery => Ina219.warning_percent
  end.

Definition shutdown_threshold (k : Kind) : Config k -> float :=
  match k with
  | Temperature => Pct2075.shutdown_temp
  | Thermocouple => Mcp9601.shutdown_temp
  | Battery => Ina219.shutdown_percent
  end.

(** [q] is at [threshold] or on its severe side: at or above a temperature,
    at or below a percentage. *)
Definition at_or_beyond (k : Kind) (q threshold : float) : bool :=
  match k with
  | Temperature | Thermocouple => Py.ge q threshold
  | Battery => Py.le q threshold
  end.

(** [q] is on the safe side of [threshold]. *)
Definition safe_side (k : Kind) (q threshold : float) : bool :=
  match k with
  | Temperature | Thermocouple => Py.lt q threshold
  | Battery => Py.gt q threshold
  end.

(** The reading was taken while discharging (always, for a temperature). *)
Definition discharging (k : Kind) : Input k -> bool :=
  match k with
  | Temperature | Thermocouple => fun _ => true
  | Battery => fun i =>
      match Ina219.reading i with
      | Some r => negb (Ina219.is_charging r)
      | None => true
      end
  end.

Definition reads_beyond_warning (k : Kind) (cfg : Config k) (i : Input k) : bool :=
  match quantity k cfg i with
  | Some q => at_or_beyond k q (warning_threshold k cfg)
  | None => false
  end.

Definition reads_safe (k : Kind) (cfg : Config k) (i : Input k) : bool :=
  match quantity k cfg i with
  | Some q => safe_side k q (warning_threshold k cfg)
  | None => false
  end.

(** The names and defaults of the two threshold options. *)
Definition warning_option (k : Kind) : string * pyval :=
  match k with
  | Temperature => ("warning_temp_c", PyInt 70)
  | Thermocouple => ("warning_temp_c", PyInt 60)
  | Battery => ("warning_battery_percent", PyInt 15)
  end%string.

Definition shutdown_option (k : Kind) : string * pyval :=
  match k with
  | Temperature => ("shutdown_temp_c", PyInt 80)
  | Thermocouple => ("shutdown_temp_c", PyInt 75)
  | Battery => ("shutdown_battery_percent", PyInt 5)
  end%string.

(** The value of an option of a section as [main] coerces it. *)
Definition threshold (B : Builtins) (section : dict) (option : string * pyval)
  : Start float :=
  _coerce_float B (fst option) (get section (fst option) (snd option)).

End Kinds.

Import Kinds.

(** ** The scenarios of the specification *)

Module Scenario.

(** A temperature monitor warning at 70 C and shutting down at 80 C. *)
Definition pct_config (addr : Z) (poll : float) : Pct2075.Config :=
  {| Pct2075.i2c_address := addr;
     Pct2075.warning_temp := 70;
     Pct2075.shutdown_temp := 80;
     Pct2075.poll_interval := poll |}.

Definition pct_read (t : float) (c : CmdResult) : Pct2075.Input :=
  {| Pct2075.temperature := Some t; Pct2075.cmd := c |}.

Definition mcp_config (addr : Z) (poll : float) (tc : string) : Mcp9601.Config :=
  {| Mcp9601.i2c_address := addr;
     Mcp9601.warning_temp := 70;
     Mcp9601.shutdown_temp := 80;
     Mcp9601.poll_interval := poll;
     Mcp9601.thermocouple_type := tc |}.

Definition mcp_read (hot ambient : float) (c : CmdResult) : Mcp9601.Input :=
  {| Mcp9601.reading :=
       Some {| Mcp9601.hot_temp := hot; Mcp9601.ambient_temp := ambient |};
     Mcp9601.cmd := c |}.

(** A 3-cell battery monitor warning at 15 % and shutting down at 5 %. *)
Definition ina_config (addr : Z) (poll : float) : Ina219.Config :=
  {| Ina219.i2c_address := addr;
     Ina219.warning_percent := 15;
     Ina219.shutdown_percent := 5;
     Ina219.poll_interval := poll;
     Ina219.cell_count := 3 |}.

Definition ina_read (bus shunt current : float) (c : CmdResult) : Ina219.Input :=
  {| Ina219.reading :=
       Some {| Ina219.bus_voltage := bus; Ina219.shunt_voltage := shunt;
               Ina219.current := current |};
     Ina219.cmd := c |}.

(** The pack voltages of 50 %, 14 % and 4 % of a 3-cell pack,
    [9.0 + p / 100 * 3.6], read with no shunt drop at a given current. *)
Definition ina_sequence (current : float) : list Ina219.Input :=
  [ina_read 10.8 0 current CmdOk;
   ina_read 9.504 0 current CmdOk;
   ina_read 9.144 0 current CmdOk].

(** Replacing the ambient temperatures of a run of thermocouple inputs by
    others, position by position. *)
Fixpoint with_ambient (ambients : list float) (inputs : list Mcp9601.Input)
  : list Mcp9601.Input :=
  match inputs, ambients with
  | i :: rest, a :: ambients' =>
      {| Mcp9601.reading :=
           match Mcp9601.reading i with
           | Some r => Some {| Mcp9601.hot_temp := Mcp9601.hot_temp r;
                               Mcp9601.ambient_temp := a |}
           | None => None
           end;
         Mcp9601.cmd := Mcp9601.cmd i |} :: with_ambient ambients' rest
  | _, _ => inputs
  end.

(** Builtins under which no string is a number: enough for configurations
    whose options are numbers. *)
Definition no_strings : Builtins :=
  {| str_to_float := fun _ => None;
     str_to_int := fun _ _ => None;
     str_upper := fun v => match v with PyStr s => s | _ => EmptyString end |}.

End Scenario.

(** ** Floats read as real numbers

    What the proofs about rounding are stated with: the number a mantissa
    and an exponent stand for, where a number lies with respect to a slot
    of the format, and what [SpecFloat]'s rounding makes of a number. *)

Module Exact.

Definition bpow (e : Z) : R := powerRZ 2 e.

Definition F2R (m e : Z) : R := (IZR m * bpow e)%R.

Abbreviation fexp64 := (fexp prec emax).

(** [x] lies in the slot [[m * 2^e, (m + 1) * 2^e)], at the place [l] says. *)
Definition located (m e : Z) (l : location) (x : R) : Prop :=
  match l with
  | loc_Exact => x = F2R m e
  | loc_Inexact Lt => (F2R m e < x < F2R m e + bpow e / 2)%R
  | loc_Inexact Eq => x = (F2R m e + bpow e / 2)%R
  | loc_Inexact Gt => (F2R m e + bpow e / 2 < x < F2R m e + bpow e)%R
  end.

(** The float of a sign, a natural mantissa and an exponent, as
    [binary_round_aux] builds it in the end. *)
Definition mk (s : bool) (m e : Z) : spec_float :=
  match m with
  | Z0 => S754_zero s
  | Zpos p => if e <=? 971 then S754_finite s p e else S754_infinity s
  | Zneg _ => S754_nan
  end.

(** A mantissa that rounding took to [2^53] goes back to 53 digits. *)
Definition renorm (m e : Z) : Z * Z :=
  if m =? 9007199254740992 then (4503599627370496, e + 1) else (m, e).

(** The order of the pairs that [mk] takes. *)
Definition pair_le (p1 p2 : Z * Z) : Prop :=
  fst p1 = 0
  \/ (0 < fst p1 /\ 0 < fst p2
      /\ (snd p1 < snd p2 \/ (snd p1 = snd p2 /\ fst p1 <= fst p2))).

Definition signed (s : bool) (a : R) : R := if s then (- a)%R else a.

(** The real number a finite float stands for (0 for the others). *)
Definition SF2R (v : spec_float) : R :=
  match v with
  | S754_finite s m e => signed s (F2R (Zpos m) e)
  | _ => 0%R
  end.

Definition finite_or_zero (v : spec_float) : bool :=
  match v with
  | S754_zero _ | S754_finite _ _ _ => true
  | _ => false
  end.

(** [r] is what the rounding of [SpecFloat] makes of the number [X]. *)
Inductive rounds (X : R) (r : spec_float) : Prop :=
| rounds_zero (s : bool) :
    X = 0%R -> r = S754_zero s -> rounds X r
| rounds_located (s : bool) (m e : Z) (l : location) (a : R) :
    0 <= m -> located m e l a -> e <= fexp64 (Zdigits2 m + e) ->
    (0 < a)%R -> X = signed s a ->
    r = binary_round_aux prec emax s m e l -> rounds X r.

End Exact.

Import Exact.

(** ** Reading a trace *)

Module Trace.

(** The warning flag after a list of actions, from the flag before them:
    [None] as soon as a warning is raised while one is active, or cleared
    while none is. *)
Fixpoint replay (flag : bool) (l : list Action) : option bool :=
  match l with
  | [] => Some flag
  | WarnRaised :: rest => if flag then None else replay true rest
  | WarnCleared :: rest => if flag then replay false rest else None
  | _ :: rest => replay flag rest
  end.

(** How the shutdown command of this turn would end. *)
Definition command (k : Kind) : Input k -> CmdResult :=
  match k with
  | Temperature => Pct2075.cmd
  | Thermocouple => Mcp9601.cmd
  | Battery => Ina219.cmd
  end.

(** What an evaluated reading leaves: the action and the loop's state. *)
Definition evaluated (a : Action) (warned : bool) : list Event * Next :=
  ([Act a], Continue {| consecutive_failures := 0; warning_logged := warned |}).

(** The address option of each monitor and its default. *)
Definition address_option (k : Kind) : string * pyval :=
  match k with
  | Temperature => ("i2c_address", PyInt 55)
  | Thermocouple => ("i2c_address", PyInt 103)
  | Battery => ("i2c_address", PyInt 65)
  end%string.


(** What [main] has checked of a configuration before it starts the loop. *)
Definition accepted (k : Kind) : Config k -> Prop :=
  match k with
  | Temperature => fun cfg =>
      Py.ge (Pct2075.warning_temp cfg) (Pct2075.shutdown_temp cfg) = false
  | Thermocouple => fun cfg =>
      Py.ge (Mcp9601.warning_temp cfg) (Mcp9601.shutdown_temp cfg) = false
      /\ In (Mcp9601.thermocouple_type cfg) Mcp9601.VALID_THERMOCOUPLE_TYPES
  | Battery => fun cfg =>
      Py.le (Ina219.warning_percent cfg) (Ina219.shutdown_percent cfg) = false
      /\ 1 <= Ina219.cell_count cfg <= Ina219.MAX_CELL_COUNT
  end.

End Trace.

Import Trace.

(** ** The calls of the worker pool *)

Module PoolCalls.

Import UpsBenchmark.

Section Calls.

Variable is_alive : handle -> bool.

(** What joining a worker costs: the join, and the kill if it is alive. *)
Definition join_calls (worker : handle) : list Call :=
  ProcessJoin worker
  :: (if is_alive worker then [ProcessTerminate worker] else []).

(** What stopping a worker with its stop event costs. *)
Definition stop_calls (pair : handle * handle) : list Call :=
  EventSet (fst pair) :: join_calls (snd pair).

End Calls.

End PoolCalls.

Import PoolCalls.

(** ** UPS benchmark: the stress worker, the sensor reader and the runner

    What the outside does to a run is given to it: whether the sensor
    initialises and what it answers, the clock, the signal, whether the
    CSV file opens and its rows are written, what [time.sleep] raises.
    Processes and events are taken to be created without fail, as in the
    worker pool above. *)

Module Benchmark.

Import UpsBenchmark.

Definition DEFAULT_I2C_ADDRESS : Z := 65.

(** *** [cpu_stress_worker] *)

(** Line 61: one step of the generator. *)
Definition lcg (x : Z) : Z := Z.land (x * 1103515245 + 12345) 2147483647.

(** Lines 58-61 from a value of [x], with [range(n)] for the inner loop:
    what [x] is when the loop ends, given what each test of
    [stop_event.is_set()] finds; [None] when every test given finds the
    event unset. *)
Fixpoint burn (n : Z) (is_set : list bool) (x : Z) : option Z :=
  match is_set with
  | [] => None
  | true :: _ => Some x
  | false :: rest => burn n rest (Z.iter n lcg x)
  end.

Definition cpu_stress_worker (is_set : list bool) : option Z :=
  burn 100000 is_set 1.

(** *** What a run prints and records *)

Inductive Exn := ZeroDivisionError | OverflowError | ValueError | IndexError | OSError.

(** The exception of [calculate_battery_percent] when it raises: the cell
    count is converted (line 45) before anything is divided (line 49). *)
Definition percent_error (cell_count : Z) : Exn :=
  match Py.converted cell_count with
  | None => OverflowError
  | Some _ => ZeroDivisionError
  end.

Inductive Output :=
| InitFailed                        (* "Failed to initialize sensor" *)
| ReadFailed (n : Z)                (* "Sensor read failed (n/5)" *)
| ReadCritical                      (* "Sensor read failed 5 consecutive times" *)
| InitialReadFailed                 (* "Failed to get initial sensor reading" *)
| ThresholdTooHigh                  (* "Threshold (..) >= current battery (..)" *)
| Switching (load : Z)              (* "Switching to ..% load" *)
| Sample (battery_pct : float) (target_load workers : Z)
    (charging : bool) (notes : string)   (* [write_sample] *)
| ThresholdReached (battery_pct : float) (* "Battery threshold reached" *)
| Summary (start_pct end_pct : float).   (* "Battery: ..% -> ..%" *)

(** *** [class SensorReader] *)

(** The dict that [read] returns. *)
Record Reading := {
  voltage : float;
  current_ma : float;
  power_w : float;
  charging : bool
}.

Module SensorReader.

Record t := {
  i2c_address : Z;
  sensor : bool;              (* whether [self.sensor] is set *)
  consecutive_failures : Z;
  max_failures : Z
}.

(** [__init__] *)
Definition init (i2c_address : Z) : t :=
  {| i2c_address := i2c_address; sensor := false;
     consecutive_failures := 0; max_failures := 5 |}.

Definition counting (s : t) (n : Z) : t :=
  {| i2c_address := i2c_address s; sensor := sensor s;
     consecutive_failures := n; max_failures := max_failures s |}.

(** [initialize]: [ok] is whether the imports and the constructor of the
    device went through. *)
Definition initialize (s : t) (ok : bool) : list Output * bool * t :=
  if ok
  then ([], true,
        {| i2c_address := i2c_address s; sensor := true;
           consecutive_failures := consecutive_failures s;
           max_failures := max_failures s |})
  else ([InitFailed], false, s).

(** [read]: [answer] is what the device answers, [None] when one of its
    properties raises.  Dividing by 1000 raises nothing. *)
Definition read (s : t) (answer : option Ina219.Reading)
  : list Output * option Reading * t :=
  if negb (sensor s) then ([], None, s)
  else
    match answer with
    | Some a =>
        let voltage := (Ina219.bus_voltage a + Ina219.shunt_voltage a)%float in
        let current_ma := Ina219.current a in
        let power_w :=
          PrimFloat.abs (voltage * current_ma / Py.float_of_int 1000)%float in
        ([],
         Some {| voltage := voltage; current_ma := current_ma;
                 power_w := power_w; charging := Py.gt current_ma 0%float |},
         counting s 0)
    | None =>
        let n := consecutive_failures s + 1 in
        if max_failures s <=? n
        then ([ReadFailed n; ReadCritical], None, counting s 0)
        else ([ReadFailed n], None, counting s n)
    end.

(** A sequence of reads: what they log and the reader they leave. *)
Fixpoint reads (s : t) (answers : list (option Ina219.Reading))
  : list Output * t :=
  match answers with
  | [] => ([], s)
  | a :: rest =>
      let '(out, _, s') := read s a in
      let '(out', s'') := reads s' rest in
      (out ++ out', s'')
  end.

End SensorReader.

Definition is_read_failed (o : Output) : bool :=
  match o with ReadFailed _ => true | _ => false end.

Definition is_read_critical (o : Output) : bool :=
  match o with ReadCritical => true | _ => false end.

Definition count (f : Output -> bool) (out : list Output) : Z :=
  Z.of_nat (List.length (filter f out)).

(** *** [class BenchmarkRunner] *)

Inductive Profile := stress | cyclic.

(** The namespace of [argparse]. *)
Record Args := {
  profile : Profile;
  threshold : float;
  interval : float;
  output : string;
  cycle_duration : float;
  cells : Z;
  i2c_address : Z;
  no_csv : bool
}.

(** The attributes the run depends on.  [running] is set by the signal
    handler: it is read from the outside, test by test; [start_time] is set
    before it is read. *)
Record BenchmarkRunner := {
  args : Args;
  cpu_count : Z;
  worker_pool : WorkerPool;
  sensor : SensorReader.t;
  csv_writer : bool;            (* whether [self.csv_writer] is set *)
  start_battery_pct : option float
}.

(** [__init__] *)
Definition new (a : Args) (cores : Z) : BenchmarkRunner :=
  {| args := a; cpu_count := cores; worker_pool := init cores;
     sensor := SensorReader.init (i2c_address a);
     csv_writer := false; start_battery_pct := None |}.

Definition with_pool (r : BenchmarkRunner) (p : WorkerPool) : BenchmarkRunner :=
  {| args := args r; cpu_count := cpu_count r; worker_pool := p;
     sensor := sensor r; csv_writer := csv_writer r;
     start_battery_pct := start_battery_pct r |}.

Definition with_sensor (r : BenchmarkRunner) (s : SensorReader.t) : BenchmarkRunner :=
  {| args := args r; cpu_count := cpu_count r; worker_pool := worker_pool r;
     sensor := s; csv_writer := csv_writer r;
     start_battery_pct := start_battery_pct r |}.

Definition with_start (r : BenchmarkRunner) (pct : float) : BenchmarkRunner :=
  {| args := args r; cpu_count := cpu_count r; worker_pool := worker_pool r;
     sensor := sensor r; csv_writer := csv_writer r;
     start_battery_pct := Some pct |}.

(** [setup_csv]: [opens] is whether the directory and the file can be
    made; [None] is the [OSError] they raise otherwise. *)
Definition setup_csv (r : BenchmarkRunner) (opens : bool) : option BenchmarkRunner :=
  if no_csv (args r) then Some r
  else if opens
  then Some {| args := args r; cpu_count := cpu_count r;
               worker_pool := worker_pool r; sensor := sensor r;
               csv_writer := true; start_battery_pct := start_battery_pct r |}
  else None.

(** What the outside gives to one turn of a profile's loop. *)
Record Tick := {
  running : bool;                    (* [self.running] at the loop's test *)
  monotonic : float;                 (* [time.monotonic()] of line 296 *)
  monotonic_again : float;           (* [time.monotonic()] of line 299 *)
  answer : option Ina219.Reading;    (* the device, for this turn's [read] *)
  csv_ok : bool                      (* whether a row can be written *)
}.

(** How a loop is left: its test found [running] false or it reached
    [break]; an exception; or it is still turning after the ticks given. *)
Inductive Ending := Ended | Raised (e : Exn) | Pending.

(** [while self.running:] over a body that says whether to go on. *)
Section While.

Variable State : Type.
Variable body : State -> Tick -> list Output * State * option Ending.

Fixpoint while (s : State) (ticks : list Tick) : list Output * State * Ending :=
  match ticks with
  | [] => ([], s, Pending)
  | t :: rest =>
      if running t then
        let '(out, s', e) := body s t in
        match e with
        | Some e => (out, s', e)
        | None =>
            let '(out', s'', e') := while s' rest in (out ++ out', s'', e')
        end
      else ([], s, Ended)
  end.

End While.

(** Lines 268-283 and 311-327: a reading turned into a sample.  [first]
    is [self.start_battery_pct is None] in the stress profile and
    [first_sample] in the cyclic one. *)
Definition sampled (first : bool) (r : BenchmarkRunner) (t : Tick)
  (reading : Reading) (target_load workers : Z)
  : list Output * BenchmarkRunner * option Ending :=
  match calculate_battery_percent (voltage reading) (cells (args r)) with
  | None => ([], r, Some (Raised (percent_error (cells (args r)))))
  | Some battery_pct =>
      let r := if first then with_start r battery_pct else r in
      let row := Sample battery_pct target_load workers (charging reading)
                   (if first then "test_start" else "") in
      if csv_writer r && negb (csv_ok t)
      then ([row], r, Some (Raised OSError))
      else if negb (charging reading) && Py.le battery_pct (threshold (args r))
      then ([row; ThresholdReached battery_pct], r, Some Ended)
      else ([row], r, None)
  end.

Definition is_none {A : Type} (o : option A) : bool :=
  match o with None => true | Some _ => false end.

(** [int(x)] of a float: towards zero. *)
Definition int (x : float) : Exn + Z :=
  match Prim2SF x with
  | S754_zero _ => inr 0
  | S754_finite s m e =>
      let magnitude := if 0 <=? e then Zpos m * 2 ^ e else Zpos m / 2 ^ (- e) in
      inr (if s then - magnitude else magnitude)
  | S754_infinity _ => inl OverflowError
  | S754_nan => inl ValueError
  end.

(** [a / b] on two [int]s: the float nearest to their quotient, ties to
    even; [OverflowError] when that is beyond the range of floats. *)
Definition truediv (a b : Z) : Exn + float :=
  if b =? 0 then inl ZeroDivisionError
  else if a =? 0 then inr (if b <? 0 then neg_zero else zero)
  else
    let '(m, e, l) := SFdiv_core_binary prec emax (Z.abs a) 0 (Z.abs b) 0 in
    let q :=
      SF2Prim (binary_round_aux prec emax (xorb (a <? 0) (b <? 0)) m e l) in
    if PrimFloat.is_infinity q then inl OverflowError else inr q.

(** Line 303: [int(self.cpu_count * target_load / 100)]. *)
Definition target_workers (cpu_count target_load : Z) : Exn + Z :=
  match truediv (cpu_count * target_load) 100 with
  | inl e => inl e
  | inr q => int q
  end.

(** [l[i]] *)
Definition index {A : Type} (l : list A) (i : Z) : option A :=
  let i := if i <? 0 then i + Z.of_nat (List.length l) else i in
  if i <? 0 then None else nth_error l (Z.to_nat i).

Definition load_levels : list Z := [100; 75; 50; 25; 0].

(** The locals of [run_cyclic]. *)
Record Cycle := {
  cycle_start : float;
  level_idx : Z;
  first_sample : bool
}.

(** [print_summary], once [start_time] is set: the exception it raises, if
    any. *)
Definition print_summary (r : BenchmarkRunner) (answer : option Ina219.Reading)
  : list Output * BenchmarkRunner * option Exn :=
  let '(logs, reading, s) := SensorReader.read (sensor r) answer in
  let r' := with_sensor r s in
  match reading with
  | None => (logs, r', None)
  | Some rd =>
      match calculate_battery_percent (voltage rd) (cells (args r)) with
      | None => (logs, r', Some (percent_error (cells (args r))))
      | Some end_pct =>
          (logs ++ match start_battery_pct r with
                   | Some start_pct => [Summary start_pct end_pct]
                   | None => []
                   end, r', None)
      end
  end.

(** What the outside gives to a run. *)
Record Env := {
  init_ok : bool;                          (* does [initialize] succeed *)
  first_answer : option Ina219.Reading;    (* the device, at line 354 *)
  csv_opens : bool;                        (* can [setup_csv] make its file *)
  cycle_began : float;                     (* [time.monotonic()] of line 290 *)
  ticks : list Tick;
  last_answer : option Ina219.Reading      (* the device, in [print_summary] *)
}.

Inductive Result := Returned (code : Z) | Raise (e : Exn) | Running.

Section Runner.

Variable is_alive : handle -> bool.

(** [time.sleep(seconds)]: the exception it raises, if any (a negative
    length, a NaN, a length beyond the range of the clock). *)
Variable sleep : float -> option Exn.

(** [time.sleep(self.args.interval)] at the end of a turn that goes on. *)
Definition pause (r : BenchmarkRunner) (e : option Ending) : option Ending :=
  match e with
  | Some e => Some e
  | None =>
      match sleep (interval (args r)) with
      | Some x => Some (Raised x)
      | None => None
      end
  end.

(** The body of the loop of [run_stress]. *)
Definition stress_body (workers : Z) (s : BenchmarkRunner * World) (t : Tick)
  : list Output * (BenchmarkRunner * World) * option Ending :=
  let '(r, w) := s in
  let '(logs, reading, sr) := SensorReader.read (sensor r) (answer t) in
  let r := with_sensor r sr in
  match reading with
  | None => (logs, (r, w), pause r None)
  | Some rd =>
      let '(out, r, e) :=
        sampled (is_none (start_battery_pct r)) r t rd 100 workers in
      (logs ++ out, (r, w), pause r e)
  end.

(** [run_stress] *)
Definition run_stress (r : BenchmarkRunner) (w : World) (ticks : list Tick)
  : list Output * (BenchmarkRunner * World) * Ending :=
  match set_worker_count is_alive (worker_pool r) w (cpu_count r) with
  | None => ([], (r, w), Raised IndexError)
  | Some (workers, p, w) =>
      while _ (stress_body workers) (with_pool r p, w) ticks
  end.

(** The body of the loop of [run_cyclic]. *)
Definition cyclic_body (s : Cycle * (BenchmarkRunner * World)) (t : Tick)
  : list Output * (Cycle * (BenchmarkRunner * World)) * option Ending :=
  let '(c, (r, w)) := s in
  let elapsed_in_cycle := (monotonic t - cycle_start c)%float in
  let turn := Py.ge elapsed_in_cycle (cycle_duration (args r)) in
  let c := if turn
           then {| cycle_start := monotonic_again t;
                   level_idx := (level_idx c + 1) mod Z.of_nat (List.length load_levels);
                   first_sample := first_sample c |}
           else c in
  match index load_levels (level_idx c) with
  | None => ([], (c, (r, w)), Some (Raised IndexError))
  | Some target_load =>
      let logs := if turn then [Switching target_load] else [] in
      match target_workers (cpu_count r) target_load with
      | inl e => (logs, (c, (r, w)), Some (Raised e))
      | inr target =>
          match set_worker_count is_alive (worker_pool r) w target with
          | None => (logs, (c, (r, w)), Some (Raised IndexError))
          | Some (workers, p, w) =>
              let r := with_pool r p in
              let '(rlogs, reading, sr) := SensorReader.read (sensor r) (answer t) in
              let r := with_sensor r sr in
              match reading with
              | None => (logs ++ rlogs, (c, (r, w)), pause r None)
              | Some rd =>
                  let '(out, r, e) :=
                    sampled (first_sample c) r t rd target_load workers in
                  (logs ++ rlogs ++ out,
                   ({| cycle_start := cycle_start c; level_idx := level_idx c;
                       first_sample :=
                         match e with
                         | Some (Raised _) => first_sample c
                         | _ => false
                         end |}, (r, w)), pause r e)
              end
          end
      end
  end.

(** [run_cyclic] *)
Definition run_cyclic (began : float) (r : BenchmarkRunner) (w : World)
  (ticks : list Tick) : list Output * (BenchmarkRunner * World) * Ending :=
  let '(out, (_, s), e) :=
    while _ cyclic_body
      ({| cycle_start := began; level_idx := 0; first_sample := true |}, (r, w))
      ticks in
  (out, s, e).

(** The [finally] of [run]: the pool is shut down, the summary printed,
    the file closed; an exception of the summary replaces the one that
    was on its way. *)
Definition finally (r : BenchmarkRunner) (w : World)
  (answer : option Ina219.Reading) (e : option Exn)
  : list Output * (BenchmarkRunner * World) * Result :=
  let '(p, w) := shutdown is_alive (worker_pool r) w in
  let '(out, r, raised) := print_summary (with_pool r p) answer in
  (out, (r, w),
   match raised, e with
   | Some e', _ => Raise e'
   | None, Some e => Raise e
   | None, None => Returned 0
   end).

(** [run] *)
Definition run (r : BenchmarkRunner) (w : World) (env : Env)
  : list Output * (BenchmarkRunner * World) * Result :=
  let '(logs, ok, s) := SensorReader.initialize (sensor r) (init_ok env) in
  let r := with_sensor r s in
  if negb ok then (logs, (r, w), Returned 1)
  else
    let '(logs, initial, s) := SensorReader.read (sensor r) (first_answer env) in
    let r := with_sensor r s in
    match initial with
    | None => (logs ++ [InitialReadFailed], (r, w), Returned 1)
    | Some initial =>
        match calculate_battery_percent (voltage initial) (cells (args r)) with
        | None => (logs, (r, w), Raise (percent_error (cells (args r))))
        | Some initial_pct =>
            if Py.ge (threshold (args r)) initial_pct
            then (logs ++ [ThresholdTooHigh], (r, w), Returned 1)
            else
              match setup_csv r (csv_opens env) with
              | None => (logs, (r, w), Raise OSError)
              | Some r =>
                  let '(out, (r, w), e) :=
                    match profile (args r) with
                    | stress => run_stress r w (ticks env)
                    | cyclic => run_cyclic (cycle_began env) r w (ticks env)
                    end in
                  match e with
                  | Pending => (logs ++ out, (r, w), Running)
                  | Ended =>
                      let '(out', s, res) := finally r w (last_answer env) None in
                      (logs ++ out ++ out', s, res)
                  | Raised x =>
                      let '(out', s, res) :=
                        finally r w (last_answer env) (Some x) in
                      (logs ++ out ++ out', s, res)
                  end
              end
        end
    end.

(** [main], once the arguments are parsed. *)
Definition main (a : Args) (cores : Z) (w : World) (env : Env)
  : list Output * (BenchmarkRunner * World) * Result :=
  run (new a cores) w env.

End Runner.

(** Whether every process started in a list of calls, and not in [alive],
    is joined later in the list. *)
Definition joins (h : handle) (c : Call) : bool :=
  match c with ProcessJoin h' => Nat.eqb h h' | _ => false end.

Fixpoint settled (alive : list handle) (cs : list Call) : bool :=
  match cs with
  | [] => true
  | ProcessStart h :: rest =>
      (existsb (joins h) rest || existsb (Nat.eqb h) alive) && settled alive rest
  | _ :: rest => settled alive rest
  end.

Definition all_joined (cs : list Call) : bool := settled [] cs.

(** The samples of an output, by their notes. *)
Fixpoint notes_of (out : list Output) : list string :=
  match out with
  | [] => []
  | Sample _ _ _ _ notes :: rest => notes :: notes_of rest
  | _ :: rest => notes_of rest
  end.

Definition is_threshold_reached (o : Output) : bool :=
  match o with ThresholdReached _ => true | _ => false end.

(** The loads an output announces, in order. *)
Fixpoint switches_of (out : list Output) : list Z :=
  match out with
  | [] => []
  | Switching load :: rest => load :: switches_of rest
  | _ :: rest => switches_of rest
  end.

(** The [n] loads that follow the level of index [i] in the cycle. *)
Fixpoint cycle_from (i : Z) (n : nat) : list Z :=
  match n with
  | O => []
  | S n' =>
      let j := (i + 1) mod 5 in
      nth (Z.to_nat j) load_levels 0 :: cycle_from j n'
  end.

(** A run's environment with other ticks. *)
Definition with_ticks (env : Env) (l : list Tick) : Env :=
  {| init_ok := init_ok env; first_answer := first_answer env;
     csv_opens := csv_opens env; cycle_began := cycle_began env; ticks := l;
     last_answer := last_answer env |}.

(** What the loop of a profile keeps of the runner: the arguments, the
    number of cores, the CSV writer, a sensor that was initialised and a
    pool with one stop event per worker. *)
Definition steady (a : Args) (cores : Z) (s : BenchmarkRunner * World) : Prop :=
  args (fst s) = a
  /\ cpu_count (fst s) = cores
  /\ csv_writer (fst s) = negb (no_csv a)
  /\ SensorReader.sensor (sensor (fst s)) = true
  /\ paired (worker_pool (fst s)).

(** No worker was started that is neither joined nor in the pool. *)
Definition tidy (s : BenchmarkRunner * World) : bool :=
  settled (workers (worker_pool (fst s))) (calls (snd s)).

Definition steady_cycle (a : Args) (cores : Z)
  (s : Cycle * (BenchmarkRunner * World)) : Prop :=
  0 <= level_idx (fst s) < 5 /\ steady a cores (snd s).

(** Notes as [write_sample] is given them: ["test_start"] on the first
    sample when [first] holds, nothing on the others. *)
Definition plain (notes : list string) : bool := forallb (String.eqb "") notes.

Definition tagged (first : bool) (notes : list string) : bool :=
  match notes with
  | [] => true
  | note :: rest =>
      String.eqb note (if first then "test_start" else "") && plain rest
  end.

Definition is_nil {A : Type} (l : list A) : bool :=
  match l with [] => true | _ :: _ => false end.

(** One of the three checks of [run] fails: the sensor does not
    initialise, the first read fails, or the threshold is not below the
    percentage of the first reading. *)
Definition check_fails (a : Args) (env : Env) : Prop :=
  init_ok env = false
  \/ first_answer env = None
  \/ exists x pct,
       first_answer env = Some x
       /\ calculate_battery_percent (Ina219.voltage x) (cells a) = Some pct
       /\ Py.ge (threshold a) pct = true.

(** Whether the reading of a tick is taken while discharging at or below
    the threshold. *)
Definition at_threshold (a : Args) (t : Tick) : bool :=
  match answer t with
  | Some x =>
      negb (Ina219.is_charging x)
      && match calculate_battery_percent (Ina219.voltage x) (cells a) with
         | Some pct => Py.le pct (threshold a)
         | None => false
         end
  | None => false
  end.

(** Whether a sample, if the output is one, carries this load and this
    number of workers. *)
Definition carries (load workers : Z) (o : Output) : bool :=
  match o with
  | Sample _ l k _ _ => (l =? load) && (k =? workers)
  | _ => true
  end.

(** Whether a sample, if the output is one, reports a load of its profile
    and that share of the cores as its workers. *)
Definition reports (cores : Z) (p : Profile) (o : Output) : bool :=
  match o with
  | Sample _ load workers _ _ =>
      match p with
      | stress => load =? 100
      | cyclic => existsb (Z.eqb load) load_levels
      end
      && (workers =? cores * load / 100)
  | _ => true
  end.

(** The arguments [main] parses from a command line that names the
    profile only. *)
Definition defaults (p : Profile) : Args :=
  {| profile := p; threshold := 10; interval := 1; output := ".";
     cycle_duration := 60; cells := DEFAULT_CELL_COUNT;
     i2c_address := DEFAULT_I2C_ADDRESS; no_csv := false |}.

End Benchmark.

(** ** A benchmark on a small machine *)

Module Trial.

Import UpsBenchmark Benchmark.

(** No worker survives its join. *)
Definition nobody : handle -> bool := fun _ => false.

(** A clock that refuses to sleep for a negative length. *)
Definition sleep (seconds : float) : option Exn :=
  if Py.lt seconds 0 then Some ValueError else None.

Definition world : World := {| next_handle := 0%nat; calls := [] |}.

Definition reading (bus current : float) : Ina219.Reading :=
  {| Ina219.bus_voltage := bus; Ina219.shunt_voltage := 0;
     Ina219.current := current |}.

(** A turn of the loop at the time [now], with the sensor answering. *)
Definition tick (now bus current : float) : Tick :=
  {| running := true; monotonic := now; monotonic_again := now;
     answer := Some (reading bus current); csv_ok := true |}.

(** The turn that finds [running] false. *)
Definition signal : Tick :=
  {| running := false; monotonic := 0; monotonic_again := 0;
     answer := None; csv_ok := true |}.

(** The stress profile on a pack of [n] cells. *)
Definition with_cells (n : Z) : Args :=
  {| profile := stress; threshold := 10; interval := 1; output := ".";
     cycle_duration := 60; cells := n; i2c_address := DEFAULT_I2C_ADDRESS;
     no_csv := false |}.

(** A run that starts at 11.4 V, discharging. *)
Definition env (l : list Tick) : Env :=
  {| init_ok := true; first_answer := Some (reading 11.4 (-500));
     csv_opens := true; cycle_began := 0; ticks := l;
     last_answer := Some (reading 11.4 (-500)) |}.

End Trial.

(** * Properties *)

(** ** The order of floats

    [FloatAxioms] reads the primitive comparisons as [SFcompare], which
    orders signs, then exponents, then mantissas. *)

Ltac sf_cases :=
  repeat match goal with
  | x : spec_float |- _ => destruct x as [[]|[]| |[] ? ?]
  end;
  cbn [SFltb SFleb SFcompare] in *;
  try discriminate; try reflexivity.

Ltac cmp_cases :=
  repeat match goal with
  | H : context [Z.compare ?a ?b] |- _ => destruct (Z.compare_spec a b)
  | |- context [Z.compare ?a ?b] => destruct (Z.compare_spec a b)
  | H : context [Pos.compare_cont Eq ?a ?b] |- _ =>
      change (Pos.compare_cont Eq a b) with (Pos.compare a b) in *;
      destruct (Pos.compare_spec a b)
  | |- context [Pos.compare_cont Eq ?a ?b] =>
      change (Pos.compare_cont Eq a b) with (Pos.compare a b) in *;
      destruct (Pos.compare_spec a b)
  end;
  cbn [CompOpp] in *; subst;
  try discriminate; try reflexivity; try lia.

Lemma SFltb_SFleb_false (a b : spec_float) :
  SFltb a b = true -> SFleb b a = false.
Proof. intros H. sf_cases; cmp_cases. Qed.

Lemma SFleb_SFltb_trans (a b c : spec_float) :
  SFleb a b = true -> SFltb b c = true -> SFleb a c = true.
Proof. intros H1 H2. sf_cases; cmp_cases. Qed.

Lemma SFltb_SFleb_trans (a b c : spec_float) :
  SFltb a b = true -> SFleb b c = true -> SFleb a c = true.
Proof. intros H1 H2. sf_cases; cmp_cases. Qed.

Lemma SFleb_trans (a b c : spec_float) :
  SFleb a b = true -> SFleb b c = true -> SFleb a c = true.
Proof. intros H1 H2. sf_cases; cmp_cases. Qed.

Lemma SFltb_SFleb (a b : spec_float) :
  SFltb a b = true -> SFleb a b = true.
Proof. intros H. sf_cases; cmp_cases. Qed.

Lemma SFleb_total (a b : spec_float) :
  a <> S754_nan -> b <> S754_nan -> SFltb b a = false -> SFleb a b = true.
Proof. intros Ha Hb H. sf_cases; try congruence; cmp_cases. Qed.

Lemma SFleb_refl (a : spec_float) : a <> S754_nan -> SFleb a a = true.
Proof.
  intros Ha. destruct a as [[]|[]| |[] m e]; try reflexivity; try congruence;
    cbn [SFleb SFcompare]; rewrite Z.compare_refl;
    change (Pos.compare_cont Eq m m) with (Pos.compare m m);
    rewrite Pos.compare_refl; reflexivity.
Qed.

Lemma py_lt_not_ge (a b : float) : Py.lt a b = true -> Py.ge a b = false.
Proof.
  unfold Py.lt, Py.ge. rewrite ltb_spec, leb_spec. apply SFltb_SFleb_false.
Qed.

Lemma py_gt_not_le (a b : float) : Py.gt a b = true -> Py.le a b = false.
Proof.
  unfold Py.gt, Py.le. rewrite ltb_spec, leb_spec. apply SFltb_SFleb_false.
Qed.

(** Below the warning temperature, and the warning not at or above the
    shutdown temperature: below the shutdown temperature. *)
Lemma lt_warning_not_ge_shutdown (t w s : float) :
  Py.lt t w = true -> Py.ge w s = false -> Py.ge t s = false.
Proof.
  unfold Py.lt, Py.ge. rewrite ltb_spec, !leb_spec. intros Htw Hws.
  destruct (SFleb (Prim2SF s) (Prim2SF t)) eqn:Hst; [|reflexivity].
  rewrite (SFleb_SFltb_trans _ _ _ Hst Htw) in Hws. discriminate.
Qed.

(** Above the warning percentage, and the warning not at or below the
    shutdown percentage: above the shutdown percentage. *)
Lemma gt_warning_not_le_shutdown (p w s : float) :
  Py.gt p w = true -> Py.le w s = false -> Py.le p s = false.
Proof.
  unfold Py.gt, Py.le. rewrite ltb_spec, !leb_spec. intros Hwp Hws.
  destruct (SFleb (Prim2SF p) (Prim2SF s)) eqn:Hps; [|reflexivity].
  rewrite (SFltb_SFleb_trans _ _ _ Hwp Hps) in Hws. discriminate.
Qed.

Lemma py_le_trans (a b c : float) :
  Py.le a b = true -> Py.le b c = true -> Py.le a c = true.
Proof. unfold Py.le. rewrite !leb_spec. apply SFleb_trans. Qed.

(** ** Rounding is monotone

    [x - c], [x / c] and [x * c] do not decrease when [x] grows, for a
    positive finite constant [c].  Each operation of [SpecFloat] hands a
    mantissa, an exponent and a location to [binary_round_aux]; these say
    where the exact result lies, [binary_round_aux] depends on them through
    the slot at the format's exponent only, and on such slots rounding to
    nearest even is monotone. *)

(** *** Powers of two and digits *)

Lemma bpow_pos (e : Z) : (0 < bpow e)%R.
Proof. apply powerRZ_lt. lra. Qed.

Lemma bpow_plus (a b : Z) : bpow (a + b) = (bpow a * bpow b)%R.
Proof. apply powerRZ_add. lra. Qed.

Lemma bpow_succ (e : Z) : bpow (e + 1) = (2 * bpow e)%R.
Proof.
  rewrite bpow_plus. change (bpow 1) with (powerRZ 2 (Z.succ 0)).
  rewrite powerRZ_1. lra.
Qed.

Lemma bpow_IZR (k : Z) : 0 <= k -> bpow k = IZR (2 ^ k).
Proof.
  revert k. apply natlike_ind.
  - reflexivity.
  - intros k Hk IH. rewrite Z.pow_succ_r, mult_IZR by lia. unfold Z.succ.
    rewrite bpow_succ, IH. reflexivity.
Qed.

Lemma bpow_ge_1 (k : Z) : 0 <= k -> (1 <= bpow k)%R.
Proof.
  intros Hk. rewrite bpow_IZR by exact Hk. apply IZR_le.
  pose proof (Z.pow_pos_nonneg 2 k). lia.
Qed.

Lemma bpow_le (a b : Z) : a <= b -> (bpow a <= bpow b)%R.
Proof.
  intros H. replace b with (a + (b - a)) by lia. rewrite bpow_plus.
  pose proof (bpow_pos a). pose proof (bpow_ge_1 (b - a) ltac:(lia)). nra.
Qed.

Lemma bpow_lt (a b : Z) : a < b -> (bpow a < bpow b)%R.
Proof.
  intros H. apply Rlt_le_trans with (bpow (a + 1)).
  - rewrite bpow_succ. pose proof (bpow_pos a). lra.
  - apply bpow_le. lia.
Qed.

Lemma bpow_lt_inv (a b : Z) : (bpow a < bpow b)%R -> a < b.
Proof.
  intros H. destruct (Z_lt_le_dec a b) as [Hlt|Hle]; [exact Hlt|].
  apply bpow_le in Hle. lra.
Qed.

Lemma digits2_pos_bounds (p : positive) :
  2 ^ (Zpos (digits2_pos p) - 1) <= Zpos p < 2 ^ Zpos (digits2_pos p).
Proof.
  induction p as [p IH|p IH|]; cbn [digits2_pos];
    try (rewrite Pos2Z.inj_succ;
         replace (Z.succ (Zpos (digits2_pos p)) - 1)
           with (Z.succ (Zpos (digits2_pos p) - 1)) by lia;
         rewrite !Z.pow_succ_r by lia; lia).
  cbn. lia.
Qed.

(** A natural mantissa is below [2 ^ digits], and at least
    [2 ^ (digits - 1)] when it is positive. *)
Lemma Zdigits2_upper (m : Z) : 0 <= m -> m + 1 <= 2 ^ Zdigits2 m.
Proof.
  intros Hm. destruct m as [|p|p]; [cbn; lia| |lia].
  cbn [Zdigits2]. pose proof (digits2_pos_bounds p). lia.
Qed.

Lemma Zdigits2_lower (m : Z) : 0 < m -> 2 ^ (Zdigits2 m - 1) <= m.
Proof.
  intros Hm. destruct m as [|p|p]; try lia.
  cbn [Zdigits2]. pose proof (digits2_pos_bounds p). lia.
Qed.

Lemma Zdigits2_nonneg (m : Z) : 0 <= Zdigits2 m.
Proof. destruct m; cbn; lia. Qed.

Lemma Zdigits2_pos (m : Z) : 0 < m -> 0 < Zdigits2 m.
Proof. destruct m; cbn; lia. Qed.

(** So [m * 2^e] is in [[2 ^ (digits - 1 + e), 2 ^ (digits + e))]. *)
Lemma F2R_lower (m e : Z) :
  0 < m -> (bpow (Zdigits2 m - 1 + e) <= F2R m e)%R.
Proof.
  intros Hm. unfold F2R. rewrite bpow_plus.
  pose proof (Zdigits2_lower m Hm) as H. pose proof (Zdigits2_pos m Hm).
  apply IZR_le in H. rewrite <- bpow_IZR in H by lia.
  pose proof (bpow_pos e). nra.
Qed.

Lemma F2R_succ_upper (m e : Z) :
  0 <= m -> (F2R (m + 1) e <= bpow (Zdigits2 m + e))%R.
Proof.
  intros Hm. unfold F2R. rewrite bpow_plus.
  pose proof (Zdigits2_upper m Hm) as H. pose proof (Zdigits2_nonneg m).
  apply IZR_le in H. rewrite <- bpow_IZR in H by lia.
  pose proof (bpow_pos e). nra.
Qed.

(** *** Shifting a slot to the format's exponent *)

Lemma fexp64_eq (x : Z) : fexp64 x = Z.max (x - 53) (-1074).
Proof. reflexivity. Qed.

Lemma F2R_succ (m e : Z) : F2R (m + 1) e = (F2R m e + bpow e)%R.
Proof. unfold F2R. rewrite plus_IZR. lra. Qed.

Lemma located_bounds (m e : Z) (l : location) (x : R) :
  located m e l x -> (F2R m e <= x < F2R m e + bpow e)%R.
Proof.
  pose proof (bpow_pos e). destruct l as [|[]]; cbn; lra.
Qed.

Lemma loc_of_record_of_loc (m : Z) (l : location) :
  loc_of_shr_record (shr_record_of_loc m l) = l
  /\ shr_m (shr_record_of_loc m l) = m.
Proof. destruct l as [|[]]; split; reflexivity. Qed.

(** One shift to the right halves the mantissa and keeps the place. *)
Lemma shr_1_located (mrs : shr_record) (e : Z) (x : R) :
  0 <= shr_m mrs ->
  located (shr_m mrs) e (loc_of_shr_record mrs) x ->
  0 <= shr_m (shr_1 mrs)
  /\ located (shr_m (shr_1 mrs)) (e + 1) (loc_of_shr_record (shr_1 mrs)) x.
Proof.
  destruct mrs as [m r s]. cbn [shr_m]. intros Hm.
  pose proof (bpow_pos e) as Hb.
  destruct m as [|[p|p|]|p]; try lia;
    destruct r, s; cbn [shr_1 orb shr_m loc_of_shr_record located];
    unfold F2R; rewrite bpow_succ;
    try rewrite IZR_POS_xO; try rewrite IZR_POS_xI;
    intros H; (split; [lia|]); lra.
Qed.

Lemma iter_shr_1_located (x : R) (n : positive) :
  forall (mrs : shr_record) (e : Z),
  0 <= shr_m mrs ->
  located (shr_m mrs) e (loc_of_shr_record mrs) x ->
  0 <= shr_m (SpecFloat.iter_pos shr_1 n mrs)
  /\ located (shr_m (SpecFloat.iter_pos shr_1 n mrs)) (e + Zpos n)
       (loc_of_shr_record (SpecFloat.iter_pos shr_1 n mrs)) x.
Proof.
  induction n as [n IH|n IH|]; intros mrs e Hm Hl; cbn [SpecFloat.iter_pos].
  - destruct (shr_1_located mrs e x Hm Hl) as [H1 H2].
    destruct (IH _ _ H1 H2) as [H3 H4].
    destruct (IH _ _ H3 H4) as [H5 H6].
    split; [exact H5|].
    replace (e + Zpos n~1) with (e + 1 + Zpos n + Zpos n) by lia. exact H6.
  - destruct (IH _ _ Hm Hl) as [H3 H4].
    destruct (IH _ _ H3 H4) as [H5 H6].
    split; [exact H5|].
    replace (e + Zpos n~0) with (e + Zpos n + Zpos n) by lia. exact H6.
  - apply shr_1_located; assumption.
Qed.

Lemma shr_fexp_located (m e : Z) (l : location) (x : R) :
  0 <= m -> located m e l x -> e <= fexp64 (Zdigits2 m + e) ->
  0 <= shr_m (fst (shr_fexp prec emax m e l))
  /\ located (shr_m (fst (shr_fexp prec emax m e l)))
       (snd (shr_fexp prec emax m e l))
       (loc_of_shr_record (fst (shr_fexp prec emax m e l))) x
  /\ snd (shr_fexp prec emax m e l) = fexp64 (Zdigits2 m + e).
Proof.
  intros Hm Hl He. unfold shr_fexp, shr.
  destruct (loc_of_record_of_loc m l) as [E1 E2].
  destruct (fexp64 (Zdigits2 m + e) - e) as [|n|n] eqn:En; try lia; cbn [fst snd].
  - rewrite E1, E2. split; [exact Hm|]. split; [exact Hl|]. lia.
  - destruct (iter_shr_1_located x n (shr_record_of_loc m l) e) as [H1 H2].
    + rewrite E2. exact Hm.
    + rewrite E1, E2. exact Hl.
    + split; [exact H1|]. split; [exact H2|]. lia.
Qed.

(** Two slots of the same number, the second at the exponent the format
    gives the first: the second is at its own exponent. *)
Lemma located_canonical (m e m' e' : Z) (l l' : location) (x : R) :
  0 <= m -> 0 <= m' ->
  located m e l x -> located m' e' l' x ->
  e <= e' -> e' = fexp64 (Zdigits2 m + e) ->
  e' = fexp64 (Zdigits2 m' + e').
Proof.
  intros Hm Hm' Hl Hl' Hee He'.
  apply located_bounds in Hl, Hl'. rewrite <- F2R_succ in Hl, Hl'.
  rewrite fexp64_eq in *.
  assert (Hup : (x < bpow (Zdigits2 m + e))%R).
  { pose proof (F2R_succ_upper m e Hm). lra. }
  assert (Hup' : (x < bpow (Zdigits2 m' + e'))%R).
  { pose proof (F2R_succ_upper m' e' Hm'). lra. }
  destruct (Z.eq_dec m' 0) as [->|Hnz'].
  - cbn [Zdigits2] in *. rewrite Z.add_0_l in *.
    destruct (Z.eq_dec m 0) as [->|Hnz].
    + cbn [Zdigits2] in *. lia.
    + pose proof (F2R_lower m e ltac:(lia)) as Hlo.
      assert (Hlt : (bpow (Zdigits2 m - 1 + e) < bpow e')%R) by lra.
      apply bpow_lt_inv in Hlt. lia.
  - pose proof (F2R_lower m' e' ltac:(lia)) as Hlo'.
    destruct (Z.eq_dec m 0) as [->|Hnz].
    + cbn [Zdigits2] in *. rewrite Z.add_0_l in *.
      pose proof (Zdigits2_pos m' ltac:(lia)).
      assert (Hlt : (bpow (Zdigits2 m' - 1 + e') < bpow e)%R) by lra.
      apply bpow_lt_inv in Hlt. lia.
    + pose proof (F2R_lower m e ltac:(lia)) as Hlo.
      assert (H1 : (bpow (Zdigits2 m - 1 + e) < bpow (Zdigits2 m' + e'))%R) by lra.
      assert (H2 : (bpow (Zdigits2 m' - 1 + e') < bpow (Zdigits2 m + e))%R) by lra.
      apply bpow_lt_inv in H1, H2. lia.
Qed.

(** *** What [binary_round_aux] returns *)

Lemma mk_le (m1 e1 m2 e2 : Z) :
  0 <= m1 -> 0 <= m2 -> pair_le (m1, e1) (m2, e2) ->
  SFleb (mk false m1 e1) (mk false m2 e2) = true
  /\ SFleb (mk true m2 e2) (mk true m1 e1) = true.
Proof.
  unfold pair_le, mk. cbn [fst snd]. intros H1 H2 H.
  destruct m1 as [|p1|p1], m2 as [|p2|p2]; try lia;
    destruct (Z.leb_spec e1 971), (Z.leb_spec e2 971);
    cbn [SFleb SFcompare]; split; cmp_cases.
Qed.

Lemma rne_bounds (m : Z) (l : location) :
  m <= round_nearest_even m l <= m + 1.
Proof. destruct l as [|[]]; cbn; try destruct (Z.even m); lia. Qed.

Lemma rne_mono (m e : Z) (l1 l2 : location) (x1 x2 : R) :
  located m e l1 x1 -> located m e l2 x2 -> (x1 <= x2)%R ->
  round_nearest_even m l1 <= round_nearest_even m l2.
Proof.
  pose proof (bpow_pos e).
  destruct l1 as [|[]], l2 as [|[]]; cbn; intros H1 H2 Hx;
    try destruct (Z.even m); try lia; exfalso; lra.
Qed.

Lemma Zdigits2_le (m k : Z) : 0 <= m < 2 ^ k -> 0 <= k -> Zdigits2 m <= k.
Proof.
  intros [H0 Hk] Hk0. destruct (Z.eq_dec m 0) as [->|Hm]; [cbn; lia|].
  pose proof (Zdigits2_lower m ltac:(lia)) as Hlo.
  pose proof (Zdigits2_pos m ltac:(lia)).
  destruct (Z_lt_le_dec k (Zdigits2 m)) as [Hlt|Hle]; [|exact Hle].
  assert (2 ^ k <= 2 ^ (Zdigits2 m - 1)) by (apply Z.pow_le_mono_r; lia). lia.
Qed.

Lemma canonical_lt (m e : Z) :
  0 <= m -> e = fexp64 (Zdigits2 m + e) -> m < 9007199254740992 /\ -1074 <= e.
Proof.
  intros Hm He. rewrite fexp64_eq in He.
  assert (Hd : Zdigits2 m <= 53) by lia.
  pose proof (Zdigits2_upper m Hm) as Hup. pose proof (Zdigits2_nonneg m).
  assert (2 ^ Zdigits2 m <= 2 ^ 53) by (apply Z.pow_le_mono_r; lia).
  change (2 ^ 53) with 9007199254740992 in *. lia.
Qed.

Lemma canonical_normal (m e : Z) :
  0 <= m -> e = fexp64 (Zdigits2 m + e) -> -1074 < e -> 4503599627370496 <= m.
Proof.
  intros Hm He Hlt. rewrite fexp64_eq in He.
  assert (Hd : Zdigits2 m = 53) by lia.
  destruct (Z.eq_dec m 0) as [->|Hnz]; [cbn in Hd; lia|].
  pose proof (Zdigits2_lower m ltac:(lia)) as Hlo. rewrite Hd in Hlo.
  change (2 ^ (53 - 1)) with 4503599627370496 in Hlo. exact Hlo.
Qed.

(** The second half of [binary_round_aux]. *)
Lemma second_shift (s : bool) (m e : Z) :
  0 <= m <= 9007199254740992 -> -1074 <= e ->
  (let '(mrs, e') := shr_fexp prec emax m e loc_Exact in
   match shr_m mrs with
   | Z0 => S754_zero s
   | Zpos p => if e' <=? emax - prec then S754_finite s p e' else S754_infinity s
   | Zneg _ => S754_nan
   end)
  = mk s (fst (renorm m e)) (snd (renorm m e)).
Proof.
  intros Hm He. unfold renorm.
  destruct (Z.eqb_spec m 9007199254740992) as [->|Hne].
  - unfold shr_fexp.
    replace (fexp64 (Zdigits2 9007199254740992 + e) - e) with 1
      by (rewrite fexp64_eq; change (Zdigits2 9007199254740992) with 54; lia).
    reflexivity.
  - unfold shr_fexp, shr. cbn [shr_record_of_loc].
    assert (Hd : Zdigits2 m <= 53).
    { apply Zdigits2_le; [|lia]. change (2 ^ 53) with 9007199254740992. lia. }
    destruct (fexp64 (Zdigits2 m + e) - e) as [|n|n] eqn:En;
      try (rewrite fexp64_eq in En; lia); cbn [shr_m fst snd mk]; reflexivity.
Qed.

(** [binary_round_aux] on a located number: the slot it rounds from, which
    is at its own exponent, and the float it returns. *)
Lemma binary_round_aux_mk (s : bool) (m e : Z) (l : location) (x : R) :
  0 <= m -> located m e l x -> e <= fexp64 (Zdigits2 m + e) ->
  exists (m' e' : Z) (l' : location),
    0 <= m' /\ located m' e' l' x /\ e' = fexp64 (Zdigits2 m' + e')
    /\ binary_round_aux prec emax s m e l
       = mk s (fst (renorm (round_nearest_even m' l') e'))
              (snd (renorm (round_nearest_even m' l') e')).
Proof.
  intros Hm Hl He.
  destruct (shr_fexp_located m e l x Hm Hl He) as [H1 [H2 H3]].
  unfold binary_round_aux.
  destruct (shr_fexp prec emax m e l) as [mrs e'] eqn:E. cbn [fst snd] in *.
  exists (shr_m mrs), e', (loc_of_shr_record mrs).
  assert (Hc : e' = fexp64 (Zdigits2 (shr_m mrs) + e')).
  { apply (located_canonical m e (shr_m mrs) e' l (loc_of_shr_record mrs) x);
      try assumption. lia. }
  split; [exact H1|]. split; [exact H2|]. split; [exact Hc|].
  destruct (canonical_lt _ _ H1 Hc) as [Hlt Hmin].
  pose proof (rne_bounds (shr_m mrs) (loc_of_shr_record mrs)) as Hb.
  apply second_shift; lia.
Qed.

(** *** Monotonicity on slots *)

Lemma canonical_exp_le (m1 e1 m2 e2 : Z) (l1 l2 : location) (x1 x2 : R) :
  0 <= m1 -> 0 <= m2 ->
  located m1 e1 l1 x1 -> located m2 e2 l2 x2 ->
  e1 = fexp64 (Zdigits2 m1 + e1) -> e2 = fexp64 (Zdigits2 m2 + e2) ->
  (x1 <= x2)%R -> e1 <= e2.
Proof.
  intros Hm1 Hm2 Hl1 Hl2 Hc1 Hc2 Hx.
  apply located_bounds in Hl1, Hl2. rewrite <- F2R_succ in Hl1, Hl2.
  rewrite fexp64_eq in *.
  destruct (Z.eq_dec m1 0) as [->|Hnz]; [cbn [Zdigits2] in *; lia|].
  pose proof (F2R_lower m1 e1 ltac:(lia)) as Hlo.
  pose proof (F2R_succ_upper m2 e2 Hm2) as Hup.
  assert (Hlt : (bpow (Zdigits2 m1 - 1 + e1) < bpow (Zdigits2 m2 + e2))%R) by lra.
  apply bpow_lt_inv in Hlt. lia.
Qed.

Lemma same_exp_le (m1 m2 e : Z) (l1 l2 : location) (x1 x2 : R) :
  located m1 e l1 x1 -> located m2 e l2 x2 -> (x1 <= x2)%R -> m1 <= m2.
Proof.
  intros Hl1 Hl2 Hx.
  apply located_bounds in Hl1, Hl2. rewrite <- F2R_succ in Hl1, Hl2.
  assert (H : (F2R m1 e < F2R (m2 + 1) e)%R) by lra.
  unfold F2R in H. apply Rmult_lt_reg_r in H; [|apply bpow_pos].
  apply lt_IZR in H. lia.
Qed.

(** Rounding is monotone on slots that are at their own exponent. *)
Lemma round_pair_le (m1 e1 m2 e2 : Z) (l1 l2 : location) (x1 x2 : R) :
  0 <= m1 -> 0 <= m2 ->
  located m1 e1 l1 x1 -> located m2 e2 l2 x2 ->
  e1 = fexp64 (Zdigits2 m1 + e1) -> e2 = fexp64 (Zdigits2 m2 + e2) ->
  (x1 <= x2)%R ->
  pair_le (renorm (round_nearest_even m1 l1) e1)
          (renorm (round_nearest_even m2 l2) e2).
Proof.
  intros Hm1 Hm2 Hl1 Hl2 Hc1 Hc2 Hx.
  pose proof (canonical_exp_le _ _ _ _ _ _ _ _ Hm1 Hm2 Hl1 Hl2 Hc1 Hc2 Hx) as Hee.
  destruct (canonical_lt _ _ Hm1 Hc1) as [Hlt1 Hmin1].
  destruct (canonical_lt _ _ Hm2 Hc2) as [Hlt2 Hmin2].
  pose proof (rne_bounds m1 l1) as Hb1. pose proof (rne_bounds m2 l2) as Hb2.
  destruct (Z.eq_dec e1 e2) as [<-|Hne].
  - pose proof (same_exp_le _ _ _ _ _ _ _ Hl1 Hl2 Hx) as Hmm.
    assert (Hr : round_nearest_even m1 l1 <= round_nearest_even m2 l2).
    { destruct (Z.eq_dec m1 m2) as [<-|Hmne]; [|lia].
      exact (rne_mono _ _ _ _ _ _ Hl1 Hl2 Hx). }
    unfold pair_le, renorm.
    destruct (Z.eqb_spec (round_nearest_even m1 l1) 9007199254740992),
      (Z.eqb_spec (round_nearest_even m2 l2) 9007199254740992);
      cbn [fst snd]; lia.
  - pose proof (canonical_normal _ _ Hm2 Hc2 ltac:(lia)) as Hn2.
    unfold pair_le, renorm.
    destruct (Z.eqb_spec (round_nearest_even m1 l1) 9007199254740992),
      (Z.eqb_spec (round_nearest_even m2 l2) 9007199254740992);
      cbn [fst snd]; lia.
Qed.

(** *** Rounding a signed number *)

Lemma renorm_nonneg (m e : Z) : 0 <= m -> 0 <= fst (renorm m e).
Proof. unfold renorm. destruct (m =? 9007199254740992); cbn; lia. Qed.

Lemma mk_zero_le_pos (s : bool) (m e : Z) :
  0 <= m -> SFleb (S754_zero s) (mk false m e) = true.
Proof.
  intros Hm. unfold mk. destruct m; try lia; try reflexivity.
  destruct (e <=? 971); reflexivity.
Qed.

Lemma mk_neg_le_zero (s : bool) (m e : Z) :
  0 <= m -> SFleb (mk true m e) (S754_zero s) = true.
Proof.
  intros Hm. unfold mk. destruct m; try lia; try reflexivity.
  destruct (e <=? 971); reflexivity.
Qed.

Lemma mk_neg_le_pos (m1 e1 m2 e2 : Z) :
  0 <= m1 -> 0 <= m2 -> SFleb (mk true m1 e1) (mk false m2 e2) = true.
Proof.
  intros H1 H2. unfold mk. destruct m1, m2; try lia; try reflexivity;
    destruct (e1 <=? 971); try reflexivity; destruct (e2 <=? 971); reflexivity.
Qed.

Lemma mk_not_nan (s : bool) (m e : Z) : 0 <= m -> mk s m e <> S754_nan.
Proof.
  intros Hm. unfold mk. destruct m; try lia; try discriminate.
  destruct (e <=? 971); discriminate.
Qed.

Lemma rounds_not_nan (X : R) (r : spec_float) : rounds X r -> r <> S754_nan.
Proof.
  intros [s _ ->|s m e l a Hm Hl He Ha _ ->]; [discriminate|].
  destruct (binary_round_aux_mk s m e l a Hm Hl He) as [m' [e' [l' [Hm' [_ [_ ->]]]]]].
  apply mk_not_nan, renorm_nonneg.
  pose proof (rne_bounds m' l'). lia.
Qed.

(** Rounding is monotone. *)
Lemma rounds_mono (X1 X2 : R) (r1 r2 : spec_float) :
  rounds X1 r1 -> rounds X2 r2 -> (X1 <= X2)%R -> SFleb r1 r2 = true.
Proof.
  intros [s1 E1 ->|s1 m1 e1 l1 a1 Hm1 Hl1 He1 Ha1 E1 ->]
         [s2 E2 ->|s2 m2 e2 l2 a2 Hm2 Hl2 He2 Ha2 E2 ->] Hx.
  - reflexivity.
  - destruct (binary_round_aux_mk s2 m2 e2 l2 a2 Hm2 Hl2 He2)
      as [m' [e' [l' [Hm' [_ [_ ->]]]]]].
    pose proof (rne_bounds m' l').
    destruct s2; cbn [signed] in E2; [lra|].
    apply mk_zero_le_pos, renorm_nonneg. lia.
  - destruct (binary_round_aux_mk s1 m1 e1 l1 a1 Hm1 Hl1 He1)
      as [m' [e' [l' [Hm' [_ [_ ->]]]]]].
    pose proof (rne_bounds m' l').
    destruct s1; cbn [signed] in E1; [|lra].
    apply mk_neg_le_zero, renorm_nonneg. lia.
  - destruct (binary_round_aux_mk s1 m1 e1 l1 a1 Hm1 Hl1 He1)
      as [m1' [e1' [l1' [Hm1' [Hl1' [Hc1 ->]]]]]].
    destruct (binary_round_aux_mk s2 m2 e2 l2 a2 Hm2 Hl2 He2)
      as [m2' [e2' [l2' [Hm2' [Hl2' [Hc2 ->]]]]]].
    pose proof (rne_bounds m1' l1'). pose proof (rne_bounds m2' l2').
    assert (N1 : 0 <= fst (renorm (round_nearest_even m1' l1') e1'))
      by (apply renorm_nonneg; lia).
    assert (N2 : 0 <= fst (renorm (round_nearest_even m2' l2') e2'))
      by (apply renorm_nonneg; lia).
    destruct s1, s2; cbn [signed] in E1, E2.
    + assert (Ha : (a2 <= a1)%R) by lra.
      pose proof (round_pair_le _ _ _ _ _ _ _ _ Hm2' Hm1' Hl2' Hl1' Hc2 Hc1 Ha) as P.
      destruct (renorm (round_nearest_even m1' l1') e1') as [f1 g1].
      destruct (renorm (round_nearest_even m2' l2') e2') as [f2 g2].
      exact (proj2 (mk_le _ _ _ _ N2 N1 P)).
    + apply mk_neg_le_pos; assumption.
    + lra.
    + assert (Ha : (a1 <= a2)%R) by lra.
      pose proof (round_pair_le _ _ _ _ _ _ _ _ Hm1' Hm2' Hl1' Hl2' Hc1 Hc2 Ha) as P.
      destruct (renorm (round_nearest_even m1' l1') e1') as [f1 g1].
      destruct (renorm (round_nearest_even m2' l2') e2') as [f2 g2].
      exact (proj1 (mk_le _ _ _ _ N1 N2 P)).
Qed.

(** *** The order of valid floats is the order of their numbers *)

Lemma bounded_canonical (m : positive) (e : Z) :
  SpecFloat.bounded prec emax m e = true ->
  e = fexp64 (Zdigits2 (Zpos m) + e) /\ e <= 971.
Proof.
  unfold SpecFloat.bounded, canonical_mantissa. intros H.
  apply andb_prop in H. destruct H as [H1 H2].
  apply Z.eqb_eq in H1. apply Z.leb_le in H2. cbn [Zdigits2].
  change (emax - prec) with 971 in H2. split; [symmetry; exact H1 | exact H2].
Qed.

Lemma canonical_F2R_le (m1 m2 : positive) (e1 e2 : Z) :
  e1 = fexp64 (Zdigits2 (Zpos m1) + e1) ->
  e2 = fexp64 (Zdigits2 (Zpos m2) + e2) ->
  e1 < e2 \/ (e1 = e2 /\ Zpos m1 <= Zpos m2) ->
  (F2R (Zpos m1) e1 <= F2R (Zpos m2) e2)%R.
Proof.
  intros Hc1 Hc2 [Hlt|[-> Hle]].
  - pose proof (F2R_succ_upper (Zpos m1) e1 ltac:(lia)) as Hup.
    rewrite F2R_succ in Hup. pose proof (bpow_pos e1).
    pose proof (F2R_lower (Zpos m2) e2 ltac:(lia)) as Hlo.
    rewrite fexp64_eq in Hc1, Hc2.
    assert (Hd : Zdigits2 (Zpos m1) + e1 <= Zdigits2 (Zpos m2) - 1 + e2) by lia.
    apply bpow_le in Hd. lra.
  - unfold F2R. apply Rmult_le_compat_r; [apply Rlt_le, bpow_pos|].
    apply IZR_le. exact Hle.
Qed.

Lemma F2R_pos (m : positive) (e : Z) : (0 < F2R (Zpos m) e)%R.
Proof.
  unfold F2R. apply Rmult_lt_0_compat; [apply IZR_lt; lia | apply bpow_pos].
Qed.

Lemma SFleb_SF2R (v1 v2 : spec_float) :
  valid_binary v1 = true -> valid_binary v2 = true ->
  finite_or_zero v1 = true -> finite_or_zero v2 = true ->
  SFleb v1 v2 = true -> (SF2R v1 <= SF2R v2)%R.
Proof.
  intros V1 V2 F1 F2 H.
  destruct v1 as [s1|s1| |s1 m1 e1]; try discriminate;
    destruct v2 as [s2|s2| |s2 m2 e2]; try discriminate;
    cbn [SF2R]; try lra.
  - pose proof (F2R_pos m2 e2). destruct s2; cbn in H |- *; [discriminate|lra].
  - pose proof (F2R_pos m1 e1). destruct s1; cbn in H |- *; [lra|discriminate].
  - pose proof (F2R_pos m1 e1). pose proof (F2R_pos m2 e2).
    cbn [valid_binary] in V1, V2.
    destruct (bounded_canonical _ _ V1) as [Hc1 _].
    destruct (bounded_canonical _ _ V2) as [Hc2 _].
    destruct s1, s2; cbn [signed]; cbn [SFleb SFcompare] in H;
      try discriminate; try lra.
    + assert (L : (F2R (Zpos m2) e2 <= F2R (Zpos m1) e1)%R).
      { apply canonical_F2R_le; try assumption.
        revert H. cmp_cases; intros; lia. }
      lra.
    + apply canonical_F2R_le; try assumption.
      revert H. cmp_cases; intros; lia.
Qed.

(** An operation that keeps the infinities and rounds a monotone function
    of the numbers is monotone on the valid floats. *)
Lemma op_mono (op : spec_float -> spec_float) (g : R -> R) :
  (forall s, op (S754_infinity s) = S754_infinity s) ->
  (forall v, valid_binary v = true -> finite_or_zero v = true ->
             rounds (g (SF2R v)) (op v)) ->
  (forall a b : R, (a <= b)%R -> (g a <= g b)%R) ->
  forall v1 v2 : spec_float,
  valid_binary v1 = true -> valid_binary v2 = true ->
  SFleb v1 v2 = true -> SFleb (op v1) (op v2) = true.
Proof.
  intros Hinf Hround Hg v1 v2 V1 V2 H.
  destruct (finite_or_zero v1) eqn:F1, (finite_or_zero v2) eqn:F2.
  - apply (rounds_mono (g (SF2R v1)) (g (SF2R v2))); try (apply Hround; assumption).
    apply Hg, SFleb_SF2R; assumption.
  - destruct v2 as [s2|[]| |s2 m2 e2]; try discriminate.
    + destruct v1 as [s1|s1| |[] m1 e1]; discriminate.
    + rewrite Hinf. pose proof (rounds_not_nan _ _ (Hround v1 V1 F1)) as N.
      destruct (op v1) as [[]|[]| |[] ? ?]; try reflexivity; congruence.
    + destruct v1 as [s1|s1| |[] m1 e1]; discriminate.
  - destruct v1 as [s1|[]| |s1 m1 e1]; try discriminate.
    + rewrite Hinf. pose proof (rounds_not_nan _ _ (Hround v2 V2 F2)) as N.
      destruct (op v2) as [[]|[]| |[] ? ?]; try reflexivity; congruence.
    + destruct v2 as [s2|s2| |[] m2 e2]; discriminate.
  - destruct v1 as [s1|[]| |s1 m1 e1]; try discriminate;
      destruct v2 as [s2|[]| |s2 m2 e2]; try discriminate;
      rewrite !Hinf; reflexivity.
Qed.

(** *** Multiplication *)

Lemma Zdigits2_ge (m k : Z) : 2 ^ (k - 1) <= m -> 0 < k -> k <= Zdigits2 m.
Proof.
  intros Hk Hk0.
  assert (Hm : 0 < m) by (pose proof (Z.pow_pos_nonneg 2 (k - 1)); lia).
  pose proof (Zdigits2_upper m ltac:(lia)) as Hup.
  pose proof (Zdigits2_nonneg m).
  destruct (Z_lt_le_dec (Zdigits2 m) k) as [Hlt|Hle]; [|exact Hle].
  assert (2 ^ Zdigits2 m <= 2 ^ (k - 1)) by (apply Z.pow_le_mono_r; lia). lia.
Qed.

Lemma F2R_mult (m1 e1 m2 e2 : Z) :
  F2R (m1 * m2) (e1 + e2) = (F2R m1 e1 * F2R m2 e2)%R.
Proof. unfold F2R. rewrite mult_IZR, bpow_plus. ring. Qed.

Lemma signed_mult (s : bool) (a b : R) : (signed s a * b = signed s (a * b))%R.
Proof. destruct s; cbn; ring. Qed.

Lemma mul_rounds (mc : positive) (ec : Z) (v : spec_float) :
  Zdigits2 (Zpos mc) = 53 ->
  finite_or_zero v = true ->
  rounds (SF2R v * F2R (Zpos mc) ec) (SFmul prec emax v (S754_finite false mc ec)).
Proof.
  intros Hd F. destruct v as [s|s| |s m e]; try discriminate.
  - apply (rounds_zero _ _ (xorb s false)); [cbn; ring | reflexivity].
  - cbn [SFmul SF2R]. rewrite xorb_false_r.
    apply (rounds_located _ _ s (Zpos (m * mc)) (e + ec) loc_Exact
             (F2R (Zpos m) e * F2R (Zpos mc) ec)).
    + lia.
    + cbn [located]. rewrite Pos2Z.inj_mul. symmetry. apply F2R_mult.
    + rewrite fexp64_eq.
      assert (53 <= Zdigits2 (Zpos (m * mc))).
      { apply Zdigits2_ge; [|lia].
        pose proof (Zdigits2_lower (Zpos mc) ltac:(lia)) as Hlo. rewrite Hd in Hlo.
        rewrite Pos2Z.inj_mul. nia. }
      lia.
    + apply Rmult_lt_0_compat; apply F2R_pos.
    + apply signed_mult.
    + reflexivity.
Qed.

(** *** Division *)

Lemma F2R_shift (m e k : Z) : 0 <= k -> F2R (m * 2 ^ k) e = F2R m (e + k).
Proof.
  intros Hk. unfold F2R. rewrite mult_IZR, <- bpow_IZR, bpow_plus by exact Hk. ring.
Qed.

(** The quotient and the remainder that [SFdiv_core_binary] computes locate
    the exact quotient, with digits enough for the format. *)
Lemma div_core_located (m mc : positive) (e ec : Z) :
  let '(q, e', l) := SFdiv_core_binary prec emax (Zpos m) e (Zpos mc) ec in
  0 <= q
  /\ located q e' l (F2R (Zpos m) e / F2R (Zpos mc) ec)
  /\ e' <= fexp64 (Zdigits2 q + e').
Proof.
  unfold SFdiv_core_binary.
  set (D := Zdigits2 (Zpos m) + e - (Zdigits2 (Zpos mc) + ec)).
  set (e' := Z.min (fexp64 D) (e - ec)).
  set (s := e - ec - e').
  assert (Hs : 0 <= s) by (subst s e'; lia).
  set (m' := match s with Zpos _ => Z.shiftl (Zpos m) s | Z0 => Zpos m | Zneg _ => 0 end).
  assert (Hm' : m' = Zpos m * 2 ^ s).
  { subst m'. destruct s as [|p|p] eqn:Es; try lia.
    rewrite Z.shiftl_mul_pow2 by lia. reflexivity. }
  pose proof (Z_div_mod m' (Zpos mc) ltac:(lia)) as Hdm.
  destruct (Z.div_eucl m' (Zpos mc)) as [q r]. destruct Hdm as [Hq Hr].
  assert (Hm'pos : 0 < m').
  { rewrite Hm'. pose proof (Z.pow_pos_nonneg 2 s ltac:(lia) Hs). nia. }
  assert (Hq0 : 0 <= q) by nia.
  set (x := (F2R (Zpos m) e / F2R (Zpos mc) ec)%R).
  pose proof (F2R_pos m e) as Hxm. pose proof (F2R_pos mc ec) as Hxc.
  pose proof (bpow_pos e') as Hb. pose proof (bpow_pos ec) as Hbc.
  assert (HM : (0 < IZR (Zpos mc))%R) by (apply IZR_lt; lia).
  assert (Hx : (x * IZR (Zpos mc) = (IZR (Zpos mc) * IZR q + IZR r) * bpow e')%R).
  { assert (E : F2R (Zpos m) e = (F2R m' ec * bpow e')%R).
    { rewrite Hm', F2R_shift by exact Hs. unfold F2R.
      replace e with (ec + s + e') at 1 by (subst s; lia).
      rewrite !bpow_plus. ring. }
    subst x. rewrite E. unfold F2R at 1. rewrite Hq, plus_IZR, mult_IZR.
    unfold F2R. field. lra. }
  assert (Hr0 : (0 <= IZR r < IZR (Zpos mc))%R)
    by (split; [apply IZR_le | apply IZR_lt]; lia).
  split; [exact Hq0|]. split.
  - unfold new_location.
    destruct (Z.even (Zpos mc)) eqn:Hev;
      [unfold new_location_even | unfold new_location_odd];
      destruct (Z.eqb_spec r 0) as [->|Hrnz].
    + unfold located, F2R. apply (Rmult_eq_reg_r (IZR (Zpos mc))); [|lra].
      rewrite Hx. ring.
    + assert (Hrp : (0 < IZR r)%R) by (apply IZR_lt; lia).
      destruct (Z.compare_spec (2 * r) (Zpos mc)) as [Hc|Hc|Hc];
        cbn [located]; unfold F2R.
      * apply (f_equal IZR) in Hc. rewrite mult_IZR in Hc.
        apply (Rmult_eq_reg_r (IZR (Zpos mc))); [|lra]. rewrite Hx. nra.
      * apply IZR_lt in Hc. rewrite mult_IZR in Hc. split; nra.
      * apply IZR_lt in Hc. rewrite mult_IZR in Hc. split; nra.
    + unfold located, F2R. apply (Rmult_eq_reg_r (IZR (Zpos mc))); [|lra].
      rewrite Hx. ring.
    + assert (Hrp : (0 < IZR r)%R) by (apply IZR_lt; lia).
      assert (Hodd : 2 * r <> Zpos mc).
      { intros E. rewrite <- E, Z.even_mul in Hev. discriminate. }
      destruct (Z.compare_spec (2 * r + 1) (Zpos mc)) as [Hc|Hc|Hc];
        cbn [located]; unfold F2R.
      * assert (Hc' : 2 * r < Zpos mc) by lia.
        apply IZR_lt in Hc'. rewrite mult_IZR in Hc'. split; nra.
      * assert (Hc' : 2 * r < Zpos mc) by lia.
        apply IZR_lt in Hc'. rewrite mult_IZR in Hc'. split; nra.
      * assert (Hc' : Zpos mc < 2 * r) by lia.
        apply IZR_lt in Hc'. rewrite mult_IZR in Hc'. split; nra.
  - assert (Hlow : (bpow (D - 1) <= x)%R).
    { pose proof (F2R_lower (Zpos m) e ltac:(lia)) as Hlo.
      pose proof (F2R_succ_upper (Zpos mc) ec ltac:(lia)) as Hup.
      rewrite F2R_succ in Hup.
      assert (E : bpow (Zdigits2 (Zpos m) - 1 + e)
                  = (bpow (D - 1) * bpow (Zdigits2 (Zpos mc) + ec))%R).
      { rewrite <- bpow_plus. f_equal. subst D. lia. }
      assert (Ex : (x * F2R (Zpos mc) ec = F2R (Zpos m) e)%R).
      { subst x. field. lra. }
      pose proof (bpow_pos (D - 1)).
      pose proof (bpow_pos (Zdigits2 (Zpos mc) + ec)).
      assert (Hxpos : (0 < x)%R).
      { subst x. apply Rdiv_lt_0_compat; assumption. }
      nra. }
    assert (Hupq : (x < bpow (Zdigits2 q + e'))%R).
    { pose proof (F2R_succ_upper q e' Hq0) as Hup. unfold F2R in Hup.
      rewrite plus_IZR in Hup. nra. }
    assert (Hlt : (bpow (D - 1) < bpow (Zdigits2 q + e'))%R) by lra.
    apply bpow_lt_inv in Hlt. subst e'. rewrite !fexp64_eq in *. lia.
Qed.

Lemma signed_div (s : bool) (a b : R) : (signed s a / b = signed s (a / b))%R.
Proof. destruct s; cbn; unfold Rdiv; ring. Qed.

Lemma div_rounds (mc : positive) (ec : Z) (v : spec_float) :
  finite_or_zero v = true ->
  rounds (SF2R v / F2R (Zpos mc) ec) (SFdiv prec emax v (S754_finite false mc ec)).
Proof.
  intros F. destruct v as [s|s| |s m e]; try discriminate.
  - apply (rounds_zero _ _ (xorb s false)); [cbn; unfold Rdiv; ring | reflexivity].
  - cbn [SFdiv SF2R]. rewrite xorb_false_r.
    pose proof (div_core_located m mc e ec) as H.
    destruct (SFdiv_core_binary prec emax (Zpos m) e (Zpos mc) ec) as [[q e'] l].
    destruct H as [Hq [Hl He]].
    apply (rounds_located _ _ s q e' l (F2R (Zpos m) e / F2R (Zpos mc) ec));
      try assumption.
    + apply Rdiv_lt_0_compat; apply F2R_pos.
    + apply signed_div.
    + reflexivity.
Qed.

(** *** Subtraction *)

Lemma iter_xO_pow (m d : positive) :
  Zpos (Pos.iter xO m d) = Zpos m * 2 ^ Zpos d.
Proof.
  induction d as [|d IH] using Pos.peano_ind.
  - cbn. lia.
  - rewrite Pos.iter_succ, Pos2Z.inj_xO, IH, Pos2Z.inj_succ, Z.pow_succ_r by lia.
    ring.
Qed.

Lemma shl_align_spec (m : positive) (e e' : Z) :
  F2R (Zpos (fst (shl_align m e e'))) (snd (shl_align m e e')) = F2R (Zpos m) e
  /\ snd (shl_align m e e') = Z.min e e'.
Proof.
  unfold shl_align. destruct (e' - e) as [|d|d] eqn:Ed; cbn [fst snd].
  - split; [reflexivity | lia].
  - split; [reflexivity | lia].
  - split; [|lia]. rewrite iter_xO_pow, F2R_shift by lia. f_equal. lia.
Qed.

Lemma same_magnitude (m m' : positive) (e e' : Z) :
  F2R (Zpos m) e = F2R (Zpos m') e' ->
  Zdigits2 (Zpos m) + e = Zdigits2 (Zpos m') + e'.
Proof.
  intros E.
  pose proof (F2R_lower (Zpos m) e ltac:(lia)) as L1.
  pose proof (F2R_lower (Zpos m') e' ltac:(lia)) as L2.
  pose proof (F2R_succ_upper (Zpos m) e ltac:(lia)) as U1.
  pose proof (F2R_succ_upper (Zpos m') e' ltac:(lia)) as U2.
  rewrite F2R_succ in U1, U2.
  pose proof (bpow_pos e). pose proof (bpow_pos e').
  assert (H1 : (bpow (Zdigits2 (Zpos m) - 1 + e)
                < bpow (Zdigits2 (Zpos m') + e'))%R) by lra.
  assert (H2 : (bpow (Zdigits2 (Zpos m') - 1 + e')
                < bpow (Zdigits2 (Zpos m) + e))%R) by lra.
  apply bpow_lt_inv in H1, H2. lia.
Qed.

(** A valid float is the rounding of its own number. *)
Lemma binary_round_aux_valid (s : bool) (m : positive) (e : Z) :
  SpecFloat.bounded prec emax m e = true ->
  binary_round_aux prec emax s (Zpos m) e loc_Exact = S754_finite s m e.
Proof.
  intros Hb. destruct (bounded_canonical m e Hb) as [Hc He].
  unfold binary_round_aux, shr_fexp.
  replace (fexp64 (Zdigits2 (Zpos m) + e) - e) with 0 by lia.
  cbn [shr shr_record_of_loc shr_m loc_of_shr_record round_nearest_even].
  replace (fexp64 (Zdigits2 (Zpos m) + e) - e) with 0 by lia.
  cbn [shr shr_m]. change (emax - prec) with 971.
  destruct (Z.leb_spec e 971); [reflexivity | lia].
Qed.

Lemma binary_round_rounds (s : bool) (p : positive) (e : Z) :
  rounds (signed s (F2R (Zpos p) e)) (binary_round prec emax s p e).
Proof.
  unfold binary_round.
  destruct (shl_align_spec p e (fexp64 (Zpos (digits2_pos p) + e))) as [Hv He].
  destruct (shl_align p e (fexp64 (Zpos (digits2_pos p) + e))) as [mz ez].
  cbn [fst snd] in *.
  apply (rounds_located _ _ s (Zpos mz) ez loc_Exact (F2R (Zpos p) e)).
  - lia.
  - cbn [located]. symmetry. exact Hv.
  - rewrite (same_magnitude _ _ _ _ Hv). cbn [Zdigits2]. lia.
  - apply F2R_pos.
  - reflexivity.
  - reflexivity.
Qed.

Lemma binary_normalize_rounds (M e : Z) :
  rounds (F2R M e) (binary_normalize prec emax M e false).
Proof.
  destruct M as [|p|p]; cbn [binary_normalize].
  - apply (rounds_zero _ _ false); [unfold F2R; lra | reflexivity].
  - apply (binary_round_rounds false).
  - replace (F2R (Zneg p) e) with (signed true (F2R (Zpos p) e)).
    + apply binary_round_rounds.
    + cbn [signed]. unfold F2R. rewrite IZR_NEG. ring.
Qed.

Lemma F2R_cond_Zopp (s : bool) (m e : Z) :
  F2R (cond_Zopp s m) e = signed s (F2R m e).
Proof. destruct s; cbn; unfold F2R; [rewrite opp_IZR; ring | reflexivity]. Qed.

Lemma F2R_minus (a b e : Z) : F2R (a - b) e = (F2R a e - F2R b e)%R.
Proof. unfold F2R. rewrite minus_IZR. ring. Qed.

Lemma sub_rounds (mc : positive) (ec : Z) (v : spec_float) :
  SpecFloat.bounded prec emax mc ec = true ->
  finite_or_zero v = true ->
  rounds (SF2R v - F2R (Zpos mc) ec) (SFsub prec emax v (S754_finite false mc ec)).
Proof.
  intros Hb F. destruct v as [s|s| |s m e]; try discriminate.
  - cbn [SFsub SF2R negb].
    apply (rounds_located _ _ true (Zpos mc) ec loc_Exact (F2R (Zpos mc) ec)).
    + lia.
    + reflexivity.
    + destruct (bounded_canonical mc ec Hb) as [Hc _]. lia.
    + apply F2R_pos.
    + cbn [signed]. lra.
    + symmetry. apply binary_round_aux_valid. exact Hb.
  - cbn [SFsub SF2R].
    destruct (shl_align_spec m e (Z.min e ec)) as [Hv1 He1].
    destruct (shl_align_spec mc ec (Z.min e ec)) as [Hv2 He2].
    replace (Z.min e (Z.min e ec)) with (Z.min e ec) in He1 by lia.
    replace (Z.min ec (Z.min e ec)) with (Z.min e ec) in He2 by lia.
    rewrite He1 in Hv1. rewrite He2 in Hv2.
    match goal with
    | |- rounds ?X (binary_normalize _ _ ?M ?ez _) =>
        replace X with (F2R M ez); [apply binary_normalize_rounds|]
    end.
    rewrite F2R_minus, !F2R_cond_Zopp, Hv1, Hv2. reflexivity.
Qed.

(** *** The primitive operations with a positive constant *)

Lemma valid_finite (c : float) (mc : positive) (ec : Z) :
  Prim2SF c = S754_finite false mc ec ->
  SpecFloat.bounded prec emax mc ec = true.
Proof. intros E. pose proof (Prim2SF_valid c) as V. rewrite E in V. exact V. Qed.

Lemma sub_monotone (c : float) (mc : positive) (ec : Z) :
  Prim2SF c = S754_finite false mc ec ->
  forall x y : float,
  PrimFloat.leb x y = true -> PrimFloat.leb (x - c) (y - c) = true.
Proof.
  intros Ec x y. rewrite !leb_spec, !sub_spec, Ec.
  apply (op_mono (fun v => SF64sub v (S754_finite false mc ec))
           (fun X => (X - F2R (Zpos mc) ec)%R)); try apply Prim2SF_valid.
  - intros []; reflexivity.
  - intros v _ F. apply sub_rounds; [exact (valid_finite c mc ec Ec) | exact F].
  - intros a b Hab. lra.
Qed.

Lemma div_monotone (c : float) (mc : positive) (ec : Z) :
  Prim2SF c = S754_finite false mc ec ->
  forall x y : float,
  PrimFloat.leb x y = true -> PrimFloat.leb (x / c) (y / c) = true.
Proof.
  intros Ec x y. rewrite !leb_spec, !div_spec, Ec.
  apply (op_mono (fun v => SF64div v (S754_finite false mc ec))
           (fun X => (X / F2R (Zpos mc) ec)%R)); try apply Prim2SF_valid.
  - intros []; reflexivity.
  - intros v _ F. apply div_rounds. exact F.
  - intros a b Hab. pose proof (F2R_pos mc ec).
    unfold Rdiv. apply Rmult_le_compat_r; [|exact Hab].
    apply Rlt_le, Rinv_0_lt_compat. assumption.
Qed.

Lemma mul_monotone (c : float) (mc : positive) (ec : Z) :
  Prim2SF c = S754_finite false mc ec ->
  Zdigits2 (Zpos mc) = 53 ->
  forall x y : float,
  PrimFloat.leb x y = true -> PrimFloat.leb (x * c) (y * c) = true.
Proof.
  intros Ec Hd x y. rewrite !leb_spec, !mul_spec, Ec.
  apply (op_mono (fun v => SF64mul v (S754_finite false mc ec))
           (fun X => (X * F2R (Zpos mc) ec)%R)); try apply Prim2SF_valid.
  - intros []; reflexivity.
  - intros v _ F. apply mul_rounds; assumption.
  - intros a b Hab. pose proof (F2R_pos mc ec).
    apply Rmult_le_compat_r; [lra | exact Hab].
Qed.

(** ** The hysteresis and the shutdown path, step by step *)

Lemma warn_path_warned (crossed : bool) :
  warn_path crossed true = if crossed then (NoAction, true) else (WarnCleared, false).
Proof. destruct crossed; reflexivity. Qed.

Lemma warn_path_fresh (crossed : bool) :
  warn_path crossed false = if crossed then (WarnRaised, true) else (NoAction, false).
Proof. destruct crossed; reflexivity. Qed.

Lemma warn_path_not_shutdown (crossed warned : bool) :
  fst (warn_path crossed warned) <> Shutdown.
Proof. destruct crossed, warned; discriminate. Qed.

(** C8: a temperature monitor warning at 70 and shutting down at 80, started
    with no warning raised, answers the readings 65, 72, 74, 81 with
    no action, a warning raised, no action, shutdown (whatever the bus
    address, the polling interval and the outcome of the shutdown command);
    so does the thermocouple monitor on these hot-junction readings. *)
Theorem C8_temperature_scenario :
  forall (addr : Z) (poll : float) (c1 c2 c3 c4 : CmdResult),
  actions (fst (Pct2075.loop (Scenario.pct_config addr poll) initial
                  [Scenario.pct_read 65 c1; Scenario.pct_read 72 c2;
                   Scenario.pct_read 74 c3; Scenario.pct_read 81 c4]))
  = [NoAction; WarnRaised; NoAction; Shutdown]
  /\ forall (tc : string) (a1 a2 a3 a4 : float),
     actions (fst (Mcp9601.loop (Scenario.mcp_config addr poll tc) initial
                     [Scenario.mcp_read 65 a1 c1; Scenario.mcp_read 72 a2 c2;
                      Scenario.mcp_read 74 a3 c3; Scenario.mcp_read 81 a4 c4]))
     = [NoAction; WarnRaised; NoAction; Shutdown].
Proof.
  intros addr poll c1 c2 c3 c4. split; intros; destruct c4; reflexivity.
Qed.

(** C9: the thermocouple monitor decides on the hot junction only: two
    readings with the same hot-junction temperature and any ambient
    temperatures give the same action, the same events and the same next
    state, and a whole run is unchanged when its ambient temperatures are
    replaced by others. *)
Theorem C9_ambient_never_decides :
  forall (cfg : Mcp9601.Config) (st : LoopState),
  (forall (hot a1 a2 : float),
     Mcp9601.evaluate cfg (warning_logged st)
       {| Mcp9601.hot_temp := hot; Mcp9601.ambient_temp := a1 |}
     = Mcp9601.evaluate cfg (warning_logged st)
       {| Mcp9601.hot_temp := hot; Mcp9601.ambient_temp := a2 |})
  /\ (forall (hot a1 a2 : float) (c : CmdResult),
        Mcp9601.iteration cfg st (Scenario.mcp_read hot a1 c)
        = Mcp9601.iteration cfg st (Scenario.mcp_read hot a2 c))
  /\ (forall (ambients : list float) (inputs : list Mcp9601.Input),
        Mcp9601.loop cfg st (Scenario.with_ambient ambients inputs)
        = Mcp9601.loop cfg st inputs).
Proof.
  intros cfg st. split; [reflexivity|]. split; [reflexivity|].
  intros ambients inputs. revert st ambients.
  induction inputs as [|i rest IH]; intros st ambients.
  - destruct ambients; reflexivity.
  - destruct ambients as [|a ambients]; [reflexivity|].
    cbn [Scenario.with_ambient]. unfold Mcp9601.loop in *. cbn [run].
    assert (E : Mcp9601.iteration cfg st
                  {| Mcp9601.reading :=
                       match Mcp9601.reading i with
                       | Some r => Some {| Mcp9601.hot_temp := Mcp9601.hot_temp r;
                                           Mcp9601.ambient_temp := a |}
                       | None => None
                       end;
                     Mcp9601.cmd := Mcp9601.cmd i |}
                = Mcp9601.iteration cfg st i).
    { destruct i as [[r|] c]; reflexivity. }
    rewrite E. destruct (Mcp9601.iteration cfg st i) as [evs [st'|code]].
    + rewrite IH. reflexivity.
    + reflexivity.
Qed.

(** ** The battery monitor *)

(** For the cell counts that [main] lets through the range is no zero, and
    the percentage is the clamped interpolation. *)
Lemma ina_percent_cells (v : float) (c : Z) :
  1 <= c <= 6 ->
  Ina219.calculate_battery_percent v c
  = Some (Py.max 0 (Py.min 100
       (((v - Ina219.CELL_VOLTAGE_EMPTY * Py.float_of_int c)
         / (Ina219.CELL_VOLTAGE_FULL * Py.float_of_int c
            - Ina219.CELL_VOLTAGE_EMPTY * Py.float_of_int c))
        * 100)%float)).
Proof.
  intros Hc.
  assert (E : c = 1 \/ c = 2 \/ c = 3 \/ c = 4 \/ c = 5 \/ c = 6) by lia.
  destruct E as [-> | [-> | [-> | [-> | [-> | ->]]]]]; reflexivity.
Qed.

Lemma ina_iteration_read (cfg : Ina219.Config) (st : LoopState)
  (i : Ina219.Input) (r : Ina219.Reading) (p : float) :
  Ina219.reading i = Some r ->
  Ina219.calculate_battery_percent (Ina219.voltage r) (Ina219.cell_count cfg) = Some p ->
  Ina219.iteration cfg st i
  = match Ina219.evaluate cfg (warning_logged st) p (Ina219.is_charging r) with
    | (Shutdown, _) =>
        shutdown_path {| consecutive_failures := 0;
                         warning_logged := warning_logged st |} (Ina219.cmd i)
    | (a, warned') =>
        ([Act a], Continue {| consecutive_failures := 0; warning_logged := warned' |})
    end.
Proof. intros Hr Hp. unfold Ina219.iteration. rewrite Hr, Hp. reflexivity. Qed.

Lemma ina_evaluate_charging (cfg : Ina219.Config) (warned : bool) (p : float) :
  Ina219.evaluate cfg warned p true
  = (if warned then WarnCleared else NoAction, false).
Proof. unfold Ina219.evaluate. cbn. destruct warned; reflexivity. Qed.

Lemma on_failure_events (st : LoopState) :
  forall a, In (Act a) (fst (on_failure st)) -> False.
Proof.
  intros a. unfold on_failure.
  destruct (MAX_CONSECUTIVE_FAILURES <=? consecutive_failures st + 1); cbn;
    intros H; repeat destruct H as [H|H]; try discriminate; exact H.
Qed.

Lemma on_failure_continues (st : LoopState) :
  exists st', snd (on_failure st) = Continue st'
              /\ warning_logged st' = warning_logged st.
Proof.
  unfold on_failure.
  destruct (MAX_CONSECUTIVE_FAILURES <=? consecutive_failures st + 1); cbn;
    eexists; split; reflexivity.
Qed.

(** C1: charging is a positive current, and a reading taken while charging
    never leads to the shutdown action, whatever the percentage: the
    decision is not [Shutdown], the iteration holds no shutdown event, and
    the process goes on. *)
Theorem C1_charging_never_shutdown :
  forall (cfg : Ina219.Config) (st : LoopState) (i : Ina219.Input)
         (r : Ina219.Reading),
  Ina219.reading i = Some r ->
  PrimFloat.ltb 0 (Ina219.current r) = true ->
  Ina219.is_charging r = true
  /\ (forall (warned : bool) (p : float),
        fst (Ina219.evaluate cfg warned p (Ina219.is_charging r)) <> Shutdown)
  /\ ~ In (Act Shutdown) (fst (Ina219.iteration cfg st i))
  /\ exists st', snd (Ina219.iteration cfg st i) = Continue st'.
Proof.
  intros cfg st i r Hr Hc.
  assert (Hch : Ina219.is_charging r = true) by exact Hc.
  split; [exact Hch|]. rewrite Hch. split.
  { intros warned p. rewrite ina_evaluate_charging. destruct warned; discriminate. }
  unfold Ina219.iteration. rewrite Hr.
  destruct (Ina219.calculate_battery_percent _ _) as [p|].
  - rewrite Hch, ina_evaluate_charging.
    destruct (warning_logged st); cbn; split;
      try (eexists; reflexivity); intros [H|[]]; discriminate.
  - split; [exact (on_failure_events st Shutdown)|].
    destruct (on_failure_continues st) as [st' [H _]]. exists st'. exact H.
Qed.

Lemma C1_charging_never_shutdown_witness :
  Ina219.is_charging
    {| Ina219.bus_voltage := 9; Ina219.shunt_voltage := 0; Ina219.current := 500 |}
  = true
  /\ Ina219.calculate_battery_percent 9 3 = Some 0%float
  /\ Ina219.iteration (Scenario.ina_config 65 10) initial
       (Scenario.ina_read 9 0 500 CmdOk)
     = ([Act NoAction], Continue initial).
Proof.
  pose proof (C1_charging_never_shutdown (Scenario.ina_config 65 10) initial
                (Scenario.ina_read 9 0 500 CmdOk) _ eq_refl eq_refl) as H.
  split; [exact (proj1 H)|]. split; reflexivity.
Defined.

(** C10: while charging no warning is raised, however low the percentage,
    and a warning that was raised is cleared, also when the percentage is
    still at or below the warning threshold (the cell count being one that
    [main] lets through, so that there is a percentage). *)
Theorem C10_charging_clears_warning :
  forall (cfg : Ina219.Config) (st : LoopState) (i : Ina219.Input)
         (r : Ina219.Reading),
  Ina219.reading i = Some r ->
  Ina219.is_charging r = true ->
  (forall (warned : bool) (p : float),
     Ina219.evaluate cfg warned p (Ina219.is_charging r)
     = (if warned then WarnCleared else NoAction, false))
  /\ ~ In (Act WarnRaised) (fst (Ina219.iteration cfg st i))
  /\ (1 <= Ina219.cell_count cfg <= 6 ->
      warning_logged st = true ->
      Ina219.iteration cfg st i
      = ([Act WarnCleared],
         Continue {| consecutive_failures := 0; warning_logged := false |})).
Proof.
  intros cfg st i r Hr Hch. rewrite Hch.
  split; [intros; apply ina_evaluate_charging|]. split.
  - unfold Ina219.iteration. rewrite Hr.
    destruct (Ina219.calculate_battery_percent _ _) as [p|];
      [|exact (on_failure_events st WarnRaised)].
    rewrite Hch, ina_evaluate_charging.
    destruct (warning_logged st); cbn; intros [H|[]]; discriminate.
  - intros Hcells Hw.
    rewrite (ina_iteration_read cfg st i r _ Hr (ina_percent_cells _ _ Hcells)).
    rewrite Hch, ina_evaluate_charging, Hw. reflexivity.
Qed.

Lemma C10_charging_clears_warning_witness :
  Ina219.calculate_battery_percent 9 3 = Some 0%float
  /\ Ina219.iteration (Scenario.ina_config 65 10)
       {| consecutive_failures := 0; warning_logged := true |}
       (Scenario.ina_read 9 0 500 CmdOk)
     = ([Act WarnCleared],
        Continue {| consecutive_failures := 0; warning_logged := false |}).
Proof.
  split; [reflexivity|].
  refine (proj2 (proj2 (C10_charging_clears_warning (Scenario.ina_config 65 10)
            {| consecutive_failures := 0; warning_logged := true |}
            (Scenario.ina_read 9 0 500 CmdOk) _ eq_refl eq_refl)) _ eq_refl).
  cbn. lia.
Defined.

Lemma ina_evaluate_discharging (cfg : Ina219.Config) (warned : bool) (p : float) :
  Ina219.evaluate cfg warned p false
  = if Py.le p (Ina219.shutdown_percent cfg) then (Shutdown, warned)
    else warn_path (Py.le p (Ina219.warning_percent cfg)) warned.
Proof. reflexivity. Qed.

(** C2, as the code has it: with 3 cells, warning at 15 % and shutdown at
    5 %, from no warning raised, three readings whose percentages are above
    15 (50 %), at most 15 and above 5 (14 %), and at most 5 (4 %), give
    no action, a warning, shutdown when discharging, and no action at all
    when charging, where the process goes on with no warning raised. *)
Theorem C2_battery_scenario :
  forall (addr : Z) (poll : float) (charging : bool)
         (r1 r2 r3 : Ina219.Reading) (c1 c2 c3 : CmdResult) (p1 p2 p3 : float),
  Ina219.calculate_battery_percent (Ina219.voltage r1) 3 = Some p1 ->
  Ina219.calculate_battery_percent (Ina219.voltage r2) 3 = Some p2 ->
  Ina219.calculate_battery_percent (Ina219.voltage r3) 3 = Some p3 ->
  Py.gt p1 15 = true ->
  Py.le p2 15 = true -> Py.gt p2 5 = true ->
  Py.le p3 5 = true ->
  Ina219.is_charging r1 = charging ->
  Ina219.is_charging r2 = charging ->
  Ina219.is_charging r3 = charging ->
  let run :=
    Ina219.loop (Scenario.ina_config addr poll) initial
      [{| Ina219.reading := Some r1; Ina219.cmd := c1 |};
       {| Ina219.reading := Some r2; Ina219.cmd := c2 |};
       {| Ina219.reading := Some r3; Ina219.cmd := c3 |}] in
  if charging
  then actions (fst run) = [NoAction; NoAction; NoAction]
       /\ snd run = Continue initial
  else actions (fst run) = [NoAction; WarnRaised; Shutdown].
Proof.
  intros addr poll charging r1 r2 r3 c1 c2 c3 p1 p2 p3
    Hp1 Hp2 Hp3 H1 H2 H2' H3 Hc1 Hc2 Hc3 run.
  subst run. unfold Ina219.loop. cbn [run].
  rewrite (ina_iteration_read (Scenario.ina_config addr poll) _
               {| Ina219.reading := Some r1; Ina219.cmd := c1 |}
               r1 p1 eq_refl Hp1), Hc1.
  destruct charging.
  - rewrite ina_evaluate_charging. cbn [warning_logged initial].
    rewrite (ina_iteration_read (Scenario.ina_config addr poll) _
               {| Ina219.reading := Some r2; Ina219.cmd := c2 |}
               r2 p2 eq_refl Hp2), Hc2.
    rewrite ina_evaluate_charging. cbn [warning_logged].
    rewrite (ina_iteration_read (Scenario.ina_config addr poll) _
               {| Ina219.reading := Some r3; Ina219.cmd := c3 |}
               r3 p3 eq_refl Hp3), Hc3.
    rewrite ina_evaluate_charging. cbn. split; reflexivity.
  - rewrite ina_evaluate_discharging.
    cbn [Scenario.ina_config Ina219.shutdown_percent Ina219.warning_percent
         warning_logged initial].
    rewrite (gt_warning_not_le_shutdown p1 15 5 H1 eq_refl), (py_gt_not_le _ _ H1).
    cbn [warn_path negb warning_logged].
    rewrite (ina_iteration_read (Scenario.ina_config addr poll) _
               {| Ina219.reading := Some r2; Ina219.cmd := c2 |}
               r2 p2 eq_refl Hp2), Hc2.
    rewrite ina_evaluate_discharging.
    cbn [Scenario.ina_config Ina219.shutdown_percent Ina219.warning_percent
         warning_logged].
    rewrite (py_gt_not_le _ _ H2'), H2.
    cbn [warn_path negb warning_logged].
    rewrite (ina_iteration_read (Scenario.ina_config addr poll) _
               {| Ina219.reading := Some r3; Ina219.cmd := c3 |}
               r3 p3 eq_refl Hp3), Hc3.
    rewrite ina_evaluate_discharging.
    cbn [Scenario.ina_config Ina219.shutdown_percent Ina219.warning_percent
         warning_logged].
    rewrite H3. destruct c3; reflexivity.
Qed.

Lemma C2_battery_scenario_witness :
  (Ina219.calculate_battery_percent 10.8 3 = Some 50%float
   /\ Ina219.calculate_battery_percent 9.504 3 = Some 13.999999999999982%float
   /\ Ina219.calculate_battery_percent 9.144 3 = Some 4.0000000000000018%float)
  /\ actions (fst (Ina219.loop (Scenario.ina_config 65 10) initial
                     (Scenario.ina_sequence (-500))))
     = [NoAction; WarnRaised; Shutdown]
  /\ actions (fst (Ina219.loop (Scenario.ina_config 65 10) initial
                     (Scenario.ina_sequence 500)))
     = [NoAction; NoAction; NoAction].
Proof.
  split; [repeat split; reflexivity|]. split.
  - exact (C2_battery_scenario 65 10 false
             {| Ina219.bus_voltage := 10.8; Ina219.shunt_voltage := 0;
                Ina219.current := -500 |}
             {| Ina219.bus_voltage := 9.504; Ina219.shunt_voltage := 0;
                Ina219.current := -500 |}
             {| Ina219.bus_voltage := 9.144; Ina219.shunt_voltage := 0;
                Ina219.current := -500 |}
             CmdOk CmdOk CmdOk 50 13.999999999999982 4.0000000000000018
             eq_refl eq_refl eq_refl eq_refl eq_refl eq_refl eq_refl
             eq_refl eq_refl eq_refl).
  - exact (proj1 (C2_battery_scenario 65 10 true
             {| Ina219.bus_voltage := 10.8; Ina219.shunt_voltage := 0;
                Ina219.current := 500 |}
             {| Ina219.bus_voltage := 9.504; Ina219.shunt_voltage := 0;
                Ina219.current := 500 |}
             {| Ina219.bus_voltage := 9.144; Ina219.shunt_voltage := 0;
                Ina219.current := 500 |}
             CmdOk CmdOk CmdOk 50 13.999999999999982 4.0000000000000018
             eq_refl eq_refl eq_refl eq_refl eq_refl eq_refl eq_refl
             eq_refl eq_refl eq_refl)).
Defined.

(** C2 as stated fails: the pack voltages of 50 %, 14 % and 4 %, read while
    charging at 500 mA, give no action three times, not a warning twice. *)
Lemma C2_charging_counterexample :
  actions (fst (Ina219.loop (Scenario.ina_config 65 10) initial
                  (Scenario.ina_sequence 500)))
  = [NoAction; NoAction; NoAction]
  /\ actions (fst (Ina219.loop (Scenario.ina_config 65 10) initial
                     (Scenario.ina_sequence 500)))
     <> [NoAction; WarnRaised; WarnRaised].
Proof. split; [reflexivity | discriminate]. Qed.

(** ** Read failures *)

Lemma iteration_read_failed (k : Kind) (cfg : Config k) (st : LoopState)
  (i : Input k) :
  read_failed k i = true -> iteration k cfg st i = on_failure st.
Proof.
  destruct k; cbn in *;
    [unfold Pct2075.iteration; destruct (Pct2075.temperature i)
    |unfold Mcp9601.iteration; destruct (Mcp9601.reading i)
    |unfold Ina219.iteration; destruct (Ina219.reading i)];
    intros H; try discriminate; reflexivity.
Qed.

Lemma loop_cons (k : Kind) (cfg : Config k) (st : LoopState) (i : Input k)
  (rest : list (Input k)) :
  loop k cfg st (i :: rest)
  = let '(evs, nx) := iteration k cfg st i in
    match nx with
    | Continue st' => let '(evs', nx') := loop k cfg st' rest in (evs ++ evs', nx')
    | Exited c => (evs, Exited c)
    end.
Proof. reflexivity. Qed.

Lemma loop_five_failures (k : Kind) (cfg : Config k) (warned : bool)
  (inputs : list (Input k)) :
  List.length inputs = 5%nat ->
  forallb (read_failed k) inputs = true ->
  loop k cfg {| consecutive_failures := 0; warning_logged := warned |} inputs
  = ([ReadError 1; ReadError 2; ReadError 3; ReadError 4; ReadError 5;
      CriticalFailure],
     Continue {| consecutive_failures := 0; warning_logged := warned |}).
Proof.
  intros Hlen Hall.
  do 5 (destruct inputs as [|? inputs]; [discriminate|]).
  destruct inputs; [|discriminate].
  cbn [forallb] in Hall.
  repeat (apply andb_prop in Hall; destruct Hall as [? Hall]).
  do 5 (rewrite loop_cons, iteration_read_failed by assumption;
        unfold on_failure; cbn - [loop]).
  reflexivity.
Qed.

(** C4: in each of the three monitors, five read failures in a row, counted
    from zero, escalate exactly once, leave the counter at zero, evaluate
    nothing (so no shutdown), and the process goes on; and no read failure
    changes the warning flag. *)
Theorem C4_five_failures :
  forall (k : Kind) (cfg : Config k) (st : LoopState)
         (inputs : list (Input k)),
  consecutive_failures st = 0 ->
  List.length inputs = 5%nat ->
  forallb (read_failed k) inputs = true ->
  criticals (fst (loop k cfg st inputs)) = 1%nat
  /\ actions (fst (loop k cfg st inputs)) = []
  /\ ~ In (Act Shutdown) (fst (loop k cfg st inputs))
  /\ snd (loop k cfg st inputs)
     = Continue {| consecutive_failures := 0;
                   warning_logged := warning_logged st |}
  /\ (forall (st0 : LoopState) (i : Input k),
        read_failed k i = true ->
        exists st', snd (iteration k cfg st0 i) = Continue st'
                    /\ warning_logged st' = warning_logged st0).
Proof.
  intros k cfg [n warned] inputs Hn Hlen Hall. cbn in Hn. subst n.
  rewrite (loop_five_failures k cfg warned inputs Hlen Hall).
  cbn [fst snd warning_logged].
  split; [reflexivity|]. split; [reflexivity|]. split.
  { intros H. repeat destruct H as [H|H]; try discriminate; exact H. }
  split; [reflexivity|].
  intros st0 i Hi. rewrite (iteration_read_failed k cfg st0 i Hi).
  apply on_failure_continues.
Qed.

Lemma C4_five_failures_witness :
  Kinds.loop Temperature (Scenario.pct_config 55 5) initial
    (repeat {| Pct2075.temperature := None; Pct2075.cmd := CmdOk |} 5)
  = ([ReadError 1; ReadError 2; ReadError 3; ReadError 4; ReadError 5;
      CriticalFailure], Continue initial)
  /\ criticals (fst (Kinds.loop Temperature (Scenario.pct_config 55 5) initial
       (repeat {| Pct2075.temperature := None; Pct2075.cmd := CmdOk |} 5)))
     = 1%nat.
Proof.
  split; [reflexivity|].
  exact (proj1 (C4_five_failures Temperature (Scenario.pct_config 55 5) initial
                  (repeat {| Pct2075.temperature := None; Pct2075.cmd := CmdOk |} 5)
                  eq_refl eq_refl eq_refl)).
Defined.

(** ** Hysteresis *)

(** What an iteration does once the monitored quantity is known. *)
Lemma iteration_evaluated (k : Kind) (cfg : Config k) (st : LoopState)
  (i : Input k) (q : float) :
  quantity k cfg i = Some q ->
  exists c : CmdResult,
    iteration k cfg st i
    = if discharging k i && at_or_beyond k q (shutdown_threshold k cfg)
      then shutdown_path {| consecutive_failures := 0;
                            warning_logged := warning_logged st |} c
      else ([Act (fst (warn_path
                         (discharging k i
                          && at_or_beyond k q (warning_threshold k cfg))
                         (warning_logged st)))],
            Continue {| consecutive_failures := 0;
                        warning_logged :=
                          snd (warn_path
                                 (discharging k i
                                  && at_or_beyond k q (warning_threshold k cfg))
                                 (warning_logged st)) |}).
Proof.
  destruct k; cbn [quantity iteration discharging at_or_beyond
                   shutdown_threshold warning_threshold]; intros Hq.
  - exists (Pct2075.cmd i). unfold Pct2075.iteration, Pct2075.evaluate.
    rewrite Hq. cbn [andb].
    destruct (Py.ge q (Pct2075.shutdown_temp cfg)); [reflexivity|].
    destruct (Py.ge q (Pct2075.warning_temp cfg)), (warning_logged st); reflexivity.
  - exists (Mcp9601.cmd i). unfold Mcp9601.iteration, Mcp9601.evaluate.
    destruct (Mcp9601.reading i) as [r|]; [|discriminate].
    injection Hq as <-. cbn [andb].
    destruct (Py.ge (Mcp9601.hot_temp r) (Mcp9601.shutdown_temp cfg)); [reflexivity|].
    destruct (Py.ge (Mcp9601.hot_temp r) (Mcp9601.warning_temp cfg)),
      (warning_logged st); reflexivity.
  - exists (Ina219.cmd i). unfold Ina219.iteration, Ina219.evaluate.
    destruct (Ina219.reading i) as [r|]; [|discriminate].
    rewrite Hq.
    destruct (negb (Ina219.is_charging r) && Py.le q (Ina219.shutdown_percent cfg));
      [reflexivity|].
    destruct (negb (Ina219.is_charging r) && Py.le q (Ina219.warning_percent cfg)),
      (warning_logged st); reflexivity.
Qed.

Lemma shutdown_path_actions (st : LoopState) (c : CmdResult) (a : Action) :
  In (Act a) (fst (shutdown_path st c)) -> a = Shutdown.
Proof.
  destruct c; cbn.
  - intros [H|[]]. congruence.
  - intros [H|[H|[]]]; congruence.
  - pose proof (on_failure_events st a) as F.
    destruct (on_failure st) as [evs nx]. cbn in *.
    intros [H|H]; [congruence|contradiction].
Qed.

Lemma shutdown_path_keeps_flag (st : LoopState) (c : CmdResult) (st' : LoopState) :
  snd (shutdown_path st c) = Continue st' ->
  warning_logged st' = warning_logged st.
Proof.
  destruct c; cbn; try discriminate.
  destruct (on_failure_continues st) as [st1 [E1 E2]].
  destruct (on_failure st) as [evs nx]. cbn in *. subst nx.
  intros H. injection H as <-. exact E2.
Qed.

Lemma safe_not_beyond (k : Kind) (q w : float) :
  safe_side k q w = true -> at_or_beyond k q w = false.
Proof. destruct k; cbn; [apply py_lt_not_ge | apply py_lt_not_ge | apply py_gt_not_le]. Qed.

Lemma safe_not_beyond_shutdown (k : Kind) (q w s : float) :
  safe_side k q w = true -> at_or_beyond k w s = false ->
  at_or_beyond k q s = false.
Proof.
  destruct k; cbn;
    [apply lt_warning_not_ge_shutdown | apply lt_warning_not_ge_shutdown
    | apply gt_warning_not_le_shutdown].
Qed.

Lemma in_actions (a : Action) (evs : list Event) :
  In a (actions evs) -> In (Act a) evs.
Proof.
  unfold actions. intros H. apply in_flat_map in H.
  destruct H as [e [He Ha]].
  destruct e; cbn in Ha; try contradiction.
  destruct Ha as [<-|[]]. exact He.
Qed.

Lemma actions_app (x y : list Event) : actions (x ++ y) = actions x ++ actions y.
Proof. apply flat_map_app. Qed.

(** On the safe side of an ordered pair of thresholds an iteration clears a
    raised warning and does nothing otherwise. *)
Lemma iteration_safe (k : Kind) (cfg : Config k) (st : LoopState) (i : Input k) :
  at_or_beyond k (warning_threshold k cfg) (shutdown_threshold k cfg) = false ->
  reads_safe k cfg i = true ->
  iteration k cfg st i
  = ([Act (if warning_logged st then WarnCleared else NoAction)],
     Continue {| consecutive_failures := 0; warning_logged := false |}).
Proof.
  intros Hord Hsafe. unfold reads_safe in Hsafe.
  destruct (quantity k cfg i) as [q|] eqn:Hq; [|discriminate].
  destruct (iteration_evaluated k cfg st i q Hq) as [c ->].
  rewrite (safe_not_beyond_shutdown k q _ _ Hsafe Hord).
  rewrite (safe_not_beyond k q _ Hsafe), !andb_false_r.
  destruct (warning_logged st); reflexivity.
Qed.

Lemma loop_stays_safe (k : Kind) (cfg : Config k) (inputs : list (Input k)) :
  at_or_beyond k (warning_threshold k cfg) (shutdown_threshold k cfg) = false ->
  forallb (reads_safe k cfg) inputs = true ->
  forall n : Z,
  actions (fst (loop k cfg {| consecutive_failures := n; warning_logged := false |}
                  inputs))
  = repeat NoAction (List.length inputs)
  /\ exists st', snd (loop k cfg {| consecutive_failures := n;
                                    warning_logged := false |} inputs)
                 = Continue st'
                 /\ warning_logged st' = false.
Proof.
  intros Hord. induction inputs as [|i rest IH]; intros Hall n.
  - split; [reflexivity|]. eexists. split; reflexivity.
  - cbn [forallb] in Hall. apply andb_prop in Hall. destruct Hall as [Hi Hrest].
    rewrite loop_cons, (iteration_safe k cfg _ i Hord Hi).
    cbn [warning_logged].
    destruct (IH Hrest 0) as [Ha [st' [Hs Hw]]].
    destruct (loop k cfg _ rest) as [evs nx]. cbn [fst snd] in *.
    split.
    + cbn [actions flat_map app List.length repeat]. f_equal. exact Ha.
    + exists st'. split; assumption.
Qed.

Lemma loop_no_second_warning (k : Kind) (cfg : Config k)
  (inputs : list (Input k)) :
  forallb (reads_beyond_warning k cfg) inputs = true ->
  forallb (discharging k) inputs = true ->
  forall n : Z,
  ~ In WarnRaised
      (actions (fst (loop k cfg {| consecutive_failures := n;
                                   warning_logged := true |} inputs))).
Proof.
  induction inputs as [|i rest IH]; intros Hall Hdis n.
  - intros [].
  - cbn [forallb] in Hall, Hdis.
    apply andb_prop in Hall. destruct Hall as [Hi Hrest].
    apply andb_prop in Hdis. destruct Hdis as [Hd Hdrest].
    unfold reads_beyond_warning in Hi.
    destruct (quantity k cfg i) as [q|] eqn:Hq; [|discriminate].
    rewrite loop_cons.
    destruct (iteration_evaluated k cfg
                {| consecutive_failures := n; warning_logged := true |} i q Hq)
      as [c ->].
    rewrite Hd, Hi. cbn [andb warning_logged warn_path negb fst snd].
    destruct (at_or_beyond k q (shutdown_threshold k cfg)).
    + pose proof (shutdown_path_actions
                    {| consecutive_failures := 0; warning_logged := true |} c) as Hact.
      pose proof (shutdown_path_keeps_flag
                    {| consecutive_failures := 0; warning_logged := true |} c) as Hflag.
      destruct (shutdown_path _ c) as [evs [[n' w']|code]]; cbn [fst snd] in *.
      * specialize (Hflag _ eq_refl). cbn in Hflag. subst w'.
        specialize (IH Hrest Hdrest n').
        destruct (loop k cfg _ rest) as [evs' nx']. cbn [fst] in *.
        rewrite actions_app. intros H. apply in_app_or in H. destruct H as [H|H].
        -- apply in_actions in H. specialize (Hact _ H). discriminate.
        -- exact (IH H).
      * intros H. apply in_actions in H. specialize (Hact _ H). discriminate.
    + specialize (IH Hrest Hdrest 0).
      destruct (loop k cfg _ rest) as [evs' nx']. cbn [fst] in *.
      cbn [app actions flat_map]. intros [H|H]; [discriminate|exact (IH H)].
Qed.

(** C3: in each of the three monitors, with a warning raised
    ([warning_logged] true), a reading at or beyond the warning threshold
    raises no second warning, and neither does any run of such readings
    taken while discharging; and when the thresholds are ordered as [main]
    requires, a reading on the safe side of the warning threshold clears the
    warning, once: the flag is false afterwards and the readings that
    follow, as long as they are on the safe side, do nothing. *)
Theorem C3_hysteresis :
  forall (k : Kind) (cfg : Config k) (st : LoopState) (i : Input k),
  warning_logged st = true ->
  (reads_beyond_warning k cfg i = true ->
   ~ In (Act WarnRaised) (fst (iteration k cfg st i)))
  /\ (forall inputs : list (Input k),
        forallb (reads_beyond_warning k cfg) inputs = true ->
        forallb (discharging k) inputs = true ->
        ~ In WarnRaised (actions (fst (loop k cfg st inputs))))
  /\ (at_or_beyond k (warning_threshold k cfg) (shutdown_threshold k cfg) = false ->
      reads_safe k cfg i = true ->
      iteration k cfg st i
      = ([Act WarnCleared],
         Continue {| consecutive_failures := 0; warning_logged := false |})
      /\ forall rest : list (Input k),
         forallb (reads_safe k cfg) rest = true ->
         actions (fst (loop k cfg st (i :: rest)))
         = WarnCleared :: repeat NoAction (List.length rest)
         /\ exists st', snd (loop k cfg st (i :: rest)) = Continue st'
                        /\ warning_logged st' = false).
Proof.
  intros k cfg [n warned] i Hw. cbn in Hw. subst warned. split; [|split].
  - unfold reads_beyond_warning.
    destruct (quantity k cfg i) as [q|] eqn:Hq; [|discriminate]. intros _.
    destruct (iteration_evaluated k cfg
                {| consecutive_failures := n; warning_logged := true |} i q Hq)
      as [c ->].
    cbn [warning_logged].
    destruct (discharging k i && at_or_beyond k q (shutdown_threshold k cfg)).
    + intros H. apply shutdown_path_actions in H. discriminate.
    + rewrite warn_path_warned.
      destruct (discharging k i && at_or_beyond k q (warning_threshold k cfg));
        cbn; intros [H|[]]; discriminate.
  - intros inputs Hb Hd. apply loop_no_second_warning; assumption.
  - intros Hord Hsafe.
    pose proof (iteration_safe k cfg
                  {| consecutive_failures := n; warning_logged := true |}
                  i Hord Hsafe) as Hit.
    cbn [warning_logged] in Hit. split; [exact Hit|].
    intros rest Hrest. rewrite loop_cons, Hit.
    destruct (loop_stays_safe k cfg rest Hord Hrest 0) as [Ha [st' [Hs Hf]]].
    destruct (loop k cfg _ rest) as [evs nx]. cbn [fst snd] in *.
    split.
    + cbn [app actions flat_map]. f_equal. exact Ha.
    + exists st'. split; assumption.
Qed.

Lemma C3_hysteresis_witness :
  Kinds.iteration Battery (Scenario.ina_config 65 10)
    {| consecutive_failures := 0; warning_logged := true |}
    (Scenario.ina_read 10.8 0 (-500) CmdOk)
  = ([Act WarnCleared],
     Continue {| consecutive_failures := 0; warning_logged := false |})
  /\ actions (fst (Kinds.loop Battery (Scenario.ina_config 65 10)
                     {| consecutive_failures := 0; warning_logged := true |}
                     [Scenario.ina_read 9.504 0 (-500) CmdOk;
                      Scenario.ina_read 9.504 0 (-200) CmdOk]))
     = [NoAction; NoAction]
  /\ actions (fst (Kinds.loop Temperature (Scenario.pct_config 55 5)
                     {| consecutive_failures := 0; warning_logged := true |}
                     [Scenario.pct_read 72 CmdOk; Scenario.pct_read 69 CmdOk;
                      Scenario.pct_read 68 CmdOk]))
     = [NoAction; WarnCleared; NoAction].
Proof.
  split; [|split; reflexivity].
  exact (proj1 (proj2 (proj2 (C3_hysteresis Battery (Scenario.ina_config 65 10)
           {| consecutive_failures := 0; warning_logged := true |}
           (Scenario.ina_read 10.8 0 (-500) CmdOk) eq_refl)) eq_refl eq_refl)).
Defined.

(** ** Start-up *)

Lemma start_loop_rejected {Config Input : Type}
  (loop : Config -> LoopState -> list Input -> list Event * Next)
  (env : Env Input) (e : StartupError) :
  start_loop loop env (inl e) = ([Startup e], Exited 1).
Proof. reflexivity. Qed.

(** What [load_config] makes of a file that holds a mapping. *)
Lemma load_config_section (name : string) (doc : dict) (section : pyval) :
  lookup doc name = Some section ->
  load_config name (Parsed (PyDict doc)) = inr section.
Proof. intros H. unfold load_config, py_in, py_getitem. rewrite H. reflexivity. Qed.

Lemma load_config_absent (name : string) (doc : dict) :
  lookup doc name = None ->
  load_config name (Parsed (PyDict doc)) = inl SectionMissing.
Proof. intros H. unfold load_config, py_in. rewrite H. reflexivity. Qed.

(** The configuration of each kind fails when the thresholds are out of
    order, whatever the other options are. *)
Lemma configure_rejects (k : Kind) (B : Builtins) (doc section : dict)
  (w s : float) :
  lookup doc (SENSOR_NAME k) = Some (PyDict section) ->
  threshold B section (warning_option k) = inr w ->
  threshold B section (shutdown_option k) = inr s ->
  at_or_beyond k w s = true ->
  exists e, configure k B (Parsed (PyDict doc)) = inl e.
Proof.
  destruct k; intros Hsec Hw Hs Hord; unfold threshold in Hw, Hs;
    cbn [SENSOR_NAME warning_option shutdown_option fst snd at_or_beyond
         configure Kinds.Config] in *.
  - unfold Pct2075.configure. rewrite (load_config_section _ _ _ Hsec).
    cbn [bind get_of].
    destruct (coerced "i2c_address" _) as [e|addr]; [exists e; reflexivity|].
    cbn [bind]. rewrite Hw. cbn [bind]. rewrite Hs. cbn [bind].
    destruct (_coerce_float B "poll_interval_s" _) as [e|poll];
      [exists e; reflexivity|].
    cbn [bind]. rewrite Hord. exists ThresholdOrder. reflexivity.
  - unfold Mcp9601.configure. rewrite (load_config_section _ _ _ Hsec).
    cbn [bind get_of].
    destruct (coerced "i2c_address" _) as [e|addr]; [exists e; reflexivity|].
    cbn [bind]. rewrite Hw. cbn [bind]. rewrite Hs. cbn [bind].
    destruct (_coerce_float B "poll_interval_s" _) as [e|poll];
      [exists e; reflexivity|].
    cbn [bind]. rewrite Hord. exists ThresholdOrder. reflexivity.
  - unfold Ina219.configure. rewrite (load_config_section _ _ _ Hsec).
    cbn [bind get_of].
    destruct (coerced "i2c_address" _) as [e|addr]; [exists e; reflexivity|].
    cbn [bind]. rewrite Hw. cbn [bind]. rewrite Hs. cbn [bind].
    destruct (_coerce_float B "poll_interval_s" _) as [e|poll];
      [exists e; reflexivity|].
    cbn [bind].
    destruct (_coerce_int B "battery_cell_count" _) as [e|cells];
      [exists e; reflexivity|].
    cbn [bind]. rewrite Hord. exists ThresholdOrder. reflexivity.
Qed.

(** C6: in each of the three monitors, a configuration whose warning
    threshold is at or beyond its shutdown threshold (at or above, for a
    temperature; at or below, for a percentage) ends [main] with exit code 1
    on a start-up error alone: no reading is evaluated, whatever the sensor
    would have answered. *)
Theorem C6_threshold_order_rejected :
  forall (k : Kind) (B : Builtins) (env : Env (Input k)) (doc section : dict)
         (w s : float),
  config_file env = Parsed (PyDict doc) ->
  lookup doc (SENSOR_NAME k) = Some (PyDict section) ->
  threshold B section (warning_option k) = inr w ->
  threshold B section (shutdown_option k) = inr s ->
  at_or_beyond k w s = true ->
  (exists e, main k B env = ([Startup e], Exited 1))
  /\ actions (fst (main k B env)) = []
  /\ forall (sensor : bool) (inputs' : list (Input k)),
     main k B {| config_file := config_file env; sensor_init := sensor;
                 inputs := inputs' |}
     = main k B env.
Proof.
  intros k B env doc section w s Hfile Hsec Hw Hs Hord.
  destruct (configure_rejects k B doc section w s Hsec Hw Hs Hord) as [e He].
  assert (Hmain : forall env' : Env (Input k),
             config_file env' = Parsed (PyDict doc) ->
             main k B env' = ([Startup e], Exited 1)).
  { intros env' Hf.
    destruct k; cbn [main configure Kinds.Input Kinds.Config] in *;
      [unfold Pct2075.main | unfold Mcp9601.main | unfold Ina219.main];
      rewrite Hf, He; reflexivity. }
  rewrite (Hmain env Hfile). split; [exists e; reflexivity|].
  split; [reflexivity|].
  intros sensor inputs'. apply Hmain. exact Hfile.
Qed.

Lemma C6_threshold_order_rejected_witness :
  Kinds.main Temperature Scenario.no_strings
    {| config_file :=
         Parsed (PyDict [("pct2075"%string,
                PyDict [("warning_temp_c"%string, PyInt 80);
                 ("shutdown_temp_c"%string, PyInt 80)])]);
       sensor_init := true;
       inputs := [Scenario.pct_read 25 CmdOk] |}
  = ([Startup ThresholdOrder], Exited 1)
  /\ actions (fst (Kinds.main Battery Scenario.no_strings
        {| config_file :=
             Parsed (PyDict [("ina219"%string,
                    PyDict [("warning_battery_percent"%string, PyInt 5);
                     ("shutdown_battery_percent"%string, PyFloat 5.5)])]);
           sensor_init := true;
           inputs := [Scenario.ina_read 12 0 (-500) CmdOk] |}))
     = [].
Proof.
  split; [reflexivity|].
  exact (proj1 (proj2 (C6_threshold_order_rejected Battery Scenario.no_strings
           {| config_file :=
                Parsed (PyDict [("ina219"%string,
                       PyDict [("warning_battery_percent"%string, PyInt 5);
                        ("shutdown_battery_percent"%string, PyFloat 5.5)])]);
              sensor_init := true;
              inputs := [Scenario.ina_read 12 0 (-500) CmdOk] |}
           _ _ 5%float 5.5%float eq_refl eq_refl eq_refl eq_refl eq_refl))).
Defined.

(** ** The worker pool *)

Import UpsBenchmark.

Lemma pop_snoc {A : Type} (l : list A) (x : A) : pop (l ++ [x]) = Some (x, l).
Proof. unfold pop. rewrite rev_app_distr. cbn. rewrite rev_involutive. reflexivity. Qed.

Lemma pop_nonempty {A : Type} (l : list A) :
  l <> [] -> exists x l', l = l' ++ [x] /\ pop l = Some (x, l').
Proof.
  intros Hl. destruct (exists_last Hl) as [l' [x ->]].
  exists x, l'. split; [reflexivity | apply pop_snoc].
Qed.

(** What the calls of the pool leave in the world. *)
Lemma join_or_terminate_calls (is_alive : handle -> bool) (worker : handle)
  (w : World) :
  join_or_terminate is_alive worker w
  = {| next_handle := next_handle w;
       calls := calls w ++ join_calls is_alive worker |}.
Proof.
  unfold join_or_terminate, join_calls, call.
  destruct (is_alive worker); cbn [next_handle calls].
  - rewrite <- app_assoc. reflexivity.
  - reflexivity.
Qed.

Lemma fold_calls {A : Type} (g : World -> A -> World) (f : A -> list Call)
  (l : list A) :
  (forall w a, g w a = {| next_handle := next_handle w;
                          calls := calls w ++ f a |}) ->
  forall w : World,
  fold_left g l w
  = {| next_handle := next_handle w; calls := calls w ++ flat_map f l |}.
Proof.
  intros Hg. induction l as [|a l IH]; intros w.
  - cbn. rewrite app_nil_r. destruct w; reflexivity.
  - cbn [fold_left flat_map]. rewrite IH, Hg. cbn [next_handle calls].
    rewrite <- app_assoc. reflexivity.
Qed.

(** [shutdown], in closed form: the events, then the joins. *)
Lemma shutdown_calls (is_alive : handle -> bool) (p : WorkerPool) (w : World) :
  shutdown is_alive p w
  = ({| max_workers := max_workers p; workers := []; stop_events := [] |},
     {| next_handle := next_handle w;
        calls := calls w ++ map EventSet (stop_events p)
                 ++ flat_map (join_calls is_alive) (workers p) |}).
Proof.
  unfold shutdown. f_equal.
  rewrite (fold_calls (fun w worker => join_or_terminate is_alive worker w)
             (join_calls is_alive))
    by (intros; apply join_or_terminate_calls).
  rewrite (fold_calls (fun w event => call (EventSet event) w)
             (fun e => [EventSet e])) by reflexivity.
  cbn [next_handle calls]. rewrite <- app_assoc.
  replace (flat_map (fun e : handle => [EventSet e]) (stop_events p))
    with (map EventSet (stop_events p)); [reflexivity|].
  induction (stop_events p) as [|e l IH]; [reflexivity|].
  cbn. rewrite IH. reflexivity.
Qed.

(** In a pool with one stop event per worker, every worker has its own. *)
Lemma paired_event (p : WorkerPool) (worker : handle) :
  paired p -> In worker (workers p) ->
  exists event, In (event, worker) (combine (stop_events p) (workers p)).
Proof.
  unfold paired. generalize (stop_events p) as es.
  induction (workers p) as [|x ws IH]; intros es Hl Hin; [destruct Hin|].
  destruct es as [|e es]; [discriminate Hl|].
  cbn [combine]. destruct Hin as [<- | Hin].
  - exists e. left. reflexivity.
  - destruct (IH es) as [event He]; [cbn in Hl; lia | exact Hin |].
    exists event. right. exact He.
Qed.

Section PoolFacts.

Variable is_alive : handle -> bool.

Lemma start_workers_grows (n : nat) :
  forall (p : WorkerPool) (w : World),
  List.length (workers (fst (start_workers n p w))) = (List.length (workers p) + n)%nat
  /\ List.length (stop_events (fst (start_workers n p w)))
     = (List.length (stop_events p) + n)%nat
  /\ max_workers (fst (start_workers n p w)) = max_workers p.
Proof.
  induction n as [|n IH]; intros p w.
  - cbn. repeat split; lia.
  - cbn [start_workers fresh].
    match goal with
    | |- context [start_workers n ?q ?v] => destruct (IH q v) as [Hw [He Hm]]
    end.
    cbn [workers stop_events max_workers] in *.
    rewrite Hw, He, Hm, !length_app. cbn. repeat split; lia.
Qed.

Lemma stop_workers_shrinks (n : nat) :
  forall (p : WorkerPool) (w : World),
  paired p -> (n <= List.length (workers p))%nat ->
  exists p' w',
    stop_workers is_alive n p w = Some (p', w')
    /\ List.length (workers p') = (List.length (workers p) - n)%nat
    /\ paired p'
    /\ max_workers p' = max_workers p.
Proof.
  induction n as [|n IH]; intros p w Hp Hn.
  - exists p, w. cbn. repeat split; try lia; assumption.
  - unfold paired in Hp.
    destruct (pop_nonempty (workers p)) as [worker [ws [Ews Hpw]]].
    { intros E. rewrite E in Hn. cbn in Hn. lia. }
    destruct (pop_nonempty (stop_events p)) as [ev [es [Ees Hpe]]].
    { intros E. rewrite E in Hp. cbn in Hp. lia. }
    cbn [stop_workers]. rewrite Hpe, Hpw.
    rewrite Ews, Ees, !length_app in *. cbn [List.length] in *.
    match goal with
    | |- context [stop_workers is_alive n ?q ?v] =>
        destruct (IH q v) as [p' [w' [Hs [Hl [Hq Hm]]]]]
    end.
    + unfold paired. cbn. lia.
    + cbn. lia.
    + exists p', w'. cbn [workers max_workers] in *.
      split; [exact Hs|]. repeat split; try assumption. lia.
Qed.

(** What a call of [set_worker_count] returns and leaves. *)
Lemma set_worker_count_sized (p : WorkerPool) (w : World) (requested : Z) :
  0 <= max_workers p -> paired p ->
  exists p' w',
    set_worker_count is_alive p w requested
    = Some (Z.min (Z.max 0 requested) (max_workers p), p', w')
    /\ Z.of_nat (List.length (workers p')) = Z.min (Z.max 0 requested) (max_workers p)
    /\ paired p'
    /\ max_workers p' = max_workers p.
Proof.
  intros Hmax Hp. unfold set_worker_count.
  assert (Hclamp : Z.max 0 (Z.min requested (max_workers p))
                   = Z.min (Z.max 0 requested) (max_workers p)) by lia.
  rewrite Hclamp. set (target := Z.min (Z.max 0 requested) (max_workers p)).
  assert (Ht : 0 <= target) by (subst target; lia).
  destruct (Z.ltb_spec (Z.of_nat (List.length (workers p))) target) as [Hlt|Hge].
  - destruct (start_workers_grows (Z.to_nat (target - Z.of_nat (List.length (workers p))))
                p w) as [Hw [He Hm]].
    destruct (start_workers _ p w) as [p' w']. cbn [fst] in *.
    exists p', w'.
    assert (El : Z.of_nat (List.length (workers p')) = target) by lia.
    rewrite El. repeat split; try assumption. unfold paired in *. lia.
  - destruct (Z.ltb_spec target (Z.of_nat (List.length (workers p)))) as [Hgt|Hle].
    + destruct (stop_workers_shrinks
                  (Z.to_nat (Z.of_nat (List.length (workers p)) - target)) p w Hp)
        as [p' [w' [Hs [Hl [Hq Hm]]]]]; [lia|].
      rewrite Hs. exists p', w'.
      assert (El : Z.of_nat (List.length (workers p')) = target) by lia.
      rewrite El. repeat split; assumption.
    + exists p, w.
      assert (El : Z.of_nat (List.length (workers p)) = target) by lia.
      rewrite El. repeat split; assumption.
Qed.

(** At its target a call changes nothing and makes no call. *)
Lemma set_worker_count_at_target (p : WorkerPool) (w : World) (requested : Z) :
  0 <= max_workers p ->
  Z.of_nat (List.length (workers p)) = Z.min (Z.max 0 requested) (max_workers p) ->
  set_worker_count is_alive p w requested
  = Some (Z.min (Z.max 0 requested) (max_workers p), p, w).
Proof.
  intros Hmax Hl. unfold set_worker_count.
  assert (Hclamp : Z.max 0 (Z.min requested (max_workers p))
                   = Z.min (Z.max 0 requested) (max_workers p)) by lia.
  rewrite Hclamp, Hl, Z.ltb_irrefl. reflexivity.
Qed.

End PoolFacts.

(** The calls of [set_worker_count]. *)

Section PoolCallFacts.

Variable is_alive : handle -> bool.

Lemma start_workers_calls (n : nat) :
  forall (p : WorkerPool) (w : World),
  exists started events : list handle,
    workers (fst (start_workers n p w)) = workers p ++ started
    /\ stop_events (fst (start_workers n p w)) = stop_events p ++ events
    /\ calls (snd (start_workers n p w)) = calls w ++ map ProcessStart started
    /\ List.length started = n.
Proof.
  induction n as [|n IH]; intros p w.
  - exists [], []. cbn. rewrite !app_nil_r. repeat split.
  - cbn [start_workers fresh].
    match goal with
    | |- context [start_workers n ?q ?v] =>
        destruct (IH q v) as [started [events [Hw [He [Hc Hl]]]]]
    end.
    cbn [workers stop_events calls next_handle call] in *.
    exists (S (next_handle w) :: started), (next_handle w :: events).
    rewrite Hw, He, Hc, <- !app_assoc. cbn. rewrite Hl. repeat split.
Qed.

Lemma combine_snoc {A B : Type} (l1 : list A) (l2 : list B) (a : A) (b : B) :
  List.length l1 = List.length l2 ->
  combine (l1 ++ [a]) (l2 ++ [b]) = combine l1 l2 ++ [(a, b)].
Proof.
  revert l2. induction l1 as [|x l1 IH]; intros [|y l2] H; try discriminate.
  - reflexivity.
  - cbn. rewrite IH by (cbn in H; lia). reflexivity.
Qed.

Lemma stop_workers_calls (n : nat) :
  forall (p : WorkerPool) (w : World),
  paired p -> (n <= List.length (workers p))%nat ->
  stop_workers is_alive n p w
  = Some ({| max_workers := max_workers p;
             workers := firstn (List.length (workers p) - n) (workers p);
             stop_events := firstn (List.length (workers p) - n) (stop_events p) |},
          {| next_handle := next_handle w;
             calls := calls w
                      ++ flat_map (stop_calls is_alive)
                           (firstn n (rev (combine (stop_events p) (workers p)))) |}).
Proof.
  induction n as [|n IH]; intros p w Hp Hn.
  - cbn [stop_workers firstn flat_map]. rewrite Nat.sub_0_r, app_nil_r.
    unfold paired in Hp. rewrite firstn_all. rewrite <- Hp, firstn_all.
    destruct p, w; reflexivity.
  - unfold paired in Hp.
    destruct (pop_nonempty (workers p)) as [worker [ws [Ews Hpw]]].
    { intros E. rewrite E in Hn. cbn in Hn. lia. }
    destruct (pop_nonempty (stop_events p)) as [ev [es [Ees Hpe]]].
    { intros E. rewrite E in Hp. cbn in Hp. lia. }
    cbn [stop_workers]. rewrite Hpe, Hpw.
    rewrite Ews, Ees, !length_app in *. cbn [List.length] in *.
    rewrite IH; cbn [workers stop_events max_workers];
      [|unfold paired; cbn; lia | lia].
    rewrite join_or_terminate_calls. cbn [call next_handle calls].
    rewrite combine_snoc by lia. rewrite rev_app_distr. cbn [rev app firstn flat_map].
    replace (List.length ws + 1 - S n)%nat with (List.length ws - n)%nat by lia.
    rewrite !firstn_app.
    replace (List.length ws - n - List.length ws)%nat with 0%nat by lia.
    replace (List.length ws - n - List.length es)%nat with 0%nat by lia.
    cbn [firstn]. rewrite !app_nil_r, <- !app_assoc.
    reflexivity.
Qed.

End PoolCallFacts.

(** What a call of [set_worker_count] starts and stops. *)
Lemma set_worker_count_calls :
  forall (is_alive : handle -> bool) (p : WorkerPool) (w : World)
         (requested : Z),
  0 <= max_workers p ->
  paired p ->
  let target := Z.to_nat (Z.min (Z.max 0 requested) (max_workers p)) in
  exists p' w',
    set_worker_count is_alive p w requested = Some (Z.of_nat target, p', w')
    /\ ((List.length (workers p) <= target)%nat ->
        exists started : list handle,
          workers p' = workers p ++ started
          /\ List.length started = (target - List.length (workers p))%nat
          /\ calls w' = calls w ++ map ProcessStart started)
    /\ ((target <= List.length (workers p))%nat ->
        workers p' = firstn target (workers p)
        /\ stop_events p' = firstn target (stop_events p)
        /\ next_handle w' = next_handle w
        /\ calls w'
           = calls w
             ++ flat_map (stop_calls is_alive)
                  (firstn (List.length (workers p) - target)
                     (rev (combine (stop_events p) (workers p))))).
Proof.
  intros is_alive p w requested Hmax Hp target.
  assert (Ht : Z.of_nat target = Z.min (Z.max 0 requested) (max_workers p))
    by (subst target; lia).
  unfold set_worker_count.
  replace (Z.max 0 (Z.min requested (max_workers p))) with (Z.of_nat target) by lia.
  destruct (Z.ltb_spec (Z.of_nat (List.length (workers p))) (Z.of_nat target))
    as [Hlt|Hge].
  - destruct (start_workers_calls
                (Z.to_nat (Z.of_nat target - Z.of_nat (List.length (workers p)))) p w)
      as [started [events [Hw [He [Hc Hl]]]]].
    destruct (start_workers _ p w) as [p' w']. cbn [fst snd] in *.
    exists p', w'. split; [|split].
    + do 3 f_equal. rewrite Hw, length_app, Hl. lia.
    + intros _. exists started. repeat split; [exact Hw | lia | exact Hc].
    + intros H. lia.
  - destruct (Z.ltb_spec (Z.of_nat target) (Z.of_nat (List.length (workers p))))
      as [Hgt|Hle].
    + rewrite (stop_workers_calls is_alive _ p w Hp) by lia.
      replace (List.length (workers p)
               - Z.to_nat (Z.of_nat (List.length (workers p)) - Z.of_nat target))%nat
        with target by lia.
      replace (Z.to_nat (Z.of_nat (List.length (workers p)) - Z.of_nat target))
        with (List.length (workers p) - target)%nat by lia.
      eexists; eexists. split; [|split].
      * cbn [workers]. rewrite length_firstn. do 3 f_equal. lia.
      * intros H. lia.
      * intros _. cbn. repeat split.
    + exists p, w. split; [|split].
      * do 3 f_equal. lia.
      * intros _. exists []. rewrite !app_nil_r. repeat split. cbn [List.length]. lia.
      * intros _. assert (E : List.length (workers p) = target) by lia.
        unfold paired in Hp. rewrite <- E, Nat.sub_diag, firstn_all.
        rewrite <- Hp at 1. rewrite firstn_all. cbn. rewrite app_nil_r.
        repeat split.
Qed.

(** A pool holds one stop event per worker when it is built, and after
    [set_worker_count] and [shutdown]. *)
Lemma pool_paired (is_alive : handle -> bool) (p : WorkerPool) (w : World)
  (requested : Z) :
  (forall n : Z, paired (init n))
  /\ paired (fst (shutdown is_alive p w))
  /\ (paired p ->
      forall r p' w',
      set_worker_count is_alive p w requested = Some (r, p', w') -> paired p').
Proof.
  split; [reflexivity|]. split; [reflexivity|].
  intros Hp r p' w'. unfold set_worker_count.
  destruct (Z.of_nat (List.length (workers p)) <? _).
  - pose proof (start_workers_grows
                  (Z.to_nat (Z.max 0 (Z.min requested (max_workers p))
                             - Z.of_nat (List.length (workers p)))) p w)
      as [Hw [He _]].
    destruct (start_workers _ p w) as [q v]. cbn [fst] in *.
    intros E. injection E as _ <- _. unfold paired in *. lia.
  - destruct (_ <? Z.of_nat (List.length (workers p))) eqn:Hlt.
    + apply Z.ltb_lt in Hlt.
      destruct (stop_workers_shrinks is_alive
                  (Z.to_nat (Z.of_nat (List.length (workers p))
                             - Z.max 0 (Z.min requested (max_workers p))))
                  p w Hp ltac:(lia)) as [q [v [Hs [_ [Hq _]]]]].
      rewrite Hs. intros E. injection E as _ <- _. exact Hq.
    + intros E. injection E as _ <- _. exact Hp.
Qed.

(** C7: on a pool with [max_workers >= 0] (holding one stop event per
    worker, as every pool does), [set_worker_count] returns
    [min(max(0, requested), max_workers)] and leaves that many workers; a
    second call with the same request returns the same, changes nothing and
    makes no call; a call that grows the pool starts the workers it adds
    and makes no other call, and a call that shrinks it keeps the oldest
    workers and stops the others, each by its stop event, a join, and a
    [terminate] if it is alive after the join.  [shutdown] leaves no
    worker, and a second [shutdown] changes nothing and makes no call; what
    it does to get there is to set every stop event of the pool and then to
    join every worker, with a [terminate] for each that is alive after its
    join, and nothing else: every worker of the pool has had its own stop
    event set, has been joined, and has been terminated if it was still
    alive. *)
Theorem C7_worker_pool_sizing :
  forall (is_alive : handle -> bool) (p : WorkerPool) (w : World)
         (requested : Z),
  0 <= max_workers p ->
  paired p ->
  (exists p' w',
     set_worker_count is_alive p w requested
     = Some (Z.min (Z.max 0 requested) (max_workers p), p', w')
     /\ Z.of_nat (List.length (workers p'))
        = Z.min (Z.max 0 requested) (max_workers p)
     /\ set_worker_count is_alive p' w' requested
        = Some (Z.min (Z.max 0 requested) (max_workers p), p', w')
     /\ (Z.of_nat (List.length (workers p))
         <= Z.min (Z.max 0 requested) (max_workers p) ->
         exists started : list handle,
           workers p' = workers p ++ started
           /\ calls w' = calls w ++ map ProcessStart started)
     /\ (Z.min (Z.max 0 requested) (max_workers p)
         <= Z.of_nat (List.length (workers p)) ->
         workers p' = firstn (List.length (workers p')) (workers p)
         /\ calls w'
            = calls w
              ++ flat_map (stop_calls is_alive)
                   (firstn (List.length (workers p) - List.length (workers p'))
                      (rev (combine (stop_events p) (workers p))))))
  /\ workers (fst (shutdown is_alive p w)) = []
  /\ shutdown is_alive (fst (shutdown is_alive p w)) (snd (shutdown is_alive p w))
     = shutdown is_alive p w
  /\ calls (snd (shutdown is_alive p w))
     = calls w ++ map EventSet (stop_events p)
       ++ flat_map (join_calls is_alive) (workers p)
  /\ (forall worker : handle,
        In worker (workers p) ->
        exists event : handle,
          In (event, worker) (combine (stop_events p) (workers p))
          /\ In (EventSet event) (calls (snd (shutdown is_alive p w)))
          /\ In (ProcessJoin worker) (calls (snd (shutdown is_alive p w)))
          /\ (is_alive worker = true ->
              In (ProcessTerminate worker) (calls (snd (shutdown is_alive p w))))).
Proof.
  intros is_alive p w requested Hmax Hp. split.
  - destruct (set_worker_count_sized is_alive p w requested Hmax Hp)
      as [p' [w' [Hs [Hl [Hq Hm]]]]].
    exists p', w'. split; [exact Hs|]. split; [exact Hl|].
    split; [rewrite <- Hm in *; apply set_worker_count_at_target; assumption|].
    destruct (set_worker_count_calls is_alive p w requested Hmax Hp)
      as [q [v [Hc [Hgrow Hshrink]]]].
    rewrite Hs in Hc. injection Hc as _ <- <-.
    assert (Et : Z.to_nat (Z.min (Z.max 0 requested) (max_workers p))
                 = List.length (workers p')) by lia.
    rewrite Et in Hgrow, Hshrink. split.
    + intros Hle. destruct Hgrow as [started [Hw [_ Hcalls]]]; [lia|].
      exists started. split; assumption.
    + intros Hge. destruct Hshrink as [Hw [_ [_ Hcalls]]]; [lia|].
      split; assumption.
  - split; [reflexivity|]. split; [reflexivity|].
    rewrite shutdown_calls. cbn [snd calls]. split; [reflexivity|].
    intros worker Hin.
    destruct (paired_event p worker Hp Hin) as [event He].
    exists event. split; [exact He|].
    assert (Hj : In (ProcessJoin worker)
                   (flat_map (join_calls is_alive) (workers p))
                 /\ (is_alive worker = true ->
                     In (ProcessTerminate worker)
                       (flat_map (join_calls is_alive) (workers p)))).
    { split; [|intros Ha]; apply in_flat_map; exists worker;
        (split; [exact Hin|]); unfold join_calls.
      - left. reflexivity.
      - rewrite Ha. right. left. reflexivity. }
    split; [|split].
    + apply in_or_app. right. apply in_or_app. left.
      apply in_map. exact (in_combine_l _ _ _ _ He).
    + apply in_or_app. right. apply in_or_app. right. exact (proj1 Hj).
    + intros Ha. apply in_or_app. right. apply in_or_app. right.
      exact (proj2 Hj Ha).
Qed.

Lemma C7_worker_pool_sizing_witness :
  set_worker_count (fun _ => false) (init 4) {| next_handle := 0%nat; calls := [] |} 9
  = Some (4,
          {| max_workers := 4; workers := [1; 3; 5; 7]%nat;
             stop_events := [0; 2; 4; 6]%nat |},
          {| next_handle := 8%nat;
             calls := [ProcessStart 1%nat; ProcessStart 3%nat; ProcessStart 5%nat;
                       ProcessStart 7%nat] |})
  /\ shutdown (fun h => Nat.eqb h 5)
       {| max_workers := 4; workers := [1; 3; 5; 7]%nat;
          stop_events := [0; 2; 4; 6]%nat |}
       {| next_handle := 8%nat; calls := [] |}
     = ({| max_workers := 4; workers := []; stop_events := [] |},
        {| next_handle := 8%nat;
           calls := [EventSet 0%nat; EventSet 2%nat; EventSet 4%nat;
                     EventSet 6%nat; ProcessJoin 1%nat; ProcessJoin 3%nat;
                     ProcessJoin 5%nat; ProcessTerminate 5%nat;
                     ProcessJoin 7%nat] |})
  /\ calls (snd (shutdown (fun h => Nat.eqb h 5)
                   {| max_workers := 4; workers := [1; 3; 5; 7]%nat;
                      stop_events := [0; 2; 4; 6]%nat |}
                   {| next_handle := 8%nat; calls := [] |}))
     = [] ++ map EventSet [0; 2; 4; 6]%nat
       ++ flat_map (join_calls (fun h => Nat.eqb h 5)) [1; 3; 5; 7]%nat.
Proof.
  split; [reflexivity|]. split; [reflexivity|].
  refine (proj1 (proj2 (proj2 (proj2 (C7_worker_pool_sizing (fun h => Nat.eqb h 5)
            {| max_workers := 4; workers := [1; 3; 5; 7]%nat;
               stop_events := [0; 2; 4; 6]%nat |}
            {| next_handle := 8%nat; calls := [] |} 2 _ eq_refl))))).
  cbn. lia.
Defined.

(** ** The battery percentage *)

Lemma py_lt_le (a b : float) : Py.lt a b = true -> Py.le a b = true.
Proof. unfold Py.lt, Py.le. rewrite ltb_spec, leb_spec. apply SFltb_SFleb. Qed.

(** A float is at most itself unless it is a NaN; what is compared is none. *)
Lemma py_le_not_nan (a b : float) :
  Py.le a b = true -> Py.le a a = true /\ Py.le b b = true.
Proof.
  unfold Py.le. rewrite !leb_spec. intros H.
  split; apply SFleb_refl; intros E; rewrite E in H;
    [|destruct (Prim2SF a) as [[]|[]| |[] ? ?]]; discriminate.
Qed.

Lemma py_le_total (a b : float) :
  Py.le a a = true -> Py.le b b = true -> Py.lt b a = false -> Py.le a b = true.
Proof.
  unfold Py.le, Py.lt. rewrite !leb_spec, ltb_spec. intros Ha Hb.
  apply SFleb_total; intros E; [rewrite E in Ha | rewrite E in Hb]; discriminate.
Qed.

Lemma py_min_monotone (k x y : float) :
  Py.le k k = true -> Py.le x y = true ->
  Py.le (Py.min k x) (Py.min k y) = true.
Proof.
  intros Hk Hxy. destruct (py_le_not_nan x y Hxy) as [Hx Hy]. unfold Py.min.
  destruct (Py.lt x k) eqn:Lx, (Py.lt y k) eqn:Ly.
  - exact Hxy.
  - apply py_lt_le. exact Lx.
  - pose proof (py_le_total k x Hk Hx Lx) as Hkx.
    pose proof (py_le_trans k x y Hkx Hxy) as Hky.
    apply py_lt_not_ge in Ly. unfold Py.ge in Ly. unfold Py.le in Hky. congruence.
  - exact Hk.
Qed.

Lemma py_max_monotone (k x y : float) :
  Py.le k k = true -> Py.le x y = true ->
  Py.le (Py.max k x) (Py.max k y) = true.
Proof.
  intros Hk Hxy. destruct (py_le_not_nan x y Hxy) as [Hx Hy]. unfold Py.max.
  destruct (Py.gt x k) eqn:Lx, (Py.gt y k) eqn:Ly.
  - exact Hxy.
  - pose proof (py_le_total y k Hy Hk Ly) as Hyk.
    pose proof (py_le_trans x y k Hxy Hyk) as Hxk.
    apply py_gt_not_le in Lx. congruence.
  - apply py_lt_le. exact Ly.
  - exact Hk.
Qed.

(** The clamp of any float, a NaN included, is between 0 and 100. *)
Lemma clamp_range (x : float) :
  Py.le 0 (Py.max 0 (Py.min 100 x)) = true
  /\ Py.le (Py.max 0 (Py.min 100 x)) 100 = true.
Proof.
  unfold Py.max. destruct (Py.gt (Py.min 100 x) 0) eqn:G.
  - split; [apply py_lt_le; exact G|].
    unfold Py.min. destruct (Py.lt x 100) eqn:L.
    + apply py_lt_le. exact L.
    + reflexivity.
  - split; reflexivity.
Qed.

(** The interpolation between two positive constants, clamped, is monotone. *)
Lemma interpolation_monotone (empty range : float) (m1 m2 : positive) (e1 e2 : Z) :
  Prim2SF empty = S754_finite false m1 e1 ->
  Prim2SF range = S754_finite false m2 e2 ->
  forall v1 v2 : float,
  Py.le v1 v2 = true ->
  Py.le (Py.max 0 (Py.min 100 ((v1 - empty) / range * 100)%float))
        (Py.max 0 (Py.min 100 ((v2 - empty) / range * 100)%float)) = true.
Proof.
  intros E1 E2 v1 v2 H.
  apply py_max_monotone; [reflexivity|].
  apply py_min_monotone; [reflexivity|].
  apply (mul_monotone 100 7036874417766400 (-46)); [reflexivity | reflexivity |].
  apply (div_monotone range m2 e2 E2).
  apply (sub_monotone empty m1 e1 E1).
  exact H.
Qed.

Lemma ina_percent_monotone (c : Z) (v1 v2 p1 p2 : float) :
  1 <= c <= 6 ->
  Py.le v1 v2 = true ->
  Ina219.calculate_battery_percent v1 c = Some p1 ->
  Ina219.calculate_battery_percent v2 c = Some p2 ->
  Py.le p1 p2 = true.
Proof.
  intros Hc H. rewrite !ina_percent_cells by exact Hc.
  intros E1 E2. injection E1 as <-. injection E2 as <-.
  assert (E : c = 1 \/ c = 2 \/ c = 3 \/ c = 4 \/ c = 5 \/ c = 6) by lia.
  destruct E as [-> | [-> | [-> | [-> | [-> | ->]]]]];
    (eapply interpolation_monotone; [vm_compute; reflexivity .. | exact H]).
Qed.

Lemma ina_percent_ends (c : Z) :
  1 <= c <= 6 ->
  Ina219.calculate_battery_percent
    (Ina219.CELL_VOLTAGE_EMPTY * Py.float_of_int c)%float c = Some 0%float
  /\ Ina219.calculate_battery_percent
       (Ina219.CELL_VOLTAGE_FULL * Py.float_of_int c)%float c = Some 100%float.
Proof.
  intros Hc.
  assert (E : c = 1 \/ c = 2 \/ c = 3 \/ c = 4 \/ c = 5 \/ c = 6) by lia.
  destruct E as [-> | [-> | [-> | [-> | [-> | ->]]]]]; split; reflexivity.
Qed.

(** C5, as the code has it: the benchmark's function is the monitor's; for
    a cell count from 1 to 6 the percentage is defined for every float,
    lies between 0 and 100, does not decrease when the voltage grows, is 0
    at the float [3.0 * c] and 100 at the float [4.2 * c]; on 3 cells it is
    0 at 9.0 and at 8.0, 50 at 10.8, 100 at 13.0 and at the float
    [4.2 * 3], which is 12.600000000000001, and 99.999999999999957 at the
    float 12.6. *)
Theorem C5_battery_percent :
  (forall (v : float) (c : Z),
     UpsBenchmark.calculate_battery_percent v c
     = Ina219.calculate_battery_percent v c)
  /\ (forall c : Z, 1 <= c <= 6 ->
      (forall v : float, exists p : float,
         Ina219.calculate_battery_percent v c = Some p
         /\ Py.le 0 p = true /\ Py.le p 100 = true)
      /\ (forall v1 v2 p1 p2 : float,
            Py.le v1 v2 = true ->
            Ina219.calculate_battery_percent v1 c = Some p1 ->
            Ina219.calculate_battery_percent v2 c = Some p2 ->
            Py.le p1 p2 = true)
      /\ Ina219.calculate_battery_percent
           (Ina219.CELL_VOLTAGE_EMPTY * Py.float_of_int c)%float c = Some 0%float
      /\ Ina219.calculate_battery_percent
           (Ina219.CELL_VOLTAGE_FULL * Py.float_of_int c)%float c = Some 100%float)
  /\ (Ina219.CELL_VOLTAGE_FULL * Py.float_of_int 3)%float = 12.600000000000001%float
  /\ Ina219.calculate_battery_percent 12.600000000000001 3 = Some 100%float
  /\ Ina219.calculate_battery_percent 12.6 3 = Some 99.999999999999957%float
  /\ Ina219.calculate_battery_percent 9.0 3 = Some 0%float
  /\ Ina219.calculate_battery_percent 10.8 3 = Some 50%float
  /\ Ina219.calculate_battery_percent 13.0 3 = Some 100%float
  /\ Ina219.calculate_battery_percent 8.0 3 = Some 0%float.
Proof.
  split; [reflexivity|]. split; [|repeat split; reflexivity].
  intros c Hc. split; [|split].
  - intros v. rewrite ina_percent_cells by exact Hc.
    eexists. split; [reflexivity|]. apply clamp_range.
  - intros v1 v2 p1 p2. apply ina_percent_monotone. exact Hc.
  - apply ina_percent_ends. exact Hc.
Qed.

Lemma C5_battery_percent_witness :
  (exists p : float,
     Ina219.calculate_battery_percent nan 3 = Some p
     /\ Py.le 0 p = true /\ Py.le p 100 = true)
  /\ Py.le 9.3 11.1 = true
  /\ Ina219.calculate_battery_percent 9.3 3 = Some 8.3333333333333499%float
  /\ Ina219.calculate_battery_percent 11.1 3 = Some 58.3333333333333%float
  /\ Py.le 8.3333333333333499 58.3333333333333 = true.
Proof.
  pose proof (proj1 (proj2 C5_battery_percent) 3 ltac:(lia)) as H.
  split; [exact (proj1 H nan)|].
  split; [reflexivity|]. split; [reflexivity|]. split; [reflexivity|].
  exact (proj1 (proj2 H) 9.3%float 11.1%float _ _ eq_refl eq_refl eq_refl).
Defined.

(** C5 as stated fails at the float 12.6, which is below the float
    [4.2 * 3]: the percentage there is not 100. *)
Lemma C5_full_voltage_counterexample :
  Ina219.calculate_battery_percent 12.6 3 = Some 99.999999999999957%float
  /\ Ina219.calculate_battery_percent 12.6 3 <> Some 100%float
  /\ PrimFloat.ltb 12.6 (Ina219.CELL_VOLTAGE_FULL * Py.float_of_int 3) = true.
Proof.
  split; [reflexivity|]. split; [|reflexivity].
  intros H. apply (f_equal (fun o => match o with
                                     | Some p => PrimFloat.ltb p 100
                                     | None => false
                                     end)) in H.
  vm_compute in H. discriminate.
Qed.

(** * More of the monitors *)

(** ** Every iteration, by cases *)

Lemma iteration_evaluated_command (k : Kind) (cfg : Config k) (st : LoopState)
  (i : Input k) (q : float) :
  quantity k cfg i = Some q ->
  iteration k cfg st i
  = if discharging k i && at_or_beyond k q (shutdown_threshold k cfg)
    then shutdown_path {| consecutive_failures := 0;
                          warning_logged := warning_logged st |} (command k i)
    else evaluated
           (fst (warn_path (discharging k i
                            && at_or_beyond k q (warning_threshold k cfg))
                   (warning_logged st)))
           (snd (warn_path (discharging k i
                            && at_or_beyond k q (warning_threshold k cfg))
                   (warning_logged st))).
Proof.
  destruct k; cbn [quantity iteration discharging at_or_beyond command
                   shutdown_threshold warning_threshold]; intros Hq.
  - unfold Pct2075.iteration, Pct2075.evaluate.
    rewrite Hq. cbn [andb].
    destruct (Py.ge q (Pct2075.shutdown_temp cfg)); [reflexivity|].
    destruct (Py.ge q (Pct2075.warning_temp cfg)), (warning_logged st); reflexivity.
  - unfold Mcp9601.iteration, Mcp9601.evaluate.
    destruct (Mcp9601.reading i) as [r|]; [|discriminate].
    injection Hq as <-. cbn [andb].
    destruct (Py.ge (Mcp9601.hot_temp r) (Mcp9601.shutdown_temp cfg)); [reflexivity|].
    destruct (Py.ge (Mcp9601.hot_temp r) (Mcp9601.warning_temp cfg)),
      (warning_logged st); reflexivity.
  - unfold Ina219.iteration, Ina219.evaluate.
    destruct (Ina219.reading i) as [r|]; [|discriminate].
    rewrite Hq.
    destruct (negb (Ina219.is_charging r) && Py.le q (Ina219.shutdown_percent cfg));
      [reflexivity|].
    destruct (negb (Ina219.is_charging r) && Py.le q (Ina219.warning_percent cfg)),
      (warning_logged st); reflexivity.
Qed.

(** Without a quantity the iteration is the failure path. *)
Lemma iteration_no_quantity (k : Kind) (cfg : Config k) (st : LoopState)
  (i : Input k) :
  quantity k cfg i = None -> iteration k cfg st i = on_failure st.
Proof.
  destruct k; cbn [quantity iteration]; intros Hq.
  - unfold Pct2075.iteration. rewrite Hq. reflexivity.
  - unfold Mcp9601.iteration.
    destruct (Mcp9601.reading i); [discriminate | reflexivity].
  - unfold Ina219.iteration.
    destruct (Ina219.reading i); [rewrite Hq|]; reflexivity.
Qed.

Lemma on_failure_cases (st : LoopState) :
  on_failure st
  = if 4 <=? consecutive_failures st
    then ([ReadError (consecutive_failures st + 1); CriticalFailure],
          Continue {| consecutive_failures := 0;
                      warning_logged := warning_logged st |})
    else ([ReadError (consecutive_failures st + 1)],
          Continue {| consecutive_failures := consecutive_failures st + 1;
                      warning_logged := warning_logged st |}).
Proof.
  unfold on_failure, MAX_CONSECUTIVE_FAILURES.
  destruct (Z.leb_spec 5 (consecutive_failures st + 1)),
    (Z.leb_spec 4 (consecutive_failures st)); try reflexivity; lia.
Qed.

Lemma on_failure_keeps (st : LoopState) :
  actions (fst (on_failure st)) = []
  /\ exists st', snd (on_failure st) = Continue st'
                 /\ warning_logged st' = warning_logged st
                 /\ (0 <= consecutive_failures st <= 4 ->
                     0 <= consecutive_failures st' <= 4).
Proof.
  rewrite on_failure_cases.
  destruct (Z.leb_spec 4 (consecutive_failures st)); cbn [fst snd];
    (split; [reflexivity|]); eexists; (split; [reflexivity|]);
    cbn [warning_logged consecutive_failures]; (split; [reflexivity | lia]).
Qed.

(** One turn of a loop: where it leaves the flag and the counter, and how
    it can end the process. *)
Lemma iteration_step (k : Kind) (cfg : Config k) (st : LoopState) (i : Input k) :
  (exists b, replay (warning_logged st) (actions (fst (iteration k cfg st i))) = Some b
             /\ forall st', snd (iteration k cfg st i) = Continue st' ->
                            warning_logged st' = b
                            /\ (0 <= consecutive_failures st <= 4 ->
                                0 <= consecutive_failures st' <= 4))
  /\ (forall c, snd (iteration k cfg st i) = Exited c ->
                c = 1 /\ last (actions (fst (iteration k cfg st i))) NoAction = Shutdown).
Proof.
  destruct (quantity k cfg i) as [q|] eqn:Hq.
  - rewrite (iteration_evaluated_command k cfg st i q Hq).
    destruct (discharging k i && at_or_beyond k q (shutdown_threshold k cfg)).
    + destruct (command k i); cbn [shutdown_path].
      * split; [|intros c E; injection E as <-; split; reflexivity].
        exists (warning_logged st). split; [reflexivity|]. discriminate.
      * split; [|intros c E; injection E as <-; split; reflexivity].
        exists (warning_logged st). split; [reflexivity|]. discriminate.
      * destruct (on_failure_keeps {| consecutive_failures := 0;
                                      warning_logged := warning_logged st |})
          as [Ha [st1 [Hs [Hw Hb]]]].
        destruct (on_failure _) as [evs nx]. cbn [fst snd] in *. subst nx.
        split; [|discriminate].
        exists (warning_logged st). cbn [actions flat_map app].
        change (flat_map _ evs) with (actions evs). rewrite Ha.
        split; [reflexivity|]. intros st' E. injection E as <-.
        cbn in Hw, Hb. split; [exact Hw|]. intros _. apply Hb. lia.
    + unfold evaluated. cbn [fst snd]. split; [|discriminate].
      destruct (discharging k i && at_or_beyond k q (warning_threshold k cfg)),
        (warning_logged st); cbn; eexists; (split; [reflexivity|]);
        intros st' E; injection E as <-; cbn; (split; [reflexivity | lia]).
  - rewrite (iteration_no_quantity k cfg st i Hq).
    destruct (on_failure_keeps st) as [Ha [st1 [Hs [Hw Hb]]]].
    rewrite Ha, Hs. split; [|discriminate].
    exists (warning_logged st). split; [reflexivity|].
    intros st' E. injection E as <-. split; assumption.
Qed.

Lemma replay_app (b : bool) (l1 l2 : list Action) :
  replay b (l1 ++ l2)
  = match replay b l1 with Some b' => replay b' l2 | None => None end.
Proof.
  revert b. induction l1 as [|a l1 IH]; intros b; [reflexivity|].
  destruct a, b; cbn; try apply IH; reflexivity.
Qed.

Lemma last_app_cons {A : Type} (l1 : list A) (a : A) (l2 : list A) (d : A) :
  last (l1 ++ a :: l2) d = last (a :: l2) d.
Proof.
  induction l1 as [|x l1 IH]; [reflexivity|].
  cbn [app]. change (last (x :: l1 ++ a :: l2) d)
    with (match l1 ++ a :: l2 with [] => x | _ :: _ => last (l1 ++ a :: l2) d end).
  destruct (l1 ++ a :: l2) eqn:E; [destruct l1; discriminate | exact IH].
Qed.

(** What holds of every run: the flag replays, the counter stays below the
    ceiling, the exit code is 1 and follows a shutdown. *)
Lemma loop_invariants (k : Kind) (cfg : Config k) (inputs : list (Input k)) :
  forall st : LoopState,
  (exists b, replay (warning_logged st) (actions (fst (loop k cfg st inputs))) = Some b
             /\ forall st', snd (loop k cfg st inputs) = Continue st' ->
                            warning_logged st' = b
                            /\ (0 <= consecutive_failures st <= 4 ->
                                0 <= consecutive_failures st' <= 4))
  /\ (forall c, snd (loop k cfg st inputs) = Exited c ->
                c = 1 /\ last (actions (fst (loop k cfg st inputs))) NoAction = Shutdown).
Proof.
  induction inputs as [|i rest IH]; intros st.
  - cbn. split; [|discriminate]. exists (warning_logged st).
    split; [reflexivity|]. intros st' E. injection E as <-.
    split; [reflexivity | exact (fun H => H)].
  - rewrite loop_cons.
    destruct (iteration_step k cfg st i) as [[b [Hr Hn]] Hx].
    destruct (iteration k cfg st i) as [evs [st1|code]]; cbn [fst snd] in *.
    + destruct (Hn st1 eq_refl) as [Hw Hb]. subst b.
      destruct (IH st1) as [[b' [Hr' Hn']] Hx'].
      destruct (loop k cfg st1 rest) as [evs' nx']. cbn [fst snd] in *.
      rewrite actions_app, replay_app, Hr. split.
      * exists b'. split; [exact Hr'|]. intros st' E.
        destruct (Hn' st' E) as [Hw' Hb']. split; [exact Hw'|].
        intros H. apply Hb', Hb, H.
      * intros c E. destruct (Hx' c E) as [-> Hl]. split; [reflexivity|].
        destruct (actions evs') as [|a l] eqn:Ea; [discriminate|].
        rewrite last_app_cons. exact Hl.
    + split; [exists b; split; [exact Hr | discriminate]|].
      exact Hx.
Qed.

(** ** What every run keeps *)

(** X1: the failure counter never reaches the ceiling between two turns of
    a loop: below 5 (and not negative) before a run, it is so after it. *)
Theorem failure_counter_below_ceiling :
  forall (k : Kind) (cfg : Config k) (st st' : LoopState)
         (inputs : list (Input k)),
  0 <= consecutive_failures st < MAX_CONSECUTIVE_FAILURES ->
  snd (loop k cfg st inputs) = Continue st' ->
  0 <= consecutive_failures st' < MAX_CONSECUTIVE_FAILURES.
Proof.
  unfold MAX_CONSECUTIVE_FAILURES. intros k cfg st st' inputs Hc E.
  destruct (loop_invariants k cfg inputs st) as [[b [_ Hn]] _].
  destruct (Hn st' E) as [_ Hb]. specialize (Hb ltac:(lia)). lia.
Qed.

Lemma failure_counter_below_ceiling_witness :
  snd (Kinds.loop Battery (Scenario.ina_config 65 10) initial
         (repeat {| Ina219.reading := None; Ina219.cmd := CmdOk |} 7
          ++ [Scenario.ina_read 9.504 0 (-500) CmdOk;
              {| Ina219.reading := None; Ina219.cmd := CmdOk |}]))
  = Continue {| consecutive_failures := 1; warning_logged := true |}
  /\ 0 <= consecutive_failures
            {| consecutive_failures := 1; warning_logged := true |}
       < MAX_CONSECUTIVE_FAILURES.
Proof.
  split; [reflexivity|].
  exact (failure_counter_below_ceiling Battery (Scenario.ina_config 65 10)
           initial {| consecutive_failures := 1; warning_logged := true |}
           (repeat {| Ina219.reading := None; Ina219.cmd := CmdOk |} 7
            ++ [Scenario.ina_read 9.504 0 (-500) CmdOk;
                {| Ina219.reading := None; Ina219.cmd := CmdOk |}])
           ltac:(unfold MAX_CONSECUTIVE_FAILURES, initial; cbn; lia) eq_refl).
Defined.

Lemma criticals_app (x y : list Event) :
  criticals (x ++ y) = (criticals x + criticals y)%nat.
Proof. unfold criticals. rewrite filter_app, length_app. reflexivity. Qed.

(** X2: a run of [n] failed reads, from a counter [c] below the ceiling,
    escalates once for every fifth failure: [(c + n) / 5] times in all; it
    evaluates nothing, keeps the warning flag and leaves the counter at
    [(c + n) mod 5]. *)
Theorem failures_escalate_every_fifth :
  forall (k : Kind) (cfg : Config k) (st : LoopState)
         (inputs : list (Input k)),
  0 <= consecutive_failures st <= 4 ->
  forallb (read_failed k) inputs = true ->
  Z.of_nat (criticals (fst (loop k cfg st inputs)))
  = (consecutive_failures st + Z.of_nat (List.length inputs)) / 5
  /\ actions (fst (loop k cfg st inputs)) = []
  /\ snd (loop k cfg st inputs)
     = Continue {| consecutive_failures :=
                     (consecutive_failures st + Z.of_nat (List.length inputs)) mod 5;
                   warning_logged := warning_logged st |}.
Proof.
  intros k cfg st inputs. revert st.
  induction inputs as [|i rest IH]; intros [c warned] Hc Hall;
    cbn [consecutive_failures warning_logged] in *.
  - cbn [loop run fst snd List.length criticals filter actions flat_map].
    rewrite Z.add_0_r, Z.div_small, Z.mod_small by lia. repeat split.
  - cbn [forallb] in Hall. apply andb_prop in Hall. destruct Hall as [Hi Hrest].
    rewrite loop_cons, (iteration_read_failed k cfg _ i Hi), on_failure_cases.
    cbn [consecutive_failures warning_logged List.length].
    rewrite Nat2Z.inj_succ.
    destruct (Z.leb_spec 4 c).
    + specialize (IH {| consecutive_failures := 0; warning_logged := warned |}
                    ltac:(cbn; lia) Hrest).
      cbn [consecutive_failures warning_logged] in IH.
      destruct IH as [IH1 [IH2 IH3]].
      destruct (loop k cfg _ rest) as [evs nx]. cbn [fst snd] in *.
      rewrite criticals_app, actions_app, IH2, IH3, Nat2Z.inj_add, IH1.
      assert (c = 4) by lia. subst c.
      change (Z.of_nat (criticals [ReadError (4 + 1); CriticalFailure])) with 1.
      repeat split; [|do 2 f_equal];
        pose proof (Z.div_mod (0 + Z.of_nat (List.length rest)) 5 ltac:(lia));
        pose proof (Z.mod_pos_bound (0 + Z.of_nat (List.length rest)) 5 ltac:(lia));
        pose proof (Z.div_mod (4 + Z.succ (Z.of_nat (List.length rest))) 5 ltac:(lia));
        pose proof (Z.mod_pos_bound (4 + Z.succ (Z.of_nat (List.length rest))) 5 ltac:(lia));
        lia.
    + specialize (IH {| consecutive_failures := c + 1; warning_logged := warned |}
                    ltac:(cbn; lia) Hrest).
      cbn [consecutive_failures warning_logged] in IH.
      destruct IH as [IH1 [IH2 IH3]].
      destruct (loop k cfg _ rest) as [evs nx]. cbn [fst snd] in *.
      rewrite criticals_app, actions_app, IH2, IH3, Nat2Z.inj_add, IH1.
      change (Z.of_nat (criticals [ReadError (c + 1)])) with 0.
      replace (c + 1 + Z.of_nat (List.length rest))
        with (c + Z.succ (Z.of_nat (List.length rest))) by lia.
      repeat split.
Qed.

Lemma failures_escalate_every_fifth_witness :
  criticals (fst (Kinds.loop Thermocouple (Scenario.mcp_config 103 5 "K") initial
                    (repeat {| Mcp9601.reading := None; Mcp9601.cmd := CmdOk |} 12)))
  = 2%nat
  /\ snd (Kinds.loop Thermocouple (Scenario.mcp_config 103 5 "K") initial
            (repeat {| Mcp9601.reading := None; Mcp9601.cmd := CmdOk |} 12))
     = Continue {| consecutive_failures := 2; warning_logged := false |}.
Proof.
  split; [reflexivity|].
  exact (proj2 (proj2 (failures_escalate_every_fifth Thermocouple
           (Scenario.mcp_config 103 5 "K") initial
           (repeat {| Mcp9601.reading := None; Mcp9601.cmd := CmdOk |} 12)
           ltac:(unfold initial; cbn; lia) eq_refl))).
Defined.

(** X3: over any run of any monitor, from any state, a warning is raised
    only while none is active and cleared only while one is, so that raised
    and cleared warnings alternate; and the flag the run leaves is the one
    its actions replay to. *)
Theorem warnings_alternate :
  forall (k : Kind) (cfg : Config k) (st : LoopState)
         (inputs : list (Input k)),
  exists b : bool,
    replay (warning_logged st) (actions (fst (loop k cfg st inputs))) = Some b
    /\ forall st', snd (loop k cfg st inputs) = Continue st' ->
                   warning_logged st' = b.
Proof.
  intros k cfg st inputs.
  destruct (loop_invariants k cfg inputs st) as [[b [Hr Hn]] _].
  exists b. split; [exact Hr|]. intros st' E. exact (proj1 (Hn st' E)).
Qed.

(** X4: a monitoring loop ends the process with exit code 1 only, and only
    on a shutdown, which is then its last action; and whatever ends [main],
    a start-up error included, the exit code is 1. *)
Theorem exit_code_is_one :
  forall (k : Kind),
  (forall (cfg : Config k) (st : LoopState) (inputs : list (Input k)) (c : Z),
     snd (loop k cfg st inputs) = Exited c ->
     c = 1 /\ last (actions (fst (loop k cfg st inputs))) NoAction = Shutdown)
  /\ (forall (B : Builtins) (env : Env (Input k)) (c : Z),
        snd (main k B env) = Exited c -> c = 1).
Proof.
  intros k. split.
  - intros cfg st inputs c E.
    exact (proj2 (loop_invariants k cfg inputs st) c E).
  - intros B env c.
    assert (H : main k B env = start_loop (loop k) env (configure k B (config_file env)))
      by (destruct k; reflexivity).
    rewrite H. unfold start_loop.
    destruct (configure k B (config_file env)) as [e|cfg].
    + cbn. intros E. injection E as <-. reflexivity.
    + destruct (sensor_init env).
      * pose proof (proj2 (loop_invariants k cfg (inputs env) initial) c) as Hx.
        destruct (loop k cfg initial (inputs env)) as [evs nx]. cbn [snd] in *.
        intros E. exact (proj1 (Hx E)).
      * cbn. intros E. injection E as <-. reflexivity.
Qed.

Lemma exit_code_is_one_witness :
  Kinds.loop Temperature (Scenario.pct_config 55 5) initial
    [Scenario.pct_read 75 CmdOk; Scenario.pct_read 85 CmdOtherException;
     Scenario.pct_read 85 CmdCalledProcessError; Scenario.pct_read 20 CmdOk]
  = ([Act WarnRaised; Act Shutdown; ReadError 1; Act Shutdown; ShutdownCmdFailed],
     Exited 1)
  /\ last (actions (fst (Kinds.loop Temperature (Scenario.pct_config 55 5) initial
        [Scenario.pct_read 75 CmdOk; Scenario.pct_read 85 CmdOtherException;
         Scenario.pct_read 85 CmdCalledProcessError; Scenario.pct_read 20 CmdOk])))
       NoAction
     = Shutdown.
Proof.
  split; [reflexivity|].
  exact (proj2 (proj1 (exit_code_is_one Temperature) (Scenario.pct_config 55 5)
           initial
           [Scenario.pct_read 75 CmdOk; Scenario.pct_read 85 CmdOtherException;
            Scenario.pct_read 85 CmdCalledProcessError; Scenario.pct_read 20 CmdOk]
           1 eq_refl)).
Defined.

(** ** The shutdown reading *)

(** X5: a reading at or beyond the shutdown threshold, taken while
    discharging, always runs the shutdown command, whatever the warning flag
    and with no warning raised; the process then exits with code 1, unless
    the command raised something other than [CalledProcessError]: then the
    loop goes on, the failure counter at 1 and the flag as it was. *)
Theorem shutdown_reading_is_decisive :
  forall (k : Kind) (cfg : Config k) (st : LoopState) (i : Input k) (q : float),
  quantity k cfg i = Some q ->
  discharging k i = true ->
  at_or_beyond k q (shutdown_threshold k cfg) = true ->
  actions (fst (iteration k cfg st i)) = [Shutdown]
  /\ (command k i <> CmdOtherException ->
      snd (iteration k cfg st i) = Exited 1)
  /\ (command k i = CmdOtherException ->
      iteration k cfg st i
      = ([Act Shutdown; ReadError 1],
         Continue {| consecutive_failures := 1;
                     warning_logged := warning_logged st |})).
Proof.
  intros k cfg st i q Hq Hd Hs.
  rewrite (iteration_evaluated_command k cfg st i q Hq), Hd, Hs. cbn [andb].
  destruct (command k i); cbn; repeat split; try reflexivity;
    intros H; try discriminate; congruence.
Qed.

Lemma shutdown_reading_is_decisive_witness :
  Kinds.iteration Battery (Scenario.ina_config 65 10)
    {| consecutive_failures := 3; warning_logged := false |}
    (Scenario.ina_read 9.1 0.001 (-120) CmdOtherException)
  = ([Act Shutdown; ReadError 1],
     Continue {| consecutive_failures := 1; warning_logged := false |})
  /\ Ina219.calculate_battery_percent (9.1 + 0.001) 3
     = Some 2.8055555555555292%float.
Proof.
  split; [|reflexivity].
  exact (proj2 (proj2 (shutdown_reading_is_decisive Battery
           (Scenario.ina_config 65 10)
           {| consecutive_failures := 3; warning_logged := false |}
           (Scenario.ina_read 9.1 0.001 (-120) CmdOtherException)
           2.8055555555555292%float eq_refl eq_refl eq_refl)) eq_refl).
Defined.

(** ** What [main] lets through *)

Ltac bind_cases H :=
  repeat match type of H with
  | context [bind ?m _] =>
      let e := fresh "e" in
      destruct m as [e|?] eqn:?; cbn [bind] in H; [discriminate|]
  end.

Lemma configure_accepted (k : Kind) (B : Builtins) (file : ConfigFile)
  (cfg : Config k) :
  configure k B file = inr cfg -> accepted k cfg.
Proof.
  destruct k; cbn [configure accepted Kinds.Config]; intros H.
  - unfold Pct2075.configure in H. bind_cases H.
    destruct (Py.ge _ _) eqn:Hord; [discriminate|].
    injection H as <-. exact Hord.
  - unfold Mcp9601.configure in H. bind_cases H.
    destruct (Py.ge _ _) eqn:Hord; [discriminate|].
    destruct (existsb _ _) eqn:Htc; [|discriminate].
    injection H as <-. cbn [Mcp9601.warning_temp Mcp9601.shutdown_temp
                             Mcp9601.thermocouple_type].
    split; [exact Hord|].
    apply existsb_exists in Htc. destruct Htc as [x [Hin Hx]].
    apply String.eqb_eq in Hx. subst x. exact Hin.
  - unfold Ina219.configure in H. bind_cases H.
    destruct (Py.le _ _) eqn:Hord; [discriminate|].
    destruct ((1 <=? _) && (_ <=? Ina219.MAX_CELL_COUNT)) eqn:Hcells; [|discriminate].
    injection H as <-. cbn [Ina219.warning_percent Ina219.shutdown_percent
                             Ina219.cell_count].
    split; [exact Hord|].
    apply andb_prop in Hcells. destruct Hcells as [H1 H2].
    apply Z.leb_le in H1, H2. lia.
Qed.

(** A float that is no NaN is at most itself. *)
Lemma py_le_number (x : float) : PrimFloat.is_nan x = false -> Py.le x x = true.
Proof.
  unfold PrimFloat.is_nan, Py.le. rewrite eqb_spec, leb_spec. intros H.
  apply SFleb_refl. intros E. rewrite E in H. discriminate H.
Qed.

(** Two floats that are no NaN are in order, one way or the other. *)
Lemma py_lt_of_not_le (a b : float) :
  PrimFloat.is_nan a = false -> PrimFloat.is_nan b = false ->
  Py.le a b = false -> Py.lt b a = true.
Proof.
  intros Ha Hb H. destruct (Py.lt b a) eqn:L; [reflexivity|].
  rewrite (py_le_total a b (py_le_number a Ha) (py_le_number b Hb) L) in H.
  discriminate H.
Qed.

(** X6: a configuration that [main] lets through has passed the check of
    the order: its warning threshold is not at or beyond its shutdown
    threshold.  When neither threshold is a NaN the warning threshold is
    then strictly on the safe side of the shutdown threshold (a NaN passes
    the check and is on no side).  The configuration has a thermocouple
    type of the valid list, a cell count from 1 to 6; and then every
    reading the sensor returns has its quantity: the battery percentage
    raises nothing. *)
Theorem accepted_configuration_is_sound :
  forall (k : Kind) (B : Builtins) (file : ConfigFile) (cfg : Config k),
  configure k B file = inr cfg ->
  accepted k cfg
  /\ at_or_beyond k (warning_threshold k cfg) (shutdown_threshold k cfg) = false
  /\ (PrimFloat.is_nan (warning_threshold k cfg) = false ->
      PrimFloat.is_nan (shutdown_threshold k cfg) = false ->
      safe_side k (warning_threshold k cfg) (shutdown_threshold k cfg) = true)
  /\ forall i : Input k,
     read_failed k i = false -> exists q, quantity k cfg i = Some q.
Proof.
  intros k B file cfg H. pose proof (configure_accepted k B file cfg H) as A.
  split; [exact A|].
  destruct k; cbn [accepted at_or_beyond safe_side warning_threshold
                   shutdown_threshold read_failed quantity] in *.
  - split; [exact A|]. split.
    + intros Hw Hs. apply py_lt_of_not_le; assumption.
    + intros i Hi.
      destruct (Pct2075.temperature i) as [t|]; [exists t; reflexivity | discriminate].
  - split; [exact (proj1 A)|]. split.
    + intros Hw Hs. apply py_lt_of_not_le; [assumption | assumption | exact (proj1 A)].
    + intros i Hi.
      destruct (Mcp9601.reading i) as [r|]; [eexists; reflexivity | discriminate].
  - split; [exact (proj1 A)|]. split.
    + intros Hw Hs. apply py_lt_of_not_le; [assumption | assumption | exact (proj1 A)].
    + intros i Hi.
      destruct (Ina219.reading i) as [r|]; [|discriminate].
      rewrite ina_percent_cells by (unfold Ina219.MAX_CELL_COUNT in A; lia).
      eexists; reflexivity.
Qed.

Lemma accepted_configuration_is_sound_witness :
  Kinds.configure Battery Scenario.no_strings
    (Parsed (PyDict [("ina219"%string,
                      PyDict [("battery_cell_count"%string, PyFloat 4.9);
                              ("shutdown_battery_percent"%string, PyInt 8)])]))
  = inr {| Ina219.i2c_address := 65; Ina219.warning_percent := 15;
           Ina219.shutdown_percent := 8; Ina219.poll_interval := 10;
           Ina219.cell_count := 4 |}
  /\ accepted Battery
       {| Ina219.i2c_address := 65; Ina219.warning_percent := 15;
          Ina219.shutdown_percent := 8; Ina219.poll_interval := 10;
          Ina219.cell_count := 4 |}
  /\ safe_side Battery 15 8 = true
  /\ Kinds.configure Temperature Scenario.no_strings
       (Parsed (PyDict [("pct2075"%string,
                         PyDict [("shutdown_temp_c"%string, PyFloat nan)])]))
     = inr {| Pct2075.i2c_address := 55; Pct2075.warning_temp := 70;
              Pct2075.shutdown_temp := nan; Pct2075.poll_interval := 5 |}
  /\ at_or_beyond Temperature 70 nan = false
  /\ safe_side Temperature 70 nan = false.
Proof.
  split; [reflexivity|].
  split; [|split; [|split; [reflexivity|split; [|reflexivity]]]].
  - exact (proj1 (accepted_configuration_is_sound Battery Scenario.no_strings
             (Parsed (PyDict [("ina219"%string,
                               PyDict [("battery_cell_count"%string, PyFloat 4.9);
                                       ("shutdown_battery_percent"%string, PyInt 8)])]))
             _ eq_refl)).
  - exact (proj1 (proj2 (proj2 (accepted_configuration_is_sound Battery
             Scenario.no_strings
             (Parsed (PyDict [("ina219"%string,
                               PyDict [("battery_cell_count"%string, PyFloat 4.9);
                                       ("shutdown_battery_percent"%string, PyInt 8)])]))
             _ eq_refl))) eq_refl eq_refl).
  - exact (proj1 (proj2 (accepted_configuration_is_sound Temperature
             Scenario.no_strings
             (Parsed (PyDict [("pct2075"%string,
                               PyDict [("shutdown_temp_c"%string, PyFloat nan)])]))
             _ eq_refl))).
Defined.

Lemma main_start_loop (k : Kind) (B : Builtins) (env : Env (Input k)) :
  main k B env = start_loop (loop k) env (configure k B (config_file env)).
Proof. destruct k; reflexivity. Qed.

Lemma configure_load (k : Kind) (B : Builtins) (file : ConfigFile)
  (e : StartupError) :
  load_config (SENSOR_NAME k) file = inl e -> configure k B file = inl e.
Proof.
  destruct k; cbn [configure SENSOR_NAME]; intros H;
    [unfold Pct2075.configure | unfold Mcp9601.configure | unfold Ina219.configure];
    rewrite H; reflexivity.
Qed.


(** X7: start-up errors end [main] with exit code 1 and nothing but their
    report: a missing configuration file, a file that holds a mapping
    without the sensor's section, a warning threshold that is no number
    (the report names the option), and, after the start-up line, a sensor
    that cannot be opened.  A file that cannot be read or parsed, and a
    file that holds nothing, end [main] with exit code 1 as well, on an
    exception that nothing catches. *)
Theorem startup_errors_are_fatal :
  forall (k : Kind) (B : Builtins) (env : Env (Input k)),
  (config_file env = Missing ->
   main k B env = ([Startup ConfigFileMissing], Exited 1))
  /\ (forall doc : dict,
        config_file env = Parsed (PyDict doc) ->
        lookup doc (SENSOR_NAME k) = None ->
        main k B env = ([Startup SectionMissing], Exited 1))
  /\ (forall (doc section : dict) (addr : Z),
        config_file env = Parsed (PyDict doc) ->
        lookup doc (SENSOR_NAME k) = Some (PyDict section) ->
        parse_i2c_address B
          (get section (fst (address_option k)) (snd (address_option k)))
        = Returns addr ->
        py_float B (get section (fst (warning_option k)) (snd (warning_option k)))
        = ValueOrTypeError ->
        main k B env = ([Startup (BadValue (fst (warning_option k)))], Exited 1))
  /\ (forall cfg : Config k,
        configure k B (config_file env) = inr cfg ->
        sensor_init env = false ->
        main k B env = ([Started; Startup SensorInitFailed], Exited 1))
  /\ (config_file env = Unreadable \/ config_file env = Parsed PyNone ->
      main k B env = ([Startup UncaughtException], Exited 1)).
Proof.
  intros k B env. rewrite main_start_loop. repeat split.
  - intros Hf. rewrite (configure_load k B _ ConfigFileMissing); [reflexivity|].
    rewrite Hf. reflexivity.
  - intros doc Hf Hs. rewrite (configure_load k B _ SectionMissing); [reflexivity|].
    rewrite Hf. apply load_config_absent. exact Hs.
  - intros doc section addr Hf Hs Ha Hw. rewrite Hf.
    destruct k; cbn [configure SENSOR_NAME address_option warning_option fst snd] in *;
      [unfold Pct2075.configure | unfold Mcp9601.configure | unfold Ina219.configure];
      rewrite (load_config_section _ _ _ Hs); unfold _coerce_float;
      cbn [bind get_of]; rewrite Ha; cbn [coerced bind]; rewrite Hw; reflexivity.
  - intros cfg Hc Hi. rewrite Hc. unfold start_loop. rewrite Hi. reflexivity.
  - intros Hf.
    rewrite (configure_load k B _ UncaughtException); [reflexivity|].
    destruct Hf as [-> | ->]; reflexivity.
Qed.

Lemma startup_errors_are_fatal_witness :
  Kinds.main Thermocouple Scenario.no_strings
    {| config_file :=
         Parsed (PyDict [("mcp9601"%string,
                          PyDict [("i2c_address"%string, PyInt 96);
                                  ("warning_temp_c"%string, PyStr "hot")])]);
       sensor_init := true;
       inputs := [Scenario.mcp_read 20 20 CmdOk] |}
  = ([Startup (BadValue "warning_temp_c")], Exited 1)
  /\ Kinds.main Temperature Scenario.no_strings
       {| config_file := Missing; sensor_init := true;
          inputs := [Scenario.pct_read 20 CmdOk] |}
     = ([Startup ConfigFileMissing], Exited 1).
Proof.
  split.
  - exact (proj1 (proj2 (proj2 (startup_errors_are_fatal Thermocouple
             Scenario.no_strings
             {| config_file :=
                  Parsed (PyDict [("mcp9601"%string,
                                   PyDict [("i2c_address"%string, PyInt 96);
                                           ("warning_temp_c"%string, PyStr "hot")])]);
                sensor_init := true;
                inputs := [Scenario.mcp_read 20 20 CmdOk] |})))
             _ _ 96 eq_refl eq_refl eq_refl eq_refl).
  - reflexivity.
Defined.



(** ** Readings that are no numbers, and readings in order *)

Lemma leb_nan_r (x : float) : PrimFloat.leb x nan = false.
Proof.
  rewrite leb_spec. change (Prim2SF nan) with S754_nan.
  destruct (Prim2SF x) as [[]|[]| |[] ? ?]; reflexivity.
Qed.

(** X9: a NaN is on the safe side of every threshold.  A temperature
    monitor that reads a NaN never shuts down nor warns, and clears a
    raised warning, whatever its thresholds; and the battery percentage of a
    NaN voltage is 100. *)
Theorem nan_reading_is_read_as_safe :
  (forall (cfg : Pct2075.Config) (st : LoopState) (c : CmdResult),
     Pct2075.iteration cfg st {| Pct2075.temperature := Some nan; Pct2075.cmd := c |}
     = evaluated (if warning_logged st then WarnCleared else NoAction) false)
  /\ (forall (cfg : Mcp9601.Config) (st : LoopState) (ambient : float)
             (c : CmdResult),
        Mcp9601.iteration cfg st (Scenario.mcp_read nan ambient c)
        = evaluated (if warning_logged st then WarnCleared else NoAction) false)
  /\ (forall cells : Z, 1 <= cells <= 6 ->
        Ina219.calculate_battery_percent nan cells = Some 100%float).
Proof.
  split; [|split].
  - intros cfg st c. unfold Pct2075.iteration, Pct2075.evaluate, Py.ge.
    cbn [Pct2075.temperature]. rewrite !leb_nan_r.
    destruct (warning_logged st); reflexivity.
  - intros cfg st ambient c.
    unfold Mcp9601.iteration, Mcp9601.evaluate, Py.ge, Scenario.mcp_read.
    cbn [Mcp9601.reading Mcp9601.hot_temp]. rewrite !leb_nan_r.
    destruct (warning_logged st); reflexivity.
  - intros cells Hc.
    assert (E : cells = 1 \/ cells = 2 \/ cells = 3 \/ cells = 4
                \/ cells = 5 \/ cells = 6) by lia.
    destruct E as [-> | [-> | [-> | [-> | [-> | ->]]]]]; reflexivity.
Qed.

Lemma nan_reading_is_read_as_safe_witness :
  Ina219.calculate_battery_percent nan 6 = Some 100%float
  /\ Pct2075.iteration (Scenario.pct_config 55 5)
       {| consecutive_failures := 2; warning_logged := true |}
       {| Pct2075.temperature := Some nan; Pct2075.cmd := CmdOk |}
     = ([Act WarnCleared],
        Continue {| consecutive_failures := 0; warning_logged := false |}).
Proof.
  split; [|reflexivity].
  exact (proj2 (proj2 nan_reading_is_read_as_safe) 6 ltac:(lia)).
Defined.

(** X10: a lower voltage is never judged safer.  On a pack of 1 to 6 cells,
    while discharging, if a voltage leads to shutdown then so does every
    voltage at or below it, and if its percentage is at or below the warning
    threshold then so is theirs; and a temperature at or above one that
    leads to shutdown leads to shutdown. *)
Theorem lower_voltage_is_no_safer :
  forall (cfg : Ina219.Config) (warned warned' : bool) (v v' p p' : float),
  1 <= Ina219.cell_count cfg <= 6 ->
  Py.le v' v = true ->
  Ina219.calculate_battery_percent v (Ina219.cell_count cfg) = Some p ->
  Ina219.calculate_battery_percent v' (Ina219.cell_count cfg) = Some p' ->
  (fst (Ina219.evaluate cfg warned p false) = Shutdown ->
   fst (Ina219.evaluate cfg warned' p' false) = Shutdown)
  /\ (Py.le p (Ina219.warning_percent cfg) = true ->
      Py.le p' (Ina219.warning_percent cfg) = true)
  /\ (forall (tcfg : Pct2075.Config) (t t' : float),
        Py.le t t' = true ->
        fst (Pct2075.evaluate tcfg warned t) = Shutdown ->
        fst (Pct2075.evaluate tcfg warned' t') = Shutdown).
Proof.
  intros cfg warned warned' v v' p p' Hc Hv Hp Hp'.
  pose proof (ina_percent_monotone _ _ _ _ _ Hc Hv Hp' Hp) as Hpp.
  split; [|split].
  - rewrite !ina_evaluate_discharging.
    destruct (Py.le p (Ina219.shutdown_percent cfg)) eqn:Hs.
    + rewrite (py_le_trans _ _ _ Hpp Hs). reflexivity.
    + intros H. exfalso. exact (warn_path_not_shutdown _ _ H).
  - intros Hw. exact (py_le_trans _ _ _ Hpp Hw).
  - intros tcfg t t' Ht. unfold Pct2075.evaluate.
    destruct (Py.ge t (Pct2075.shutdown_temp tcfg)) eqn:Hs.
    + unfold Py.ge in *.
      assert (H : Py.le (Pct2075.shutdown_temp tcfg) t' = true)
        by exact (py_le_trans _ _ _ Hs Ht).
      unfold Py.le in H. rewrite H. reflexivity.
    + intros H. exfalso. exact (warn_path_not_shutdown _ _ H).
Qed.

Lemma lower_voltage_is_no_safer_witness :
  Ina219.calculate_battery_percent 9.17 3 = Some 4.7222222222222188%float
  /\ Ina219.calculate_battery_percent 9.02 3 = Some 0.55555555555554348%float
  /\ fst (Ina219.evaluate (Scenario.ina_config 65 10) true
            0.55555555555554348 false)
     = Shutdown.
Proof.
  split; [reflexivity|]. split; [reflexivity|].
  exact (proj1 (lower_voltage_is_no_safer (Scenario.ina_config 65 10) false true
           9.17 9.02 4.7222222222222188 0.55555555555554348
           ltac:(cbn; lia) eq_refl eq_refl eq_refl) eq_refl).
Defined.

(** * More of the worker pool *)

(** X11: [set_worker_count] grows the pool at its end and shrinks it from
    its end.  Towards a larger target it starts the missing workers, after
    the ones it has, and makes no other call; towards a smaller one it keeps
    the oldest workers and stops the others, the most recent first, each by
    its stop event, a join, and a kill if it is still alive, and it starts
    nothing. *)
Theorem set_worker_count_grows_and_shrinks_at_the_end :
  forall (is_alive : handle -> bool) (p : WorkerPool) (w : World)
         (requested : Z),
  0 <= max_workers p ->
  paired p ->
  let target := Z.to_nat (Z.min (Z.max 0 requested) (max_workers p)) in
  exists p' w',
    set_worker_count is_alive p w requested = Some (Z.of_nat target, p', w')
    /\ ((List.length (workers p) <= target)%nat ->
        exists started : list handle,
          workers p' = workers p ++ started
          /\ List.length started = (target - List.length (workers p))%nat
          /\ calls w' = calls w ++ map ProcessStart started)
    /\ ((target <= List.length (workers p))%nat ->
        workers p' = firstn target (workers p)
        /\ stop_events p' = firstn target (stop_events p)
        /\ next_handle w' = next_handle w
        /\ calls w'
           = calls w
             ++ flat_map (stop_calls is_alive)
                  (firstn (List.length (workers p) - target)
                     (rev (combine (stop_events p) (workers p))))).
Proof.
  intros is_alive p w requested Hmax Hp.
  exact (set_worker_count_calls is_alive p w requested Hmax Hp).
Qed.

Lemma set_worker_count_grows_and_shrinks_at_the_end_witness :
  set_worker_count (fun h => Nat.eqb h 5)
    {| max_workers := 4; workers := [1; 3; 5; 7]%nat;
       stop_events := [0; 2; 4; 6]%nat |}
    {| next_handle := 8%nat; calls := [] |} 1
  = Some (1,
          {| max_workers := 4; workers := [1%nat]; stop_events := [0%nat] |},
          {| next_handle := 8%nat;
             calls := [EventSet 6%nat; ProcessJoin 7%nat;
                       EventSet 4%nat; ProcessJoin 5%nat; ProcessTerminate 5%nat;
                       EventSet 2%nat; ProcessJoin 3%nat] |})
  /\ exists p' w',
       set_worker_count (fun h => Nat.eqb h 5)
         {| max_workers := 4; workers := [1; 3; 5; 7]%nat;
            stop_events := [0; 2; 4; 6]%nat |}
         {| next_handle := 8%nat; calls := [] |} 1
       = Some (1, p', w').
Proof.
  split; [reflexivity|].
  destruct (set_worker_count_grows_and_shrinks_at_the_end (fun h => Nat.eqb h 5)
              {| max_workers := 4; workers := [1; 3; 5; 7]%nat;
                 stop_events := [0; 2; 4; 6]%nat |}
              {| next_handle := 8%nat; calls := [] |} 1
              ltac:(cbn; lia) eq_refl) as [p' [w' [H _]]].
  exists p', w'. exact H.
Defined.

(** X12: [shutdown] sets every stop event, in the pool's order, before it
    joins any worker; it then joins every worker once, killing the ones
    that are still alive after their join; it creates nothing and leaves
    an empty pool with the same [max_workers]. *)
Theorem shutdown_sets_all_events_then_joins_all :
  forall (is_alive : handle -> bool) (p : WorkerPool) (w : World),
  shutdown is_alive p w
  = ({| max_workers := max_workers p; workers := []; stop_events := [] |},
     {| next_handle := next_handle w;
        calls := calls w ++ map EventSet (stop_events p)
                 ++ flat_map (join_calls is_alive) (workers p) |}).
Proof. intros is_alive p w. apply shutdown_calls. Qed.

(** * The benchmark *)

Import Benchmark.

(** ** The stress worker *)

Lemma lcg_range (x : Z) : 0 <= lcg x < 2147483648.
Proof.
  unfold lcg. change 2147483647 with (Z.ones 31).
  rewrite Z.land_ones by lia. apply Z.mod_pos_bound. lia.
Qed.

Lemma lcg_mod (x : Z) : lcg x = (x * 1103515245 + 12345) mod 2147483648.
Proof.
  unfold lcg. change 2147483647 with (Z.ones 31).
  rewrite Z.land_ones by lia. reflexivity.
Qed.

Lemma iter_lcg_range (n x : Z) :
  0 <= x < 2147483648 -> 0 <= Z.iter n lcg x < 2147483648.
Proof.
  intros H. destruct n as [|p|p]; cbn [Z.iter]; try exact H.
  apply Pos.iter_invariant; [|exact H]. intros y _. apply lcg_range.
Qed.

Lemma burn_range (n : Z) (is_set : list bool) :
  forall x y : Z,
  0 <= x < 2147483648 -> burn n is_set x = Some y -> 0 <= y < 2147483648.
Proof.
  induction is_set as [|[|] rest IH]; intros x y Hx E; cbn [burn] in E.
  - discriminate E.
  - injection E as <-. exact Hx.
  - apply (IH (Z.iter n lcg x)); [apply iter_lcg_range; exact Hx | exact E].
Qed.

Lemma burn_ends (n : Z) (is_set : list bool) :
  forall x : Z, In true is_set <-> exists y, burn n is_set x = Some y.
Proof.
  induction is_set as [|[|] rest IH]; intros x; cbn [burn In].
  - split; [intros [] | intros [y E]; discriminate E].
  - split; [intros _; exists x; reflexivity | intros _; left; reflexivity].
  - rewrite <- (IH (Z.iter n lcg x)).
    split; [intros [E|H]; [discriminate | exact H] | intros H; right; exact H].
Qed.

(** X13: the state of a stress worker stays a 31-bit number: each step is
    the linear congruential step modulo [2^31], so the integer the worker
    multiplies never grows, however long it runs; and the worker ends as soon
    as a test finds its stop event set, and only then. *)
Theorem stress_worker_state_stays_in_31_bits :
  forall is_set : list bool,
  (forall x : Z, lcg x = (x * 1103515245 + 12345) mod 2 ^ 31)
  /\ (forall x : Z, cpu_stress_worker is_set = Some x -> 0 <= x < 2 ^ 31)
  /\ (In true is_set <-> exists x : Z, cpu_stress_worker is_set = Some x).
Proof.
  intros is_set. split; [|split].
  - exact lcg_mod.
  - intros x E. apply (burn_range 100000 is_set 1 x); [lia | exact E].
  - apply (burn_ends 100000).
Qed.

(** ** The sensor reader *)

Lemma count_app (f : Output -> bool) (x y : list Output) :
  count f (x ++ y) = count f x + count f y.
Proof. unfold count. rewrite filter_app, length_app. lia. Qed.

Lemma read_step (s : SensorReader.t) (a : option Ina219.Reading) :
  SensorReader.max_failures s = 5 ->
  0 <= SensorReader.consecutive_failures s < 5 ->
  let out := fst (fst (SensorReader.read s a)) in
  let s' := snd (SensorReader.read s a) in
  SensorReader.max_failures s' = 5
  /\ SensorReader.sensor s' = SensorReader.sensor s
  /\ 0 <= SensorReader.consecutive_failures s' < 5
  /\ 5 * count is_read_critical out + SensorReader.consecutive_failures s'
     <= count is_read_failed out + SensorReader.consecutive_failures s.
Proof.
  destruct s as [addr dev cf mx]. cbn [SensorReader.max_failures
    SensorReader.consecutive_failures SensorReader.sensor].
  intros -> Hc. unfold SensorReader.read, SensorReader.counting, count.
  cbn [SensorReader.max_failures SensorReader.consecutive_failures
       SensorReader.sensor SensorReader.i2c_address].
  destruct dev; cbn [negb].
  - destruct a as [a|].
    + cbn [fst snd filter List.length SensorReader.max_failures
           SensorReader.consecutive_failures SensorReader.sensor]. lia.
    + destruct (Z.leb_spec 5 (cf + 1));
        cbn [fst snd filter List.length is_read_failed is_read_critical
             SensorReader.max_failures SensorReader.consecutive_failures
             SensorReader.sensor]; lia.
  - cbn [fst snd filter List.length SensorReader.max_failures
         SensorReader.consecutive_failures SensorReader.sensor]. lia.
Qed.

(** X14: the failure counter of the benchmark's sensor reader stays below
    [max_failures] over any sequence of reads, and at least five failed
    reads stand behind each critical message. *)
Theorem reader_counter_stays_below_max :
  forall (s : SensorReader.t) (answers : list (option Ina219.Reading)),
  SensorReader.max_failures s = 5 ->
  0 <= SensorReader.consecutive_failures s < 5 ->
  0 <= SensorReader.consecutive_failures (snd (SensorReader.reads s answers)) < 5
  /\ 5 * count is_read_critical (fst (SensorReader.reads s answers))
       + SensorReader.consecutive_failures (snd (SensorReader.reads s answers))
     <= count is_read_failed (fst (SensorReader.reads s answers))
        + SensorReader.consecutive_failures s.
Proof.
  intros s answers. revert s.
  induction answers as [|a rest IH]; intros s Hm Hc.
  - cbn. unfold count. cbn. lia.
  - cbn [SensorReader.reads].
    pose proof (read_step s a Hm Hc) as H. cbn zeta in H.
    destruct (SensorReader.read s a) as [[out rd] s']. cbn [fst snd] in H.
    destruct H as [Hm' [_ [Hc' Hn]]].
    specialize (IH s' Hm' Hc').
    destruct (SensorReader.reads s' rest) as [out' s'']. cbn [fst snd] in *.
    rewrite !count_app. lia.
Qed.

Lemma reader_counter_stays_below_max_witness :
  SensorReader.consecutive_failures
    (snd (SensorReader.reads
            (snd (SensorReader.initialize (SensorReader.init 65) true))
            [None; None; None; None; None; None; None])) = 2
  /\ 0 <= SensorReader.consecutive_failures
            (snd (SensorReader.reads
                    (snd (SensorReader.initialize (SensorReader.init 65) true))
                    [None; None; None; None; None; None; None])) < 5.
Proof.
  split; [reflexivity|].
  apply (reader_counter_stays_below_max
           (snd (SensorReader.initialize (SensorReader.init 65) true))
           [None; None; None; None; None; None; None]
           eq_refl ltac:(cbn; lia)).
Defined.

Lemma SFabs_not_negative (v : spec_float) :
  SFltb (SFabs v) (S754_zero false) = false.
Proof. destruct v as [s|s| |s m e]; try destruct s; reflexivity. Qed.

Lemma abs_not_negative (x : float) : Py.lt (PrimFloat.abs x) 0%float = false.
Proof.
  unfold Py.lt. rewrite ltb_spec, abs_spec.
  change (Prim2SF 0%float) with (S754_zero false). apply SFabs_not_negative.
Qed.

(** X15: a reading of the benchmark's sensor reader never has a negative
    power, discharging included, its voltage is the sum of the bus and the
    shunt voltage, it says charging exactly when the current is above
    zero, and it resets the failure counter; there is a reading only from
    a reader that was initialised. *)
Theorem reading_power_is_not_negative :
  forall (s s' : SensorReader.t) (answer : option Ina219.Reading)
         (out : list Output) (reading : Reading),
  SensorReader.read s answer = (out, Some reading, s') ->
  Py.lt (power_w reading) 0%float = false
  /\ (exists a : Ina219.Reading,
        answer = Some a
        /\ voltage reading = Ina219.voltage a
        /\ charging reading = Ina219.is_charging a)
  /\ SensorReader.sensor s = true
  /\ SensorReader.consecutive_failures s' = 0
  /\ out = [].
Proof.
  intros s s' answer out reading E. unfold SensorReader.read in E.
  destruct (SensorReader.sensor s); cbn [negb] in E; [|discriminate E].
  destruct answer as [a|].
  - injection E as <- <- <-. cbn [power_w voltage charging].
    split; [apply abs_not_negative|].
    split; [exists a; repeat split|]. repeat split.
  - destruct (_ <=? _); discriminate E.
Qed.

Lemma reading_power_is_not_negative_witness :
  Py.lt (power_w {| voltage := 11.4; current_ma := (-500)%float;
                    power_w := 5.7000000000000002; charging := false |})
    0%float = false.
Proof.
  apply (reading_power_is_not_negative
           (snd (SensorReader.initialize (SensorReader.init 65) true))
           (SensorReader.counting
              (snd (SensorReader.initialize (SensorReader.init 65) true)) 0)
           (Some {| Ina219.bus_voltage := 11.4; Ina219.shunt_voltage := 0;
                    Ina219.current := (-500)%float |})
           []
           {| voltage := 11.4; current_ma := (-500)%float;
              power_w := 5.7000000000000002; charging := false |}
           eq_refl).
Defined.

(** ** The loop of a profile *)

Section WhileFacts.

Variable State : Type.
Variable body : State -> Tick -> list Output * State * option Ending.

Lemma while_cons (s : State) (t : Tick) (rest : list Tick) :
  while State body s (t :: rest)
  = if running t then
      let '(out, s', e) := body s t in
      match e with
      | Some e => (out, s', e)
      | None =>
          let '(out', s'', e') := while State body s' rest in
          (out ++ out', s'', e')
      end
    else ([], s, Ended).
Proof. reflexivity. Qed.

(** What holds of the state before the loop and is kept by its body holds
    after it. *)
Lemma while_preserves (P : State -> Prop) :
  (forall s t, P s -> P (snd (fst (body s t)))) ->
  forall (ticks : list Tick) (s : State),
  P s -> P (snd (fst (while State body s ticks))).
Proof.
  intros Hb ticks. induction ticks as [|t rest IH]; intros s Hs.
  - exact Hs.
  - rewrite while_cons. destruct (running t); [|exact Hs].
    specialize (Hb s t Hs). destruct (body s t) as [[out s'] [e|]].
    + exact Hb.
    + specialize (IH s' Hb).
      destruct (while State body s' rest) as [[out' s''] e']. exact IH.
Qed.

(** What the outputs of a loop look like, from what the outputs of its
    turns look like. *)
Lemma while_outputs (P : State -> Prop) (T : Tick -> Prop)
  (R : State -> list Output -> State -> Prop)
  (F : State -> list Output -> Prop) :
  (forall s, F s []) ->
  (forall s1 o1 s2 o2, R s1 o1 s2 -> F s2 o2 -> F s1 (o1 ++ o2)) ->
  (forall s t, P s -> P (snd (fst (body s t)))) ->
  (forall s t o s', P s -> T t -> body s t = (o, s', None) -> R s o s') ->
  (forall s t o s' e, P s -> T t -> body s t = (o, s', Some e) -> F s o) ->
  forall (ticks : list Tick) (s : State),
  P s -> Forall T ticks -> F s (fst (fst (while State body s ticks))).
Proof.
  intros Hnil Happ Hp Hgo Hend ticks.
  induction ticks as [|t rest IH]; intros s Hs Ht.
  - apply Hnil.
  - rewrite while_cons. destruct (running t); [|apply Hnil].
    inversion Ht as [|? ? Ht1 Ht2]; subst.
    pose proof (Hp s t Hs) as Hs'.
    destruct (body s t) as [[out s'] [e|]] eqn:E.
    + exact (Hend s t out s' e Hs Ht1 E).
    + cbn [fst snd] in Hs'. specialize (IH s' Hs' Ht2).
      destruct (while State body s' rest) as [[out' s''] e'].
      cbn [fst snd] in *. exact (Happ s out s' out' (Hgo s t out s' Hs Ht1 E) IH).
Qed.

(** A loop whose body breaks on no tick ends on a tick that finds
    [running] false. *)
Lemma while_ended (P : State -> Prop) (T : Tick -> Prop) :
  (forall s t, P s -> P (snd (fst (body s t)))) ->
  (forall s t, P s -> T t -> snd (body s t) <> Some Ended) ->
  forall (ticks : list Tick) (s : State),
  P s -> Forall T ticks ->
  snd (while State body s ticks) = Ended ->
  exists t, In t ticks /\ running t = false.
Proof.
  intros Hp Hb ticks. induction ticks as [|t rest IH]; intros s Hs Ht E.
  - discriminate E.
  - inversion Ht as [|? ? Ht1 Ht2]; subst.
    rewrite while_cons in E. destruct (running t) eqn:Er.
    + specialize (Hb s t Hs Ht1). specialize (Hp s t Hs).
      destruct (body s t) as [[out s'] [e|]].
      * cbn [snd] in *. subst e. contradiction.
      * cbn [fst snd] in Hp. specialize (IH s' Hp Ht2).
        destruct (while State body s' rest) as [[out' s''] e'].
        destruct (IH E) as [t' [Hin Hr]]. exists t'. split; [right; exact Hin | exact Hr].
    + exists t. split; [left; reflexivity | exact Er].
Qed.

(** A loop that has ended was ended by a tick that finds [running] false
    or by a tick on which its body breaks. *)
Lemma while_ended_by (P : State -> Prop) (Q : Tick -> Prop) :
  (forall s t, P s -> P (snd (fst (body s t)))) ->
  (forall s t, P s -> snd (body s t) = Some Ended -> Q t) ->
  forall (ticks : list Tick) (s : State),
  P s ->
  snd (while State body s ticks) = Ended ->
  exists t, In t ticks /\ (running t = false \/ Q t).
Proof.
  intros Hp Hb ticks. induction ticks as [|t rest IH]; intros s Hs E.
  - discriminate E.
  - rewrite while_cons in E. destruct (running t) eqn:Er.
    + specialize (Hb s t Hs). specialize (Hp s t Hs).
      destruct (body s t) as [[out s'] [e|]].
      * cbn [snd] in *. subst e. exists t.
        split; [left; reflexivity | right; apply Hb; reflexivity].
      * cbn [fst snd] in Hp. specialize (IH s' Hp).
        destruct (while State body s' rest) as [[out' s''] e'].
        destruct (IH E) as [t' [Hin Hr]]. exists t'. split; [right; exact Hin | exact Hr].
    + exists t. split; [left; reflexivity | left; exact Er].
Qed.

(** A loop ends when a tick finds [running] false, if not before. *)
Lemma while_stops (P : State -> Prop) :
  (forall s t, P s -> P (snd (fst (body s t)))) ->
  (forall s t, P s -> snd (body s t) <> Some Pending) ->
  forall (ticks : list Tick) (s : State),
  P s ->
  (exists t, In t ticks /\ running t = false) ->
  snd (while State body s ticks) <> Pending.
Proof.
  intros Hp Hb ticks. induction ticks as [|t rest IH]; intros s Hs [t' [Hin Hr]].
  - destruct Hin.
  - rewrite while_cons. destruct (running t) eqn:Er; [|discriminate].
    specialize (Hb s t Hs). specialize (Hp s t Hs).
    destruct (body s t) as [[out s'] [e|]].
    + cbn [snd] in *. congruence.
    + assert (Hex : exists t0, In t0 rest /\ running t0 = false).
      { destruct Hin as [->|Hin]; [congruence | exists t'; split; assumption]. }
      cbn [fst snd] in Hp. specialize (IH s' Hp Hex).
      destruct (while State body s' rest) as [[out' s''] e']. exact IH.
Qed.

(** What comes after a tick on which the body surely leaves the loop does
    not matter. *)
Lemma while_cut (P : State -> Prop) (t : Tick) (post : list Tick) :
  (forall s t', P s -> P (snd (fst (body s t')))) ->
  (forall s t', P s -> snd (body s t') <> Some Pending) ->
  (forall s, P s -> snd (body s t) <> None) ->
  forall (pre : list Tick) (s : State),
  P s ->
  while State body s (pre ++ t :: post) = while State body s (pre ++ [t])
  /\ snd (while State body s (pre ++ [t])) <> Pending.
Proof.
  intros Hp Hn Ht pre. induction pre as [|a pre IH]; intros s Hs.
  - cbn [app]. rewrite !while_cons.
    destruct (running t); [|split; [reflexivity | discriminate]].
    specialize (Ht s Hs). specialize (Hn s t Hs).
    destruct (body s t) as [[out s'] [e|]]; cbn [snd] in *.
    + split; [reflexivity | congruence].
    + contradiction.
  - cbn [app]. rewrite !while_cons.
    destruct (running a); [|split; [reflexivity | discriminate]].
    specialize (Hp s a Hs). specialize (Hn s a Hs).
    destruct (body s a) as [[out s'] [e|]]; cbn [fst snd] in *.
    + split; [reflexivity | congruence].
    + destruct (IH s' Hp) as [E1 E2]. rewrite E1.
      destruct (while State body s' (pre ++ [t])) as [[out' s''] e'].
      split; [reflexivity | exact E2].
Qed.

(** An exception that ends the loop was raised by its body, from a state
    the loop keeps. *)
Lemma while_raised (P : State -> Prop) :
  (forall s t, P s -> P (snd (fst (body s t)))) ->
  forall (ticks : list Tick) (s : State) (x : Exn),
  P s ->
  snd (while State body s ticks) = Raised x ->
  exists s' t, P s' /\ In t ticks /\ snd (body s' t) = Some (Raised x).
Proof.
  intros Hp ticks. induction ticks as [|t rest IH]; intros s x Hs E.
  - discriminate E.
  - rewrite while_cons in E. destruct (running t); [|discriminate E].
    specialize (Hp s t Hs). destruct (body s t) as [[out s'] [e|]] eqn:Eb.
    + cbn [snd] in E. subst e. exists s, t. rewrite Eb.
      split; [exact Hs|]. split; [left; reflexivity | reflexivity].
    + cbn [fst snd] in Hp. specialize (IH s' x Hp).
      destruct (while State body s' rest) as [[out' s''] e'].
      destruct (IH E) as (s1 & t1 & H1 & H2 & H3).
      exists s1, t1. split; [exact H1|]. split; [right; exact H2 | exact H3].
Qed.

End WhileFacts.

(** ** Processes started and processes joined *)

Lemma existsb_eqb_In (h : handle) (l : list handle) :
  existsb (Nat.eqb h) l = true <-> In h l.
Proof.
  rewrite existsb_exists. split.
  - intros [x [Hin E]]. apply Nat.eqb_eq in E. subst. exact Hin.
  - intros Hin. exists h. split; [exact Hin | apply Nat.eqb_refl].
Qed.

(** One more call keeps the calls settled when it joins the workers that
    leave the set of the living and starts a worker of that set. *)
Lemma settled_snoc (alive alive' : list handle) (c : Call) (cs : list Call) :
  settled alive cs = true ->
  (forall x, In x alive -> In x alive' \/ c = ProcessJoin x) ->
  (forall h, c = ProcessStart h -> In h alive') ->
  settled alive' (cs ++ [c]) = true.
Proof.
  intros Hs Hleave Hstart. induction cs as [|a cs IH].
  - cbn [app settled]. destruct c as [h| | |]; try reflexivity.
    cbn [existsb orb]. rewrite andb_true_r. apply existsb_eqb_In.
    apply Hstart. reflexivity.
  - cbn [app]. destruct a as [h| | |]; cbn [settled] in *; try (apply IH; exact Hs).
    apply andb_true_iff in Hs. destruct Hs as [Hh Hs].
    apply andb_true_iff. split; [|apply IH; exact Hs].
    rewrite existsb_app. apply orb_true_iff in Hh. destruct Hh as [Hh|Hh].
    + rewrite Hh. reflexivity.
    + apply existsb_eqb_In in Hh. destruct (Hleave h Hh) as [Hin| ->].
      * apply existsb_eqb_In in Hin. rewrite Hin. apply orb_true_r.
      * cbn [existsb joins]. rewrite Nat.eqb_refl. cbn [orb].
        rewrite orb_true_r. reflexivity.
Qed.

Lemma settled_call (alive alive' : list handle) (c : Call) (w : World) :
  settled alive (calls w) = true ->
  (forall x, In x alive -> In x alive' \/ c = ProcessJoin x) ->
  (forall h, c = ProcessStart h -> In h alive') ->
  settled alive' (calls (call c w)) = true.
Proof. intros. cbn [call calls]. apply (settled_snoc alive); assumption. Qed.

Section PoolSettles.

Variable is_alive : handle -> bool.

Lemma join_or_terminate_settled (alive alive' : list handle) (h : handle) (w : World) :
  settled alive (calls w) = true ->
  (forall x, In x alive -> In x alive' \/ x = h) ->
  settled alive' (calls (join_or_terminate is_alive h w)) = true.
Proof.
  intros Hs Hl. unfold join_or_terminate.
  assert (Hj : settled alive' (calls (call (ProcessJoin h) w)) = true).
  { apply (settled_call alive); [exact Hs | | discriminate].
    intros x Hx. destruct (Hl x Hx) as [H| ->]; [left; exact H | right; reflexivity]. }
  destruct (is_alive h); [|exact Hj].
  apply (settled_call alive'); [exact Hj | intros x Hx; left; exact Hx | discriminate].
Qed.

Lemma start_workers_settled (n : nat) :
  forall (p : WorkerPool) (w : World),
  settled (workers p) (calls w) = true ->
  settled (workers (fst (start_workers n p w)))
    (calls (snd (start_workers n p w))) = true.
Proof.
  induction n as [|n IH]; intros p w Hs.
  - exact Hs.
  - cbn [start_workers fresh]. apply IH. cbn [workers].
    apply (settled_call (workers p)).
    + exact Hs.
    + intros x Hx. left. apply in_or_app. left. exact Hx.
    + intros h E. injection E as <-. apply in_or_app. right. left. reflexivity.
Qed.

Lemma stop_workers_settled (n : nat) :
  forall (p : WorkerPool) (w : World) (p' : WorkerPool) (w' : World),
  settled (workers p) (calls w) = true ->
  stop_workers is_alive n p w = Some (p', w') ->
  settled (workers p') (calls w') = true.
Proof.
  induction n as [|n IH]; intros p w p' w' Hs E.
  - injection E as <- <-. exact Hs.
  - cbn [stop_workers] in E.
    destruct (pop (stop_events p)) as [[ev es]|] eqn:Ee; [|discriminate E].
    destruct (pop (workers p)) as [[worker ws]|] eqn:Ew; [|discriminate E].
    apply (IH _ _ _ _) in E; [exact E|]. cbn [workers].
    assert (Hws : workers p = ws ++ [worker]).
    { destruct (pop_nonempty (workers p)) as [x [l [El Hp]]].
      - intros H0. rewrite H0 in Ew. discriminate Ew.
      - rewrite Hp in Ew. injection Ew as <- <-. exact El. }
    apply (join_or_terminate_settled (workers p)).
    + apply (settled_call (workers p)); [exact Hs | intros x Hx; left; exact Hx | discriminate].
    + intros x Hx. rewrite Hws in Hx. apply in_app_or in Hx.
      destruct Hx as [Hx|[<-|[]]]; [left; exact Hx | right; reflexivity].
Qed.

(** [set_worker_count] on a pool with one stop event per worker raises
    nothing. *)
Lemma set_worker_count_paired (p : WorkerPool) (w : World) (requested : Z) :
  paired p ->
  exists (k : Z) (p' : WorkerPool) (w' : World),
    set_worker_count is_alive p w requested = Some (k, p', w')
    /\ paired p'
    /\ max_workers p' = max_workers p.
Proof.
  intros Hp. unfold set_worker_count.
  destruct (Z.of_nat (List.length (workers p)) <? _).
  - pose proof (start_workers_grows
                  (Z.to_nat (Z.max 0 (Z.min requested (max_workers p))
                             - Z.of_nat (List.length (workers p)))) p w)
      as [Hw [He Hm]].
    destruct (start_workers _ p w) as [q v]. cbn [fst snd] in *.
    exists (Z.of_nat (List.length (workers q))), q, v.
    repeat split; try assumption. unfold paired in *. lia.
  - destruct (_ <? Z.of_nat (List.length (workers p))) eqn:Hlt.
    + apply Z.ltb_lt in Hlt.
      destruct (stop_workers_shrinks is_alive
                  (Z.to_nat (Z.of_nat (List.length (workers p))
                             - Z.max 0 (Z.min requested (max_workers p))))
                  p w Hp ltac:(lia)) as [q [v [Hst [_ [Hq Hm]]]]].
      rewrite Hst. exists (Z.of_nat (List.length (workers q))), q, v.
      repeat split; assumption.
    + exists (Z.of_nat (List.length (workers p))), p, w. repeat split; assumption.
Qed.

(** [set_worker_count] keeps the calls settled. *)
Lemma set_worker_count_settled (p : WorkerPool) (w : World) (requested : Z)
  (k : Z) (p' : WorkerPool) (w' : World) :
  set_worker_count is_alive p w requested = Some (k, p', w') ->
  settled (workers p) (calls w) = true ->
  settled (workers p') (calls w') = true.
Proof.
  unfold set_worker_count. intros E Hs.
  destruct (Z.of_nat (List.length (workers p)) <? _).
  - pose proof (start_workers_settled
                  (Z.to_nat (Z.max 0 (Z.min requested (max_workers p))
                             - Z.of_nat (List.length (workers p)))) p w Hs) as Hs'.
    destruct (start_workers _ p w) as [q v]. cbn [fst snd] in *.
    injection E as _ <- <-. exact Hs'.
  - destruct (_ <? Z.of_nat (List.length (workers p))).
    + destruct (stop_workers is_alive _ p w) as [[q v]|] eqn:Hst; [|discriminate E].
      injection E as _ <- <-. exact (stop_workers_settled _ p w q v Hs Hst).
    + injection E as _ <- <-. exact Hs.
Qed.

Lemma fold_join_settled (l : list handle) :
  forall w : World,
  settled l (calls w) = true ->
  settled [] (calls (fold_left (fun w worker => join_or_terminate is_alive worker w) l w))
  = true.
Proof.
  induction l as [|h l IH]; intros w Hs.
  - exact Hs.
  - cbn [fold_left]. apply IH. apply (join_or_terminate_settled (h :: l)).
    + exact Hs.
    + intros x [<-|Hx]; [right; reflexivity | left; exact Hx].
Qed.

Lemma fold_set_settled (alive : list handle) (l : list handle) :
  forall w : World,
  settled alive (calls w) = true ->
  settled alive (calls (fold_left (fun w event => call (EventSet event) w) l w)) = true.
Proof.
  induction l as [|e l IH]; intros w Hs.
  - exact Hs.
  - cbn [fold_left]. apply IH.
    apply (settled_call alive); [exact Hs | intros x Hx; left; exact Hx | discriminate].
Qed.

(** [shutdown] leaves an empty pool and no worker behind. *)
Lemma shutdown_settled (p : WorkerPool) (w : World) :
  settled (workers p) (calls w) = true ->
  workers (fst (shutdown is_alive p w)) = []
  /\ stop_events (fst (shutdown is_alive p w)) = []
  /\ all_joined (calls (snd (shutdown is_alive p w))) = true.
Proof.
  intros Hs. unfold shutdown. cbn [fst snd workers stop_events].
  repeat split. apply fold_join_settled, fold_set_settled. exact Hs.
Qed.

End PoolSettles.

(** ** The pieces of the runner *)

Lemma read_flag (s : SensorReader.t) (a : option Ina219.Reading) :
  SensorReader.sensor (snd (SensorReader.read s a)) = SensorReader.sensor s.
Proof.
  unfold SensorReader.read.
  destruct (SensorReader.sensor s) eqn:E; cbn [negb]; [|exact E].
  destruct a; [exact E|]. destruct (_ <=? _); exact E.
Qed.

Lemma read_some (s : SensorReader.t) (x : Ina219.Reading) :
  SensorReader.sensor s = true ->
  exists rd : Reading,
    SensorReader.read s (Some x) = ([], Some rd, SensorReader.counting s 0)
    /\ voltage rd = Ina219.voltage x
    /\ charging rd = Ina219.is_charging x.
Proof.
  intros E. unfold SensorReader.read. rewrite E. cbn [negb].
  eexists. split; [reflexivity|]. split; reflexivity.
Qed.

Lemma read_charging (s : SensorReader.t) (a : option Ina219.Reading) (rd : Reading) :
  snd (fst (SensorReader.read s a)) = Some rd ->
  exists x, a = Some x /\ voltage rd = Ina219.voltage x
            /\ charging rd = Ina219.is_charging x.
Proof.
  unfold SensorReader.read. destruct (negb _); [discriminate|].
  destruct a as [x|]; [|destruct (_ <=? _); discriminate].
  cbn [fst snd]. intros E. injection E as <-. exists x. repeat split.
Qed.

(** What the reader logs holds no sample, no switch and no threshold. *)
Lemma read_quiet (s : SensorReader.t) (a : option Ina219.Reading) :
  notes_of (fst (fst (SensorReader.read s a))) = []
  /\ switches_of (fst (fst (SensorReader.read s a))) = []
  /\ existsb is_threshold_reached (fst (fst (SensorReader.read s a))) = false.
Proof.
  unfold SensorReader.read. destruct (negb _); [repeat split|].
  destruct a; [repeat split|]. destruct (_ <=? _); repeat split.
Qed.

Ltac sampled_cases :=
  unfold sampled;
  match goal with
  | |- context [calculate_battery_percent ?v ?c] =>
      destruct (calculate_battery_percent v c) as [?pct|] eqn:?Epct
  end;
  [ match goal with
    | |- context [csv_writer ?r && negb ?o] =>
        destruct (csv_writer r && negb o) eqn:?Ecsv
    end;
    [ | match goal with
        | |- context [negb ?c && Py.le ?p ?th] =>
            destruct (negb c && Py.le p th) eqn:?Ethr
        end ]
  | ];
  cbn [fst snd].

Lemma sampled_keeps (first : bool) (r : BenchmarkRunner) (t : Tick)
  (rd : Reading) (load workers : Z) :
  args (snd (fst (sampled first r t rd load workers))) = args r
  /\ cpu_count (snd (fst (sampled first r t rd load workers))) = cpu_count r
  /\ worker_pool (snd (fst (sampled first r t rd load workers))) = worker_pool r
  /\ sensor (snd (fst (sampled first r t rd load workers))) = sensor r
  /\ csv_writer (snd (fst (sampled first r t rd load workers))) = csv_writer r.
Proof. sampled_cases; destruct first; repeat split. Qed.

Lemma sampled_ending (first : bool) (r : BenchmarkRunner) (t : Tick)
  (rd : Reading) (load workers : Z) :
  snd (sampled first r t rd load workers) <> Some Pending
  /\ (charging rd = true ->
      snd (sampled first r t rd load workers) <> Some Ended
      /\ existsb is_threshold_reached (fst (fst (sampled first r t rd load workers)))
         = false)
  /\ (forall x, snd (sampled first r t rd load workers) = Some (Raised x) ->
      (x = percent_error (cells (args r))
       /\ calculate_battery_percent (voltage rd) (cells (args r)) = None)
      \/ (x = OSError /\ csv_writer r = true))
  /\ switches_of (fst (fst (sampled first r t rd load workers))) = [].
Proof.
  sampled_cases.
  - split; [discriminate|]. split; [intros _; split; [discriminate | reflexivity]|].
    split; [|reflexivity]. intros x E. injection E as <-. right. split; [reflexivity|].
    destruct first; cbn [csv_writer with_start] in Ecsv;
      apply andb_true_iff in Ecsv; apply Ecsv.
  - split; [discriminate|]. split.
    + intros Hc. rewrite Hc in Ethr. discriminate Ethr.
    + split; [intros x E; discriminate E | reflexivity].
  - split; [discriminate|]. split; [intros _; split; [discriminate | reflexivity]|].
    split; [intros x E; discriminate E | reflexivity].
  - split; [discriminate|]. split; [intros _; split; [discriminate | reflexivity]|].
    split; [|reflexivity]. intros x E. injection E as <-. left. split; reflexivity.
Qed.

(** A discharging reading at or below the threshold leaves the loop. *)
Lemma sampled_threshold (first : bool) (r : BenchmarkRunner) (t : Tick)
  (rd : Reading) (load workers : Z) (pct : float) :
  calculate_battery_percent (voltage rd) (cells (args r)) = Some pct ->
  charging rd = false ->
  Py.le pct (threshold (args r)) = true ->
  snd (sampled first r t rd load workers) <> None.
Proof.
  intros Ep Hc Hle. unfold sampled. rewrite Ep.
  destruct (csv_writer _ && _); [discriminate|].
  replace (args (if first then with_start r pct else r)) with (args r)
    by (destruct first; reflexivity).
  rewrite Hc, Hle. discriminate.
Qed.

(** The notes of a sample, and whether a first sample is still to come. *)
Lemma sampled_notes (first : bool) (r : BenchmarkRunner) (t : Tick)
  (rd : Reading) (load workers : Z) :
  tagged first (notes_of (fst (fst (sampled first r t rd load workers)))) = true
  /\ (snd (sampled first r t rd load workers) = None ->
      is_nil (notes_of (fst (fst (sampled first r t rd load workers)))) = false
      /\ (first = is_none (start_battery_pct r) ->
          is_none (start_battery_pct (snd (fst (sampled first r t rd load workers))))
          = false)).
Proof.
  sampled_cases; cbn [notes_of tagged plain forallb is_nil];
    (split; [destruct first; reflexivity|]); intros E; try discriminate E.
  split; [reflexivity|]. intros ->.
  destruct (start_battery_pct r) eqn:Es; cbn [is_none]; [|reflexivity].
  cbn [start_battery_pct]. rewrite Es. reflexivity.
Qed.

(** A sample that breaks the loop was taken while discharging, at or below
    the threshold. *)
Lemma sampled_ended (first : bool) (r : BenchmarkRunner) (t : Tick)
  (rd : Reading) (load workers : Z) :
  snd (sampled first r t rd load workers) = Some Ended ->
  negb (charging rd)
  && match calculate_battery_percent (voltage rd) (cells (args r)) with
     | Some pct => Py.le pct (threshold (args r))
     | None => false
     end = true.
Proof.
  unfold sampled.
  destruct (calculate_battery_percent (voltage rd) (cells (args r))) as [pct|];
    [|discriminate].
  destruct (csv_writer _ && _); [discriminate|].
  replace (args (if first then with_start r pct else r)) with (args r)
    by (destruct first; reflexivity).
  destruct (negb (charging rd) && Py.le pct (threshold (args r)));
    [reflexivity | discriminate].
Qed.

(** What a sample carries. *)
Lemma sampled_carries (first : bool) (r : BenchmarkRunner) (t : Tick)
  (rd : Reading) (load workers : Z) :
  forallb (carries load workers) (fst (fst (sampled first r t rd load workers)))
  = true.
Proof.
  sampled_cases; cbn [forallb carries]; rewrite ?Z.eqb_refl; reflexivity.
Qed.

Lemma read_carries (s : SensorReader.t) (a : option Ina219.Reading)
  (f : Output -> bool) :
  (forall n, f (ReadFailed n) = true) -> f ReadCritical = true ->
  forallb f (fst (fst (SensorReader.read s a))) = true.
Proof.
  intros H1 H2. unfold SensorReader.read. destruct (negb _); [reflexivity|].
  destruct a; [reflexivity|].
  destruct (_ <=? _); cbn [fst forallb]; rewrite ?H1, ?H2; reflexivity.
Qed.

(** ** The pause at the end of a turn *)

Section Pause.

Variable sleep : float -> option Exn.

Lemma pause_not_pending (r : BenchmarkRunner) (e : option Ending) :
  e <> Some Pending -> pause sleep r e <> Some Pending.
Proof.
  unfold pause. destruct e as [e|]; [exact (fun H => H)|].
  intros _. destruct (sleep _); discriminate.
Qed.

Lemma pause_ended (r : BenchmarkRunner) (e : option Ending) :
  pause sleep r e = Some Ended -> e = Some Ended.
Proof.
  unfold pause. destruct e as [e|]; [exact (fun H => H)|].
  destruct (sleep _); discriminate.
Qed.

Lemma pause_none (r : BenchmarkRunner) (e : option Ending) :
  pause sleep r e = None -> e = None.
Proof. unfold pause. destruct e as [e|]; [discriminate | reflexivity]. Qed.

Lemma pause_some (r : BenchmarkRunner) (e : option Ending) :
  e <> None -> pause sleep r e <> None.
Proof. unfold pause. destruct e as [e|]; [discriminate | contradiction]. Qed.

Lemma pause_raised (r : BenchmarkRunner) (e : option Ending) (x : Exn) :
  pause sleep r e = Some (Raised x) ->
  e = Some (Raised x) \/ sleep (interval (args r)) = Some x.
Proof.
  unfold pause. destruct e as [e|]; [left; assumption|].
  destruct (sleep _) as [y|]; [|discriminate].
  intros E. injection E as <-. right. reflexivity.
Qed.

End Pause.

(** ** The bodies of the two loops *)

Lemma notes_of_app (x y : list Output) : notes_of (x ++ y) = notes_of x ++ notes_of y.
Proof.
  induction x as [|o x IH]; [reflexivity|].
  destruct o; cbn [app notes_of]; rewrite IH; reflexivity.
Qed.

Lemma switches_of_app (x y : list Output) :
  switches_of (x ++ y) = switches_of x ++ switches_of y.
Proof.
  induction x as [|o x IH]; [reflexivity|].
  destruct o; cbn [app switches_of]; rewrite IH; reflexivity.
Qed.

Section Bodies.

Variable is_alive : handle -> bool.
Variable sleep : float -> option Exn.

Lemma stress_body_frame (workers : Z) (r : BenchmarkRunner) (w : World) (t : Tick) :
  snd (snd (fst (stress_body sleep workers (r, w) t))) = w
  /\ args (fst (snd (fst (stress_body sleep workers (r, w) t)))) = args r
  /\ cpu_count (fst (snd (fst (stress_body sleep workers (r, w) t)))) = cpu_count r
  /\ worker_pool (fst (snd (fst (stress_body sleep workers (r, w) t)))) = worker_pool r
  /\ csv_writer (fst (snd (fst (stress_body sleep workers (r, w) t)))) = csv_writer r
  /\ SensorReader.sensor (sensor (fst (snd (fst (stress_body sleep workers (r, w) t)))))
     = SensorReader.sensor (sensor r).
Proof.
  unfold stress_body. pose proof (read_flag (sensor r) (answer t)) as Hf.
  destruct (SensorReader.read (sensor r) (answer t)) as [[logs [rd|]] sr];
    cbn [fst snd] in *.
  - pose proof (sampled_keeps (is_none (start_battery_pct (with_sensor r sr)))
                  (with_sensor r sr) t rd 100 workers) as Hk.
    destruct (sampled _ (with_sensor r sr) t rd 100 workers) as [[out r'] e].
    cbn [fst snd] in *. destruct Hk as (-> & -> & -> & -> & ->).
    repeat split. exact Hf.
  - repeat split. exact Hf.
Qed.

Lemma stress_body_steady (a : Args) (n workers : Z)
  (s : BenchmarkRunner * World) (t : Tick) :
  steady a n s -> steady a n (snd (fst (stress_body sleep workers s t))).
Proof.
  destruct s as [r w]. unfold steady. cbn [fst snd].
  destruct (stress_body_frame workers r w t) as (Hw & Ha & Hn & Hp & Hc & Hf).
  destruct (snd (fst (stress_body sleep workers (r, w) t))) as [r' w'].
  cbn [fst snd] in *. subst w'. rewrite Ha, Hn, Hp, Hc, Hf. exact (fun H => H).
Qed.

Lemma stress_body_tidy (workers : Z) (s : BenchmarkRunner * World) (t : Tick) :
  tidy s = true -> tidy (snd (fst (stress_body sleep workers s t))) = true.
Proof.
  destruct s as [r w]. unfold tidy. cbn [fst snd].
  destruct (stress_body_frame workers r w t) as (Hw & _ & _ & Hp & _).
  destruct (snd (fst (stress_body sleep workers (r, w) t))) as [r' w'].
  cbn [fst snd] in *. subst w'. rewrite Hp. exact (fun H => H).
Qed.

Lemma stress_body_ending (workers : Z) (s : BenchmarkRunner * World) (t : Tick) :
  snd (stress_body sleep workers s t) <> Some Pending
  /\ switches_of (fst (fst (stress_body sleep workers s t))) = []
  /\ ((forall x, answer t = Some x -> Ina219.is_charging x = true) ->
      snd (stress_body sleep workers s t) <> Some Ended
      /\ existsb is_threshold_reached (fst (fst (stress_body sleep workers s t))) = false)
  /\ (forall x, snd (stress_body sleep workers s t) = Some (Raised x) ->
      (x = percent_error (cells (args (fst s)))
       /\ exists v, calculate_battery_percent v (cells (args (fst s))) = None)
      \/ (x = OSError /\ csv_writer (fst s) = true)
      \/ sleep (interval (args (fst s))) = Some x).
Proof.
  destruct s as [r w]. unfold stress_body.
  pose proof (read_charging (sensor r) (answer t)) as Hc.
  pose proof (read_quiet (sensor r) (answer t)) as (_ & Hq2 & Hq3).
  destruct (SensorReader.read (sensor r) (answer t)) as [[logs [rd|]] sr];
    cbn [fst snd] in *.
  - match goal with
    | |- context [sampled ?f ?r1 ?t ?rd ?l ?wk] =>
        pose proof (sampled_ending f r1 t rd l wk) as (H1 & H2 & H3 & H4);
        pose proof (sampled_keeps f r1 t rd l wk) as (Ka & _);
        destruct (sampled f r1 t rd l wk) as [[out r'] e]
    end.
    cbn [fst snd] in *. split; [apply pause_not_pending; exact H1|].
    split; [rewrite switches_of_app, Hq2, H4; reflexivity|].
    split.
    + intros Ht. destruct (Hc rd eq_refl) as (x & Ex & _ & Ech).
      rewrite Ech, (Ht x Ex) in H2. destruct (H2 eq_refl) as [H5 H6].
      split; [intros E; apply H5; exact (pause_ended sleep _ _ E)|].
      rewrite existsb_app, Hq3, H6. reflexivity.
    + intros x Ex. destruct (pause_raised sleep _ _ _ Ex) as [Ee|Es].
      * destruct (H3 x Ee) as [[-> Hz]|[-> Hw]].
        -- left. split; [reflexivity|]. eexists. exact Hz.
        -- right. left. split; [reflexivity | exact Hw].
      * right. right. rewrite Ka in Es. exact Es.
  - split; [apply pause_not_pending; discriminate|]. split; [exact Hq2|].
    split.
    + intros _. split; [intros E; discriminate (pause_ended sleep _ _ E) | exact Hq3].
    + intros x Ex. destruct (pause_raised sleep _ _ _ Ex) as [Ee|Es];
        [discriminate Ee|]. right. right. exact Es.
Qed.

Lemma index_load_levels (i : Z) :
  0 <= i < 5 ->
  index load_levels i = Some (nth (Z.to_nat i) load_levels 0)
  /\ In (nth (Z.to_nat i) load_levels 0) load_levels.
Proof.
  intros H.
  assert (E : i = 0 \/ i = 1 \/ i = 2 \/ i = 3 \/ i = 4) by lia.
  destruct E as [->|[->|[->|[->| ->]]]]; cbn; intuition.
Qed.

(** One turn of the cyclic loop, from a state the loop keeps: the level
    turns or not, the target is computed, the pool is resized, the sensor
    read and the reading sampled. *)
Lemma cyclic_body_turn (a : Args) (n : Z) (c : Cycle) (r : BenchmarkRunner)
  (w : World) (t : Tick) :
  steady_cycle a n (c, (r, w)) ->
  let turn := Py.ge (monotonic t - cycle_start c)%float (cycle_duration a) in
  let i := if turn then (level_idx c + 1) mod 5 else level_idx c in
  let load := nth (Z.to_nat i) load_levels 0 in
  let logs := if turn then [Switching load] else [] in
  let c1 := {| cycle_start := if turn then monotonic_again t else cycle_start c;
               level_idx := i; first_sample := first_sample c |} in
  0 <= i < 5
  /\ In load load_levels
  /\ ((exists e, target_workers n load = inl e
                 /\ cyclic_body is_alive sleep (c, (r, w)) t
                    = (logs, (c1, (r, w)), Some (Raised e)))
      \/ (exists (k workers : Z) (p : WorkerPool) (w' : World),
            target_workers n load = inr k
            /\ (set_worker_count is_alive (worker_pool r) w k = Some (workers, p, w')
                /\ max_workers p = max_workers (worker_pool r))
            /\ paired p
            /\ (tidy (r, w) = true -> settled (UpsBenchmark.workers p) (calls w') = true)
            /\ cyclic_body is_alive sleep (c, (r, w)) t
               = let '(rlogs, reading, sr) :=
                   SensorReader.read (sensor r) (answer t) in
                 let r1 := with_sensor (with_pool r p) sr in
                 match reading with
                 | None => (logs ++ rlogs, (c1, (r1, w')), pause sleep r1 None)
                 | Some rd =>
                     let '(out, r2, e) :=
                       sampled (first_sample c) r1 t rd load workers in
                     (logs ++ rlogs ++ out,
                      ({| cycle_start := cycle_start c1; level_idx := i;
                          first_sample :=
                            match e with
                            | Some (Raised _) => first_sample c
                            | _ => false
                            end |}, (r2, w')), pause sleep r2 e)
                 end)).
Proof.
  intros [Hi (Ha & Hn & Hc & Hf & Hp)] turn i load logs c1.
  cbn [fst snd] in Hi, Ha, Hn, Hc, Hf, Hp.
  assert (Hi' : 0 <= i < 5).
  { subst i. destruct turn; [apply Z.mod_pos_bound; lia | exact Hi]. }
  destruct (index_load_levels i Hi') as [Hidx Hin].
  split; [exact Hi'|]. split; [exact Hin|].
  unfold cyclic_body. rewrite Ha, Hn.
  change (Z.of_nat (List.length load_levels)) with 5.
  fold turn.
  assert (Ec : (if turn
                then {| cycle_start := monotonic_again t;
                        level_idx := (level_idx c + 1) mod 5;
                        first_sample := first_sample c |}
                else c) = c1).
  { subst c1 i. destruct turn; [reflexivity | destruct c; reflexivity]. }
  rewrite Ec. change (level_idx c1) with i. rewrite Hidx. fold load. fold logs.
  destruct (target_workers n load) as [e|k].
  - left. exists e. split; reflexivity.
  - right.
    destruct (set_worker_count_paired is_alive (worker_pool r) w k Hp)
      as (workers & p & w' & Eswc & Hp' & Hmax).
    exists k, workers, p, w'. rewrite Eswc.
    split; [reflexivity|]. split; [split; [reflexivity | exact Hmax]|].
    split; [exact Hp'|].
    split; [exact (set_worker_count_settled is_alive _ _ _ _ _ _ Eswc)|].
    cbn [sensor with_pool].
    destruct (SensorReader.read (sensor r) (answer t)) as [[rlogs [rd|]] sr];
      reflexivity.
Qed.


Lemma cyclic_body_steady (a : Args) (n : Z)
  (s : Cycle * (BenchmarkRunner * World)) (t : Tick) :
  steady_cycle a n s ->
  steady_cycle a n (snd (fst (cyclic_body is_alive sleep s t)))
  /\ (tidy (snd s) = true ->
      tidy (snd (snd (fst (cyclic_body is_alive sleep s t)))) = true).
Proof.
  destruct s as [c [r w]]. intros Hst.
  destruct (cyclic_body_turn a n c r w t Hst)
    as (Hi & _ & [(e & _ & Eb)|(k & workers & p & w' & _ & _ & Hp & Hs & Eb)]);
    rewrite Eb; clear Eb;
    destruct Hst as [_ (Ha & Hn & Hc & Hf & Hp0)]; cbn [fst snd] in *.
  - split; [|exact (fun H => H)]. split; [exact Hi|]. repeat split; assumption.
  - pose proof (read_flag (sensor r) (answer t)) as Hfl.
    destruct (SensorReader.read (sensor r) (answer t)) as [[rlogs [rd|]] sr];
      cbn [fst snd] in *.
    + match goal with
      | |- context [sampled ?f ?r1 ?t ?rd ?l ?wk] =>
          pose proof (sampled_keeps f r1 t rd l wk) as Hk;
          destruct (sampled f r1 t rd l wk) as [[out r2] e]
      end. cbn [fst snd] in *.
      destruct Hk as (Ka & Kn & Kp & Ks & Kc).
      split.
      * split; [exact Hi|]. unfold steady. cbn [fst snd].
        rewrite Ka, Kn, Kp, Ks, Kc. cbn. rewrite Hfl. repeat split; assumption.
      * unfold tidy at 2. cbn [fst snd]. rewrite Kp. exact Hs.
    + split.
      * split; [exact Hi|]. unfold steady. cbn. rewrite Hfl. repeat split; assumption.
      * exact Hs.
Qed.

Lemma cyclic_body_ending (a : Args) (n : Z)
  (s : Cycle * (BenchmarkRunner * World)) (t : Tick) :
  steady_cycle a n s ->
  snd (cyclic_body is_alive sleep s t) <> Some Pending
  /\ ((forall x, answer t = Some x -> Ina219.is_charging x = true) ->
      snd (cyclic_body is_alive sleep s t) <> Some Ended
      /\ existsb is_threshold_reached (fst (fst (cyclic_body is_alive sleep s t)))
         = false)
  /\ (forall x, snd (cyclic_body is_alive sleep s t) = Some (Raised x) ->
      (x = percent_error (cells a) /\ exists v, calculate_battery_percent v (cells a) = None)
      \/ (x = OSError /\ no_csv a = false)
      \/ (exists load, In load load_levels /\ target_workers n load = inl x)
      \/ sleep (interval a) = Some x).
Proof.
  destruct s as [c [r w]]. intros Hst.
  destruct (cyclic_body_turn a n c r w t Hst)
    as (Hi & Hin & [(e & Et & Eb)|(k & workers & p & w' & _ & _ & Hp & Hs & Eb)]);
    rewrite Eb; clear Eb;
    destruct Hst as [_ (Ha & Hn & Hc & Hf & _)]; cbn [fst snd] in *.
  - split; [discriminate|]. split.
    + intros _. split; [discriminate|]. destruct (Py.ge _ _); reflexivity.
    + intros x E. injection E as <-. right. right. left.
      eexists. split; [exact Hin | exact Et].
  - pose proof (read_charging (sensor r) (answer t)) as Hch.
    pose proof (read_quiet (sensor r) (answer t)) as (_ & _ & Hq3).
    destruct (SensorReader.read (sensor r) (answer t)) as [[rlogs [rd|]] sr];
      cbn [fst snd] in *.
    + match goal with
      | |- context [sampled ?f ?r1 ?t ?rd ?l ?wk] =>
          pose proof (sampled_ending f r1 t rd l wk) as (H1 & H2 & H3 & _);
          pose proof (sampled_keeps f r1 t rd l wk) as (Ka & _);
          destruct (sampled f r1 t rd l wk) as [[out r2] e]
      end. cbn [fst snd] in *.
      split; [apply pause_not_pending; exact H1|]. split.
      * intros Ht. destruct (Hch rd eq_refl) as (x & Ex & _ & Ech).
        rewrite Ech, (Ht x Ex) in H2. destruct (H2 eq_refl) as [H5 H6].
        split; [intros E; apply H5; exact (pause_ended sleep _ _ E)|].
        rewrite !existsb_app, Hq3, H6.
        destruct (Py.ge _ _); reflexivity.
      * intros x Ex. destruct (pause_raised sleep _ _ _ Ex) as [Ee|Es].
        -- destruct (H3 x Ee) as [[-> Hz]|[-> Hw]].
           ++ left. split; [rewrite <- Ha; reflexivity|]. eexists.
              rewrite <- Ha. exact Hz.
           ++ right. left. split; [reflexivity|]. cbn in Hw. rewrite Hc in Hw.
              destruct (no_csv a); [discriminate Hw | reflexivity].
        -- right. right. right. rewrite Ka in Es. cbn in Es. rewrite Ha in Es.
           exact Es.
    + split; [apply pause_not_pending; discriminate|]. split.
      * intros _. split; [intros E; discriminate (pause_ended sleep _ _ E)|].
        rewrite existsb_app, Hq3. destruct (Py.ge _ _); reflexivity.
      * intros x Ex. destruct (pause_raised sleep _ _ _ Ex) as [Ee|Es];
          [discriminate Ee|]. right. right. right. cbn in Es. rewrite Ha in Es.
        exact Es.
Qed.

End Bodies.

(** ** The run, from its checks to its [finally] *)

Section Run.

Variable is_alive : handle -> bool.
Variable sleep : float -> option Exn.

Lemma with_ticks_self (env : Env) : with_ticks env (ticks env) = env.
Proof. destruct env. reflexivity. Qed.

(** The three ways through the checks of [run], the ticks left open. *)
Lemma main_by_ticks (a : Args) (cores : Z) (w : World) (env : Env) :
  (exists out r',
     (forall l, main is_alive sleep a cores w (with_ticks env l)
                = (out, (r', w), Returned 1))
     /\ worker_pool r' = init cores
     /\ notes_of out = [] /\ switches_of out = []
     /\ existsb is_threshold_reached out = false
     /\ check_fails a env)
  \/ (exists e r',
        (forall l, main is_alive sleep a cores w (with_ticks env l)
                   = ([], (r', w), Raise e))
        /\ worker_pool r' = init cores
        /\ ~ check_fails a env
        /\ ((e = percent_error (cells a)
             /\ forall v, calculate_battery_percent v (cells a) = None)
            \/ (e = OSError /\ no_csv a = false)))
  \/ (exists x pct r0,
        init_ok env = true /\ first_answer env = Some x
        /\ calculate_battery_percent (Ina219.voltage x) (cells a) = Some pct
        /\ Py.ge (threshold a) pct = false
        /\ steady a cores (r0, w)
        /\ start_battery_pct r0 = None
        /\ worker_pool r0 = init cores
        /\ forall l,
           main is_alive sleep a cores w (with_ticks env l)
           = let '(out, (r, w'), e) :=
               match profile a with
               | stress => run_stress is_alive sleep r0 w l
               | cyclic => run_cyclic is_alive sleep (cycle_began env) r0 w l
               end in
             match e with
             | Pending => (out, (r, w'), Running)
             | Ended =>
                 let '(out', s, res) := finally is_alive r w' (last_answer env) None in
                 (out ++ out', s, res)
             | Raised x =>
                 let '(out', s, res) :=
                   finally is_alive r w' (last_answer env) (Some x) in
                 (out ++ out', s, res)
             end).
Proof.
  assert (Hm : forall l,
            main is_alive sleep a cores w (with_ticks env l)
            = run is_alive sleep (new a cores) w (with_ticks env l)) by reflexivity.
  assert (Hl : forall A B C D : Prop, D -> (D -> A /\ B /\ C) -> A /\ B /\ C /\ D)
    by (intros A B C D HD H; destruct (H HD) as (HA & HB & HC); repeat split; assumption).
  destruct (init_ok env) eqn:Ei.
  2:{ left. eexists. eexists. split.
      - intros l. rewrite Hm. unfold run, new, SensorReader.initialize.
        cbn [with_ticks init_ok]. rewrite Ei. reflexivity.
      - repeat split. left. exact Ei. }
  destruct (first_answer env) as [x|] eqn:Ef.
  2:{ left. eexists. eexists. split.
      - intros l. rewrite Hm.
        unfold run, new, SensorReader.initialize, SensorReader.read.
        cbn [with_ticks init_ok first_answer]. rewrite Ei, Ef. reflexivity.
      - repeat split. right. left. exact Ef. }
  destruct (calculate_battery_percent (Ina219.voltage x) (cells a)) as [pct|] eqn:Ep.
  2:{ right. left. exists (percent_error (cells a)). eexists. split; [|split; [|split]].
      - intros l. rewrite Hm.
        unfold run, new, SensorReader.initialize, SensorReader.read.
        cbn [with_ticks init_ok first_answer]. rewrite Ei, Ef.
        cbn -[calculate_battery_percent].
        change (Ina219.bus_voltage x + Ina219.shunt_voltage x)%float
          with (Ina219.voltage x).
        rewrite Ep. reflexivity.
      - reflexivity.
      - intros [H|[H|(y & q & H1 & H2 & _)]]; congruence.
      - left. split; [reflexivity|]. intros v.
        unfold calculate_battery_percent, Py.div in *.
        destruct (Py.converted (cells a)); [|reflexivity].
        destruct (PrimFloat.eqb _ 0); [reflexivity | discriminate Ep]. }
  destruct (Py.ge (threshold a) pct) eqn:Et.
  { left. eexists. eexists. split.
    - intros l. rewrite Hm. unfold run, new, SensorReader.initialize, SensorReader.read.
      cbn [with_ticks init_ok first_answer]. rewrite Ei, Ef.
      cbn -[calculate_battery_percent Py.ge].
      change (Ina219.bus_voltage x + Ina219.shunt_voltage x)%float
        with (Ina219.voltage x).
      rewrite Ep, Et. reflexivity.
    - repeat split. right. right. exists x, pct. repeat split; assumption. }
  assert (Hno : ~ check_fails a env)
    by (intros [H|[H|(y & q & H1 & H2 & H3)]]; congruence).
  destruct (no_csv a) eqn:En; [|destruct (csv_opens env) eqn:Eo].
  - right. right. exists x, pct. eexists.
    split; [reflexivity|]. split; [reflexivity|]. split; [exact Ep|].
    split; [exact Et|]. apply Hl.
    + intros l. rewrite Hm.
      unfold run, new, SensorReader.initialize, SensorReader.read, setup_csv.
      cbn [with_ticks init_ok first_answer csv_opens]. rewrite Ei, Ef.
      cbn -[calculate_battery_percent Py.ge run_stress run_cyclic finally].
      change (Ina219.bus_voltage x + Ina219.shunt_voltage x)%float
        with (Ina219.voltage x).
      rewrite Ep, Et, En. reflexivity.
    + intros _. split; [unfold steady; cbn; rewrite En; repeat split|].
      split; reflexivity.
  - right. right. exists x, pct. eexists.
    split; [reflexivity|]. split; [reflexivity|]. split; [exact Ep|].
    split; [exact Et|]. apply Hl.
    + intros l. rewrite Hm.
      unfold run, new, SensorReader.initialize, SensorReader.read, setup_csv.
      cbn [with_ticks init_ok first_answer csv_opens]. rewrite Ei, Ef.
      cbn -[calculate_battery_percent Py.ge run_stress run_cyclic finally].
      change (Ina219.bus_voltage x + Ina219.shunt_voltage x)%float
        with (Ina219.voltage x).
      rewrite Ep, Et, En, Eo. reflexivity.
    + intros _. split; [unfold steady; cbn; rewrite En; repeat split|].
      split; reflexivity.
  - right. left. exists OSError. eexists. split; [|split; [|split]].
    + intros l. rewrite Hm.
      unfold run, new, SensorReader.initialize, SensorReader.read, setup_csv.
      cbn [with_ticks init_ok first_answer csv_opens]. rewrite Ei, Ef.
      cbn -[calculate_battery_percent Py.ge run_stress run_cyclic finally].
      change (Ina219.bus_voltage x + Ina219.shunt_voltage x)%float
        with (Ina219.voltage x).
      rewrite Ep, Et, En, Eo. reflexivity.
    + reflexivity.
    + exact Hno.
    + right. split; reflexivity.
Qed.

(** The same, for the ticks of the environment. *)
Lemma main_cases (a : Args) (cores : Z) (w : World) (env : Env) :
  (exists out r',
     main is_alive sleep a cores w env = (out, (r', w), Returned 1)
     /\ worker_pool r' = init cores
     /\ notes_of out = [] /\ switches_of out = []
     /\ existsb is_threshold_reached out = false
     /\ check_fails a env)
  \/ (exists e r',
        main is_alive sleep a cores w env = ([], (r', w), Raise e)
        /\ worker_pool r' = init cores
        /\ ~ check_fails a env
        /\ ((e = percent_error (cells a)
             /\ forall v, calculate_battery_percent v (cells a) = None)
            \/ (e = OSError /\ no_csv a = false)))
  \/ (exists x pct r0,
        init_ok env = true /\ first_answer env = Some x
        /\ calculate_battery_percent (Ina219.voltage x) (cells a) = Some pct
        /\ Py.ge (threshold a) pct = false
        /\ steady a cores (r0, w)
        /\ start_battery_pct r0 = None
        /\ worker_pool r0 = init cores
        /\ main is_alive sleep a cores w env
           = let '(out, (r, w'), e) :=
               match profile a with
               | stress => run_stress is_alive sleep r0 w (ticks env)
               | cyclic => run_cyclic is_alive sleep (cycle_began env) r0 w (ticks env)
               end in
             match e with
             | Pending => (out, (r, w'), Running)
             | Ended =>
                 let '(out', s, res) := finally is_alive r w' (last_answer env) None in
                 (out ++ out', s, res)
             | Raised x =>
                 let '(out', s, res) :=
                   finally is_alive r w' (last_answer env) (Some x) in
                 (out ++ out', s, res)
             end).
Proof.
  destruct (main_by_ticks a cores w env)
    as [(out & r' & E & H)
       |[(e & r' & E & H)
        |(x & pct & r0 & Ei & Ef & Ec & Et & Hst & Hn & Hp & E)]];
    specialize (E (ticks env)); rewrite with_ticks_self in E.
  - left. exists out, r'. split; assumption.
  - right. left. exists e, r'. split; assumption.
  - right. right. exists x, pct, r0. repeat (split; [assumption|]). exact E.
Qed.

Lemma run_stress_while (a : Args) (n : Z) (r : BenchmarkRunner) (w : World) :
  steady a n (r, w) ->
  exists (k : Z) (p : WorkerPool) (w' : World),
    steady a n (with_pool r p, w')
    /\ (tidy (r, w) = true -> tidy (with_pool r p, w') = true)
    /\ forall ticks,
       run_stress is_alive sleep r w ticks
       = while _ (stress_body sleep k) (with_pool r p, w') ticks.
Proof.
  intros (Ha & Hn & Hc & Hf & Hp). cbn [fst snd] in *.
  destruct (set_worker_count_paired is_alive (worker_pool r) w (cpu_count r) Hp)
    as (k & p & w' & E & Hp' & _).
  exists k, p, w'. split; [|split].
  - unfold steady. cbn. repeat split; assumption.
  - exact (set_worker_count_settled is_alive _ _ _ _ _ _ E).
  - intros ticks. unfold run_stress. rewrite E. reflexivity.
Qed.

Lemma run_cyclic_while (began : float) (r : BenchmarkRunner) (w : World)
  (ticks : list Tick) :
  run_cyclic is_alive sleep began r w ticks
  = (fst (fst (while _ (cyclic_body is_alive sleep)
                 ({| cycle_start := began; level_idx := 0; first_sample := true |},
                  (r, w)) ticks)),
     snd (snd (fst (while _ (cyclic_body is_alive sleep)
                      ({| cycle_start := began; level_idx := 0;
                          first_sample := true |}, (r, w)) ticks))),
     snd (while _ (cyclic_body is_alive sleep)
            ({| cycle_start := began; level_idx := 0; first_sample := true |},
             (r, w)) ticks)).
Proof.
  unfold run_cyclic.
  destruct (while _ (cyclic_body is_alive sleep) _ ticks) as [[out [c s]] e]. reflexivity.
Qed.

Lemma steady_cycle_start (a : Args) (n : Z) (began : float)
  (s : BenchmarkRunner * World) :
  steady a n s ->
  steady_cycle a n
    ({| cycle_start := began; level_idx := 0; first_sample := true |}, s).
Proof. intros H. split; [cbn; lia | exact H]. Qed.

(** The loop of either profile, from a state it keeps. *)
Lemma profile_steady (a : Args) (n : Z) (began : float) (r : BenchmarkRunner)
  (w : World) (ticks : list Tick) :
  steady a n (r, w) ->
  steady a n
    (snd (fst (match profile a with
               | stress => run_stress is_alive sleep r w ticks
               | cyclic => run_cyclic is_alive sleep began r w ticks
               end)))
  /\ (tidy (r, w) = true ->
      tidy (snd (fst (match profile a with
                      | stress => run_stress is_alive sleep r w ticks
                      | cyclic => run_cyclic is_alive sleep began r w ticks
                      end))) = true).
Proof.
  intros Hs. destruct (profile a).
  - destruct (run_stress_while a n r w Hs) as (k & p & w' & Hs' & Ht & E).
    rewrite E. split.
    + apply while_preserves; [|exact Hs']. intros s t. apply stress_body_steady.
    + intros H. apply while_preserves; [|exact (Ht H)].
      intros s t. apply stress_body_tidy.
  - rewrite run_cyclic_while. cbn [fst snd].
    pose proof (while_preserves _ (cyclic_body is_alive sleep)
                  (fun s => steady_cycle a n s /\ (tidy (r, w) = true -> tidy (snd s) = true)))
      as H.
    destruct (H (fun s t Hst =>
                   conj (proj1 (cyclic_body_steady is_alive sleep a n s t (proj1 Hst)))
                        (fun Hw => proj2 (cyclic_body_steady is_alive sleep a n s t (proj1 Hst))
                                     (proj2 Hst Hw)))
                ticks
                ({| cycle_start := began; level_idx := 0; first_sample := true |}, (r, w))
                (conj (steady_cycle_start a n began (r, w) Hs) (fun Hw => Hw)))
      as [[_ H1] H2].
    split; [exact H1 | exact H2].
Qed.

Lemma profile_stops (a : Args) (n : Z) (began : float) (r : BenchmarkRunner)
  (w : World) (ticks : list Tick) :
  steady a n (r, w) ->
  (exists t, In t ticks /\ running t = false) ->
  snd (match profile a with
       | stress => run_stress is_alive sleep r w ticks
       | cyclic => run_cyclic is_alive sleep began r w ticks
       end) <> Pending.
Proof.
  intros Hs Hex. destruct (profile a).
  - destruct (run_stress_while a n r w Hs) as (k & p & w' & Hs' & _ & E). rewrite E.
    apply (while_stops _ _ (steady a n)); [| |exact Hs'|exact Hex].
    + intros s t. apply stress_body_steady.
    + intros s t _. apply stress_body_ending.
  - rewrite run_cyclic_while. cbn [snd].
    apply (while_stops _ _ (steady_cycle a n)); [| | |exact Hex].
    + intros s t H. apply (cyclic_body_steady is_alive sleep a n s t H).
    + intros s t H. apply (cyclic_body_ending is_alive sleep a n s t H).
    + apply steady_cycle_start. exact Hs.
Qed.


Lemma print_summary_spec (r : BenchmarkRunner) (answer : option Ina219.Reading) :
  worker_pool (snd (fst (print_summary r answer))) = worker_pool r
  /\ notes_of (fst (fst (print_summary r answer))) = []
  /\ switches_of (fst (fst (print_summary r answer))) = []
  /\ existsb is_threshold_reached (fst (fst (print_summary r answer))) = false
  /\ (forall e, snd (print_summary r answer) = Some e ->
      e = percent_error (cells (args r))
      /\ exists v, calculate_battery_percent v (cells (args r)) = None).
Proof.
  unfold print_summary.
  pose proof (read_quiet (sensor r) answer) as (Hq1 & Hq2 & Hq3).
  destruct (SensorReader.read (sensor r) answer) as [[logs [rd|]] s];
    cbn [fst snd] in *.
  - destruct (calculate_battery_percent (voltage rd) (cells (args r))) eqn:Ep;
      cbn [fst snd].
    + rewrite notes_of_app, switches_of_app, existsb_app, Hq1, Hq2, Hq3.
      destruct (start_battery_pct r); repeat split; try reflexivity; congruence.
    + repeat split; try assumption; try congruence.
      eexists. exact Ep.
  - repeat split; try assumption; try reflexivity; congruence.
Qed.

(** The [finally] of [run] leaves an empty pool and no worker behind. *)
Lemma finally_spec (r : BenchmarkRunner) (w : World)
  (answer : option Ina219.Reading) (e : option Exn) :
  settled (workers (worker_pool r)) (calls w) = true ->
  workers (worker_pool (fst (snd (fst (finally is_alive r w answer e))))) = []
  /\ stop_events (worker_pool (fst (snd (fst (finally is_alive r w answer e))))) = []
  /\ all_joined (calls (snd (snd (fst (finally is_alive r w answer e))))) = true.
Proof.
  intros Hs. unfold finally.
  destruct (shutdown_settled is_alive (worker_pool r) w Hs) as (H1 & H2 & H3).
  destruct (shutdown is_alive (worker_pool r) w) as [p w']. cbn [fst snd] in *.
  pose proof (print_summary_spec (with_pool r p) answer) as (Hk & _).
  destruct (print_summary (with_pool r p) answer) as [[out r'] x].
  cbn [fst snd] in *. rewrite Hk. cbn [worker_pool with_pool].
  repeat split; assumption.
Qed.

Lemma finally_result (r : BenchmarkRunner) (w : World)
  (answer : option Ina219.Reading) (e : option Exn) :
  snd (finally is_alive r w answer e) <> Running
  /\ snd (finally is_alive r w answer e) <> Returned 1
  /\ (snd (finally is_alive r w answer e) = Returned 0 -> e = None)
  /\ (forall x, snd (finally is_alive r w answer e) = Raise x ->
      e = Some x
      \/ (x = percent_error (cells (args r))
          /\ exists v, calculate_battery_percent v (cells (args r)) = None))
  /\ notes_of (fst (fst (finally is_alive r w answer e))) = []
  /\ switches_of (fst (fst (finally is_alive r w answer e))) = []
  /\ existsb is_threshold_reached (fst (fst (finally is_alive r w answer e))) = false.
Proof.
  unfold finally.
  destruct (shutdown is_alive (worker_pool r) w) as [p w'].
  pose proof (print_summary_spec (with_pool r p) answer) as (_ & Hq1 & Hq2 & Hq3 & Hx).
  destruct (print_summary (with_pool r p) answer) as [[out r'] [x|]];
    cbn [fst snd] in *.
  - split; [discriminate|]. split; [discriminate|]. split; [discriminate|].
    split; [|repeat split; assumption].
    intros y E. injection E as <-. right. apply Hx. reflexivity.
  - destruct e as [y|].
    + split; [discriminate|]. split; [discriminate|]. split; [discriminate|].
      split; [|repeat split; assumption].
      intros z E. injection E as <-. left. reflexivity.
    + split; [discriminate|]. split; [discriminate|]. split; [reflexivity|].
      split; [|repeat split; assumption]. intros z E. discriminate E.
Qed.

End Run.

(** X16: a run leaves no worker unjoined.  When [run] returns or raises,
    by the threshold, a signal or an exception, its pool is empty and every
    process it started has been joined; and it does return or raise once
    a test of the loop finds [running] false. *)
Theorem run_leaves_no_worker_behind :
  forall (is_alive : handle -> bool) (sleep : float -> option Exn)
         (a : Args) (cores : Z) (w : World)
         (env : Env),
  all_joined (calls w) = true ->
  (snd (main is_alive sleep a cores w env) <> Running ->
   workers (worker_pool (fst (snd (fst (main is_alive sleep a cores w env))))) = []
   /\ stop_events (worker_pool (fst (snd (fst (main is_alive sleep a cores w env))))) = []
   /\ all_joined (calls (snd (snd (fst (main is_alive sleep a cores w env))))) = true)
  /\ ((exists t, In t (ticks env) /\ running t = false) ->
      snd (main is_alive sleep a cores w env) <> Running).
Proof.
  intros is_alive sleep a cores w env Hw.
  destruct (main_cases is_alive sleep a cores w env)
    as [(out & r' & E & Hp & _)
       |[(x & r' & E & Hp & _)
        |(x & pct & r0 & _ & _ & _ & _ & Hst & _ & Hp0 & E)]].
  - rewrite E. cbn [fst snd]. rewrite Hp.
    split; [intros _; repeat split; exact Hw | intros _; discriminate].
  - rewrite E. cbn [fst snd]. rewrite Hp.
    split; [intros _; repeat split; exact Hw | intros _; discriminate].
  - rewrite E. clear E.
    pose proof (profile_steady is_alive sleep a cores (cycle_began env) r0 w (ticks env) Hst)
      as [_ Hs].
    pose proof (profile_stops is_alive sleep a cores (cycle_began env) r0 w (ticks env) Hst)
      as Hstop.
    assert (Hw0 : tidy (r0, w) = true).
    { unfold tidy. cbn [fst snd]. rewrite Hp0. exact Hw. }
    specialize (Hs Hw0).
    destruct (match profile a with
              | stress => run_stress is_alive sleep r0 w (ticks env)
              | cyclic => run_cyclic is_alive sleep (cycle_began env) r0 w (ticks env)
              end) as [[out [r w']] e].
    cbn [fst snd] in Hs, Hstop. unfold tidy in Hs. cbn [fst snd] in Hs.
    destruct e as [|y|].
    + pose proof (finally_spec is_alive r w' (last_answer env) None Hs) as Hf.
      pose proof (finally_result is_alive r w' (last_answer env) None) as (Hr & _).
      destruct (finally is_alive r w' (last_answer env) None) as [[out' s] res].
      cbn [fst snd] in *. split; [intros _; exact Hf | intros _; exact Hr].
    + pose proof (finally_spec is_alive r w' (last_answer env) (Some y) Hs) as Hf.
      pose proof (finally_result is_alive r w' (last_answer env) (Some y)) as (Hr & _).
      destruct (finally is_alive r w' (last_answer env) (Some y)) as [[out' s] res].
      cbn [fst snd] in *. split; [intros _; exact Hf | intros _; exact Hr].
    + cbn [fst snd]. split; [intros H; exfalso; apply H; reflexivity|].
      intros Hex. exfalso. apply (Hstop Hex). reflexivity.
Qed.

(** X17: [run] returns 1 exactly when one of its three checks fails: the
    sensor does not initialise, the first read fails, or the threshold is
    not below the battery's percentage; it has then started no process,
    kept its pool empty and written no sample.  It returns no other code
    than 0 and 1. *)
Theorem run_returns_one_exactly_when_a_check_fails :
  forall (is_alive : handle -> bool) (sleep : float -> option Exn)
         (a : Args) (cores : Z) (w : World) (env : Env),
  (snd (main is_alive sleep a cores w env) = Returned 1 <-> check_fails a env)
  /\ (snd (main is_alive sleep a cores w env) = Returned 1 ->
      snd (snd (fst (main is_alive sleep a cores w env))) = w
      /\ worker_pool (fst (snd (fst (main is_alive sleep a cores w env))))
         = init cores
      /\ notes_of (fst (fst (main is_alive sleep a cores w env))) = [])
  /\ (forall code, snd (main is_alive sleep a cores w env) = Returned code ->
      code = 0 \/ code = 1).
Proof.
  intros is_alive sleep a cores w env.
  destruct (main_cases is_alive sleep a cores w env)
    as [(out & r' & E & Hp & Hn & _ & _ & Hc)
       |[(x & r' & E & Hp & Hno & _)
        |(x & pct & r0 & Ei & Ef & Ec & Et & Hst & _ & Hp0 & E)]].
  - rewrite E. cbn [fst snd]. split; [split; [intros _; exact Hc | reflexivity]|].
    split; [intros _; repeat split; assumption|].
    intros code H. injection H as <-. right. reflexivity.
  - rewrite E. cbn [fst snd].
    split; [split; [discriminate | intros H; contradiction]|].
    split; [discriminate|]. intros code H. discriminate H.
  - assert (Hno : ~ check_fails a env)
      by (intros [H|[H|(y & q & H1 & H2 & H3)]]; congruence).
    rewrite E. clear E.
    destruct (match profile a with
              | stress => run_stress is_alive sleep r0 w (ticks env)
              | cyclic => run_cyclic is_alive sleep (cycle_began env) r0 w (ticks env)
              end) as [[out [r w']] e].
    assert (Hfin : forall o,
              snd (let '(out', s, res) := finally is_alive r w' (last_answer env) o in
                   (out ++ out', s, res)) <> Returned 1
              /\ forall code,
                 snd (let '(out', s, res) := finally is_alive r w' (last_answer env) o in
                      (out ++ out', s, res)) = Returned code -> code = 0 \/ code = 1).
    { intros o.
      pose proof (finally_result is_alive r w' (last_answer env) o) as (_ & H1 & _).
      unfold finally in *.
      destruct (shutdown is_alive (worker_pool r) w') as [p v].
      destruct (print_summary (with_pool r p) (last_answer env)) as [[out' r'] [y|]];
        cbn [fst snd] in *.
      - split; [discriminate | intros code H; discriminate H].
      - destruct o; cbn [snd].
        + split; [discriminate | intros code H; discriminate H].
        + split; [discriminate|]. intros code H. injection H as <-. left. reflexivity. }
    destruct e as [|y|].
    + destruct (Hfin None) as [H1 H2].
      split; [split; [intros H; contradiction | intros H; contradiction]|].
      split; [intros H; contradiction | exact H2].
    + destruct (Hfin (Some y)) as [H1 H2].
      split; [split; [intros H; contradiction | intros H; contradiction]|].
      split; [intros H; contradiction | exact H2].
    + cbn [fst snd]. split; [split; [discriminate | intros H; contradiction]|].
      split; [discriminate | intros code H; discriminate H].
Qed.

(** ** On mains power *)

Section Charging.

Variable is_alive : handle -> bool.
Variable sleep : float -> option Exn.

Lemma profile_charging (a : Args) (n : Z) (began : float) (r : BenchmarkRunner)
  (w : World) (ticks : list Tick) :
  steady a n (r, w) ->
  Forall (fun t => forall x, answer t = Some x -> Ina219.is_charging x = true) ticks ->
  existsb is_threshold_reached
    (fst (fst (match profile a with
               | stress => run_stress is_alive sleep r w ticks
               | cyclic => run_cyclic is_alive sleep began r w ticks
               end))) = false
  /\ (snd (match profile a with
           | stress => run_stress is_alive sleep r w ticks
           | cyclic => run_cyclic is_alive sleep began r w ticks
           end) = Ended ->
      exists t, In t ticks /\ running t = false).
Proof.
  intros Hs Ht. destruct (profile a).
  - destruct (run_stress_while is_alive sleep a n r w Hs) as (k & p & w' & Hs' & _ & E).
    rewrite E. split.
    + apply (while_outputs _ (stress_body sleep k) (steady a n)
               (fun t => forall x, answer t = Some x -> Ina219.is_charging x = true)
               (fun _ o _ => existsb is_threshold_reached o = false)
               (fun _ o => existsb is_threshold_reached o = false));
        try assumption.
      * reflexivity.
      * intros s1 o1 s2 o2 H1 H2. rewrite existsb_app, H1, H2. reflexivity.
      * intros s t. apply stress_body_steady.
      * intros s t o s' _ HT Eb.
        pose proof (stress_body_ending sleep k s t) as (_ & _ & H & _).
        rewrite Eb in H. apply (H HT).
      * intros s t o s' e _ HT Eb.
        pose proof (stress_body_ending sleep k s t) as (_ & _ & H & _).
        rewrite Eb in H. apply (H HT).
    + apply (while_ended _ (stress_body sleep k) (steady a n)
               (fun t => forall x, answer t = Some x -> Ina219.is_charging x = true));
        try assumption.
      * intros s t. apply stress_body_steady.
      * intros s t _ HT.
        pose proof (stress_body_ending sleep k s t) as (_ & _ & H & _). apply (H HT).
  - rewrite run_cyclic_while. cbn [fst snd].
    pose proof (steady_cycle_start a n began (r, w) Hs) as H0. split.
    + apply (while_outputs _ (cyclic_body is_alive sleep) (steady_cycle a n)
               (fun t => forall x, answer t = Some x -> Ina219.is_charging x = true)
               (fun _ o _ => existsb is_threshold_reached o = false)
               (fun _ o => existsb is_threshold_reached o = false));
        try assumption.
      * reflexivity.
      * intros s1 o1 s2 o2 H1 H2. rewrite existsb_app, H1, H2. reflexivity.
      * intros s t H. apply (cyclic_body_steady is_alive sleep a n s t H).
      * intros s t o s' H HT Eb.
        pose proof (cyclic_body_ending is_alive sleep a n s t H) as (_ & H1 & _).
        rewrite Eb in H1. apply (H1 HT).
      * intros s t o s' e H HT Eb.
        pose proof (cyclic_body_ending is_alive sleep a n s t H) as (_ & H1 & _).
        rewrite Eb in H1. apply (H1 HT).
    + apply (while_ended _ (cyclic_body is_alive sleep) (steady_cycle a n)
               (fun t => forall x, answer t = Some x -> Ina219.is_charging x = true));
        try assumption.
      * intros s t H. apply (cyclic_body_steady is_alive sleep a n s t H).
      * intros s t H HT.
        pose proof (cyclic_body_ending is_alive sleep a n s t H) as (_ & H1 & _). apply (H1 HT).
Qed.

End Charging.

(** X18: on mains power the benchmark never stops by itself.  When the
    current of every reading is above zero, no sample reaches the
    threshold, whatever the voltage, and a run that returns 0 was stopped
    by a signal. *)
Theorem charging_never_ends_the_run :
  forall (is_alive : handle -> bool) (sleep : float -> option Exn)
         (a : Args) (cores : Z) (w : World)
         (env : Env),
  (forall t x, In t (ticks env) -> answer t = Some x ->
               Ina219.is_charging x = true) ->
  existsb is_threshold_reached (fst (fst (main is_alive sleep a cores w env))) = false
  /\ (snd (main is_alive sleep a cores w env) = Returned 0 ->
      exists t, In t (ticks env) /\ running t = false).
Proof.
  intros is_alive sleep a cores w env Hch.
  assert (HT : Forall (fun t => forall x, answer t = Some x ->
                                          Ina219.is_charging x = true) (ticks env)).
  { apply Forall_forall. intros t Hin x. apply Hch. exact Hin. }
  destruct (main_cases is_alive sleep a cores w env)
    as [(out & r' & E & _ & _ & _ & Hthr & _)
       |[(x & r' & E & _)
        |(x & pct & r0 & _ & _ & _ & _ & Hst & _ & _ & E)]].
  - rewrite E. cbn [fst snd]. split; [exact Hthr | discriminate].
  - rewrite E. cbn [fst snd]. split; [reflexivity | discriminate].
  - rewrite E. clear E.
    pose proof (profile_charging is_alive sleep a cores (cycle_began env) r0 w (ticks env)
                  Hst HT) as [H1 H2].
    destruct (match profile a with
              | stress => run_stress is_alive sleep r0 w (ticks env)
              | cyclic => run_cyclic is_alive sleep (cycle_began env) r0 w (ticks env)
              end) as [[out [r w']] e].
    cbn [fst snd] in H1, H2.
    destruct e as [|y|].
    + pose proof (finally_result is_alive r w' (last_answer env) None)
        as (_ & _ & _ & _ & _ & _ & H3).
      destruct (finally is_alive r w' (last_answer env) None) as [[out' s] res].
      cbn [fst snd] in *. rewrite existsb_app, H1, H3.
      split; [reflexivity | intros _; apply H2; reflexivity].
    + pose proof (finally_result is_alive r w' (last_answer env) (Some y))
        as (_ & _ & H0 & _ & _ & _ & H3).
      destruct (finally is_alive r w' (last_answer env) (Some y)) as [[out' s] res].
      cbn [fst snd] in *. rewrite existsb_app, H1, H3.
      split; [reflexivity | intros H; discriminate (H0 H)].
    + cbn [fst snd]. split; [exact H1 | discriminate].
Qed.

(** ** At the threshold *)

Section Threshold.

Variable is_alive : handle -> bool.
Variable sleep : float -> option Exn.

Variable a : Args.
Variable n : Z.
Variable t : Tick.
Variable x : Ina219.Reading.
Variable pct : float.

Hypothesis Hanswer : answer t = Some x.
Hypothesis Hdischarging : Ina219.is_charging x = false.
Hypothesis Hpct :
  calculate_battery_percent (Ina219.voltage x) (cells a) = Some pct.
Hypothesis Hlow : Py.le pct (threshold a) = true.

Lemma stress_body_threshold (k : Z) (s : BenchmarkRunner * World) :
  steady a n s -> snd (stress_body sleep k s t) <> None.
Proof.
  destruct s as [r w]. intros (Ha & _ & _ & Hf & _). cbn [fst snd] in *.
  unfold stress_body. rewrite Hanswer.
  destruct (read_some (sensor r) x Hf) as (rd & -> & Hv & Hc).
  match goal with
  | |- context [sampled ?f ?r1 ?t ?rd ?l ?wk] =>
      pose proof (sampled_threshold f r1 t rd l wk pct) as H;
      destruct (sampled f r1 t rd l wk) as [[out r2] e]
  end.
  cbn [fst snd] in *. apply pause_some. apply H.
  - cbn [args with_sensor]. rewrite Hv, Ha. exact Hpct.
  - rewrite Hc. exact Hdischarging.
  - cbn [args with_sensor]. rewrite Ha. exact Hlow.
Qed.

Lemma cyclic_body_threshold (s : Cycle * (BenchmarkRunner * World)) :
  steady_cycle a n s -> snd (cyclic_body is_alive sleep s t) <> None.
Proof.
  destruct s as [c [r w]]. intros Hst.
  destruct (cyclic_body_turn is_alive sleep a n c r w t Hst)
    as (_ & _ & [(e & _ & ->)|(k & workers & p & w' & _ & _ & _ & _ & ->)]);
    [discriminate|].
  destruct Hst as [_ (Ha & _ & _ & Hf & _)]. cbn [fst snd] in *.
  rewrite Hanswer.
  destruct (read_some (sensor r) x Hf) as (rd & -> & Hv & Hc).
  match goal with
  | |- context [sampled ?f ?r1 ?t ?rd ?l ?wk] =>
      pose proof (sampled_threshold f r1 t rd l wk pct) as H;
      destruct (sampled f r1 t rd l wk) as [[out r2] e]
  end.
  cbn [fst snd] in *. apply pause_some. apply H.
  - cbn [args with_sensor with_pool]. rewrite Hv, Ha. exact Hpct.
  - rewrite Hc. exact Hdischarging.
  - cbn [args with_sensor with_pool]. rewrite Ha. exact Hlow.
Qed.

Lemma profile_cut (began : float) (r : BenchmarkRunner) (w : World)
  (pre post : list Tick) :
  steady a n (r, w) ->
  match profile a with
  | stress => run_stress is_alive sleep r w (pre ++ t :: post)
  | cyclic => run_cyclic is_alive sleep began r w (pre ++ t :: post)
  end
  = match profile a with
    | stress => run_stress is_alive sleep r w (pre ++ [t])
    | cyclic => run_cyclic is_alive sleep began r w (pre ++ [t])
    end
  /\ snd (match profile a with
          | stress => run_stress is_alive sleep r w (pre ++ [t])
          | cyclic => run_cyclic is_alive sleep began r w (pre ++ [t])
          end) <> Pending.
Proof.
  intros Hs. destruct (profile a).
  - destruct (run_stress_while is_alive sleep a n r w Hs) as (k & p & w' & Hs' & _ & E).
    rewrite !E.
    apply (while_cut _ (stress_body sleep k) (steady a n)); try assumption.
    + intros s t'. apply stress_body_steady.
    + intros s t' _. apply stress_body_ending.
    + intros s. apply stress_body_threshold.
  - rewrite !run_cyclic_while.
    destruct (while_cut _ (cyclic_body is_alive sleep) (steady_cycle a n) t post
                (fun s t' H => proj1 (cyclic_body_steady is_alive sleep a n s t' H))
                (fun s t' H => proj1 (cyclic_body_ending is_alive sleep a n s t' H))
                cyclic_body_threshold pre
                ({| cycle_start := began; level_idx := 0; first_sample := true |}, (r, w))
                (steady_cycle_start a n began (r, w) Hs)) as [E1 E2].
    rewrite E1. split; [reflexivity | exact E2].
Qed.

End Threshold.

(** X19: a discharging reading at or below the threshold ends the run.
    Whatever would come after the tick of such a reading does not matter:
    the run is the one that has this tick as its last, and it returns or
    raises. *)
Theorem threshold_ends_the_run :
  forall (is_alive : handle -> bool) (sleep : float -> option Exn)
         (a : Args) (cores : Z) (w : World)
         (env : Env) (pre post : list Tick) (t : Tick) (x : Ina219.Reading)
         (pct : float),
  ticks env = pre ++ t :: post ->
  answer t = Some x ->
  Ina219.is_charging x = false ->
  calculate_battery_percent (Ina219.voltage x) (cells a) = Some pct ->
  Py.le pct (threshold a) = true ->
  main is_alive sleep a cores w env
  = main is_alive sleep a cores w (with_ticks env (pre ++ [t]))
  /\ snd (main is_alive sleep a cores w env) <> Running.
Proof.
  intros is_alive sleep a cores w env pre post t x pct Et Ha Hd Hp Hl.
  rewrite <- (with_ticks_self env) at 1 3. rewrite Et.
  destruct (main_by_ticks is_alive sleep a cores w env)
    as [(out & r' & E & _)
       |[(y & r' & E & _)
        |(y & q & r0 & _ & _ & _ & _ & Hst & _ & _ & E)]];
    rewrite !E.
  - split; [reflexivity | discriminate].
  - split; [reflexivity | discriminate].
  - destruct (profile_cut is_alive sleep a cores t x pct Ha Hd Hp Hl (cycle_began env)
                r0 w pre post Hst) as [E1 E2].
    rewrite E1.
    destruct (match profile a with
              | stress => run_stress is_alive sleep r0 w (pre ++ [t])
              | cyclic => run_cyclic is_alive sleep (cycle_began env) r0 w (pre ++ [t])
              end) as [[out [r w']] e].
    split; [reflexivity|]. cbn [snd] in E2.
    destruct e as [|z|]; [| |contradiction].
    + pose proof (finally_result is_alive r w' (last_answer env) None) as (H & _).
      destruct (finally is_alive r w' (last_answer env) None) as [[out' s] res].
      exact H.
    + pose proof (finally_result is_alive r w' (last_answer env) (Some z)) as (H & _).
      destruct (finally is_alive r w' (last_answer env) (Some z)) as [[out' s] res].
      exact H.
Qed.

(** ** The notes of the samples *)

Lemma tagged_false (notes : list string) : tagged false notes = plain notes.
Proof.
  destruct notes as [|x l]; [reflexivity|].
  cbn [tagged plain forallb]. rewrite String.eqb_sym. reflexivity.
Qed.

Lemma tagged_app (first : bool) (n1 n2 : list string) :
  tagged first n1 = true ->
  tagged (first && is_nil n1) n2 = true ->
  tagged first (n1 ++ n2) = true.
Proof.
  destruct n1 as [|x l]; cbn [is_nil app].
  - rewrite andb_true_r. intros _ H. exact H.
  - rewrite andb_false_r, tagged_false. cbn [tagged]. intros H1 H2.
    apply andb_true_iff in H1. destruct H1 as [Hx Hl].
    rewrite Hx. unfold plain in *. rewrite forallb_app, Hl, H2. reflexivity.
Qed.

Section Notes.

Variable is_alive : handle -> bool.
Variable sleep : float -> option Exn.

Lemma stress_body_notes (k : Z) (s : BenchmarkRunner * World) (t : Tick) :
  tagged (is_none (start_battery_pct (fst s)))
    (notes_of (fst (fst (stress_body sleep k s t)))) = true
  /\ (snd (stress_body sleep k s t) = None ->
      is_none (start_battery_pct (fst (snd (fst (stress_body sleep k s t)))))
      = is_none (start_battery_pct (fst s))
        && is_nil (notes_of (fst (fst (stress_body sleep k s t))))).
Proof.
  destruct s as [r w]. unfold stress_body. cbn [fst snd].
  pose proof (read_quiet (sensor r) (answer t)) as (Hq1 & _).
  destruct (SensorReader.read (sensor r) (answer t)) as [[logs [rd|]] sr];
    cbn [fst snd] in *.
  - match goal with
    | |- context [sampled ?f ?r1 ?t ?rd ?l ?wk] =>
        pose proof (sampled_notes f r1 t rd l wk) as (H1 & H2);
        destruct (sampled f r1 t rd l wk) as [[out r2] e]
    end.
    cbn [fst snd start_battery_pct with_sensor] in *.
    rewrite notes_of_app, Hq1. cbn [app]. split; [exact H1|].
    intros E. apply pause_none in E.
    destruct (H2 E) as [H3 H4]. rewrite H3, (H4 eq_refl), andb_false_r.
    reflexivity.
  - rewrite Hq1. cbn [tagged is_nil start_battery_pct with_sensor].
    split; [reflexivity|]. intros _. rewrite andb_true_r. reflexivity.
Qed.

Lemma cyclic_body_notes (a : Args) (n : Z)
  (s : Cycle * (BenchmarkRunner * World)) (t : Tick) :
  steady_cycle a n s ->
  tagged (first_sample (fst s))
    (notes_of (fst (fst (cyclic_body is_alive sleep s t)))) = true
  /\ (snd (cyclic_body is_alive sleep s t) = None ->
      first_sample (fst (snd (fst (cyclic_body is_alive sleep s t))))
      = first_sample (fst s)
        && is_nil (notes_of (fst (fst (cyclic_body is_alive sleep s t))))).
Proof.
  destruct s as [c [r w]]. intros Hst.
  destruct (cyclic_body_turn is_alive sleep a n c r w t Hst)
    as (_ & _ & [(e & _ & ->)|(k & workers & p & w' & _ & _ & _ & _ & ->)]);
    cbn [fst snd].
  - split; [destruct (Py.ge _ _); reflexivity | discriminate].
  - assert (Hlogs : forall load,
              notes_of (if Py.ge (monotonic t - cycle_start c) (cycle_duration a)
                        then [Switching load] else []) = [])
      by (intros load; destruct (Py.ge _ _); reflexivity).
    pose proof (read_quiet (sensor r) (answer t)) as (Hq1 & _).
    destruct (SensorReader.read (sensor r) (answer t)) as [[logs [rd|]] sr];
      cbn [fst snd] in *.
    + match goal with
      | |- context [sampled ?f ?r1 ?t ?rd ?l ?wk] =>
          pose proof (sampled_notes f r1 t rd l wk) as (H1 & H2);
          destruct (sampled f r1 t rd l wk) as [[out r2] e]
      end.
      cbn [fst snd first_sample] in *.
      rewrite !notes_of_app, Hlogs, Hq1. cbn [app]. split; [exact H1|].
      intros E. apply pause_none in E.
      destruct (H2 E) as [H3 _]. rewrite E, H3, andb_false_r. reflexivity.
    + cbn [first_sample]. rewrite notes_of_app, Hlogs, Hq1.
      cbn [app tagged is_nil]. split; [reflexivity|]. intros _.
      rewrite andb_true_r. reflexivity.
Qed.

Lemma profile_tagged (a : Args) (n : Z) (began : float) (r : BenchmarkRunner)
  (w : World) (ticks : list Tick) :
  steady a n (r, w) ->
  start_battery_pct r = None ->
  tagged true
    (notes_of (fst (fst (match profile a with
                         | stress => run_stress is_alive sleep r w ticks
                         | cyclic => run_cyclic is_alive sleep began r w ticks
                         end)))) = true.
Proof.
  intros Hs Hn. destruct (profile a).
  - destruct (run_stress_while is_alive sleep a n r w Hs) as (k & p & w' & Hs' & _ & E).
    rewrite E.
    assert (Hflag : is_none (start_battery_pct (fst (with_pool r p, w'))) = true)
      by (cbn; rewrite Hn; reflexivity).
    rewrite <- Hflag at 1.
    apply (while_outputs _ (stress_body sleep k) (fun _ => True) (fun _ => True)
             (fun s o s' =>
                tagged (is_none (start_battery_pct (fst s))) (notes_of o) = true
                /\ is_none (start_battery_pct (fst s'))
                   = is_none (start_battery_pct (fst s)) && is_nil (notes_of o))
             (fun s o =>
                tagged (is_none (start_battery_pct (fst s))) (notes_of o) = true)).
    + intros s. reflexivity.
    + intros s1 o1 s2 o2 [H1 H2] H3. rewrite notes_of_app.
      apply tagged_app; [exact H1 | rewrite <- H2; exact H3].
    + intros s t _. exact I.
    + intros s t o s' _ _ Eb. pose proof (stress_body_notes k s t) as [H1 H2].
      rewrite Eb in H1, H2. split; [exact H1 | apply H2; reflexivity].
    + intros s t o s' e _ _ Eb. pose proof (stress_body_notes k s t) as [H1 _].
      rewrite Eb in H1. exact H1.
    + exact I.
    + apply Forall_forall. intros t _. exact I.
  - rewrite run_cyclic_while. cbn [fst snd].
    apply (while_outputs _ (cyclic_body is_alive sleep) (steady_cycle a n) (fun _ => True)
             (fun s o s' =>
                tagged (first_sample (fst s)) (notes_of o) = true
                /\ first_sample (fst s') = first_sample (fst s) && is_nil (notes_of o))
             (fun s o => tagged (first_sample (fst s)) (notes_of o) = true)
             (fun s => eq_refl)).
    + intros s1 o1 s2 o2 [H1 H2] H3. rewrite notes_of_app.
      apply tagged_app; [exact H1 | rewrite <- H2; exact H3].
    + intros s t H. apply (cyclic_body_steady is_alive sleep a n s t H).
    + intros s t o s' H _ Eb.
      pose proof (cyclic_body_notes a n s t H) as [H1 H2].
      rewrite Eb in H1, H2. split; [exact H1 | apply H2; reflexivity].
    + intros s t o s' e H _ Eb.
      pose proof (cyclic_body_notes a n s t H) as [H1 _].
      rewrite Eb in H1. exact H1.
    + apply steady_cycle_start. exact Hs.
    + apply Forall_forall. intros t _. exact I.
Qed.

End Notes.

(** X20: the first sample of a run, and no other, is noted "test_start":
    the notes of the samples a run writes are empty but for the first one,
    in both profiles. *)
Theorem only_the_first_sample_is_test_start :
  forall (is_alive : handle -> bool) (sleep : float -> option Exn)
         (a : Args) (cores : Z) (w : World)
         (env : Env),
  tagged true (notes_of (fst (fst (main is_alive sleep a cores w env)))) = true.
Proof.
  intros is_alive sleep a cores w env.
  destruct (main_cases is_alive sleep a cores w env)
    as [(out & r' & E & _ & Hn & _)
       |[(x & r' & E & _)
        |(x & pct & r0 & _ & _ & _ & _ & Hst & Hn & _ & E)]].
  - rewrite E. cbn [fst snd]. rewrite Hn. reflexivity.
  - rewrite E. reflexivity.
  - rewrite E. clear E.
    pose proof (profile_tagged is_alive sleep a cores (cycle_began env) r0 w (ticks env)
                  Hst Hn) as H.
    destruct (match profile a with
              | stress => run_stress is_alive sleep r0 w (ticks env)
              | cyclic => run_cyclic is_alive sleep (cycle_began env) r0 w (ticks env)
              end) as [[out [r w']] e].
    cbn [fst snd] in H.
    assert (Hfin : forall o,
              tagged true
                (notes_of (fst (fst (let '(out', s, res) :=
                                       finally is_alive r w' (last_answer env) o in
                                     (out ++ out', s, res))))) = true).
    { intros o.
      pose proof (finally_result is_alive r w' (last_answer env) o)
        as (_ & _ & _ & _ & H1 & _).
      destruct (finally is_alive r w' (last_answer env) o) as [[out' s] res].
      cbn [fst snd] in *. rewrite notes_of_app, H1, app_nil_r. exact H. }
    destruct e as [|y|]; [apply Hfin | apply Hfin | exact H].
Qed.

(** ** The loads of the cyclic profile *)

Lemma target_workers_table :
  forallb (fun n =>
             forallb (fun load =>
                        match target_workers n load with
                        | inr k => Z.eqb k (n * load / 100)
                        | inl _ => false
                        end) load_levels)
    (map Z.of_nat (seq 0 1025)) = true.
Proof. vm_compute. reflexivity. Qed.

Lemma target_workers_floor (cores load : Z) :
  0 <= cores <= 1024 ->
  In load load_levels ->
  target_workers cores load = inr (cores * load / 100).
Proof.
  intros Hc Hl.
  pose proof target_workers_table as H.
  rewrite forallb_forall in H. specialize (H cores).
  assert (Hin : In cores (map Z.of_nat (seq 0 1025))).
  { apply in_map_iff. exists (Z.to_nat cores). split; [lia|].
    apply in_seq. lia. }
  specialize (H Hin). rewrite forallb_forall in H. specialize (H load Hl).
  destruct (target_workers cores load) as [e|k]; [discriminate H|].
  apply Z.eqb_eq in H. subst k. reflexivity.
Qed.

(** X21: on a machine of up to 1024 cores, the number of workers the
    cyclic profile asks for at a load level is the whole part of that
    percentage of the cores: the float division and [int] lose nothing;
    it never exceeds the number of cores. *)
Theorem cyclic_targets_are_whole_parts :
  forall cores load : Z,
  0 <= cores <= 1024 ->
  In load load_levels ->
  target_workers cores load = inr (cores * load / 100)
  /\ 0 <= cores * load / 100 <= cores.
Proof.
  intros cores load Hc Hl. split; [apply target_workers_floor; assumption|].
  assert (0 <= load <= 100) by (cbn in Hl; lia).
  split; [apply Z.div_pos; nia | apply Z.div_le_upper_bound; nia].
Qed.

Lemma cyclic_targets_are_whole_parts_witness :
  target_workers 4 75 = inr 3 /\ target_workers 6 25 = inr 1.
Proof.
  split.
  - apply (cyclic_targets_are_whole_parts 4 75); [lia | cbn; tauto].
  - apply (cyclic_targets_are_whole_parts 6 25); [lia | cbn; tauto].
Defined.

Lemma cycle_from_app (k1 k2 : nat) :
  forall i : Z,
  0 <= i < 5 ->
  cycle_from i (k1 + k2)
  = cycle_from i k1 ++ cycle_from ((i + Z.of_nat k1) mod 5) k2.
Proof.
  induction k1 as [|k1 IH]; intros i Hi.
  - cbn [Nat.add cycle_from app]. rewrite Z.add_0_r, Z.mod_small by exact Hi.
    reflexivity.
  - cbn [Nat.add cycle_from app].
    rewrite IH by (apply Z.mod_pos_bound; lia).
    rewrite Zplus_mod_idemp_l.
    replace (i + 1 + Z.of_nat k1) with (i + Z.of_nat (S k1)) by lia.
    reflexivity.
Qed.

Section Loads.

Variable is_alive : handle -> bool.
Variable sleep : float -> option Exn.

Lemma cyclic_body_switches (a : Args) (n : Z)
  (s : Cycle * (BenchmarkRunner * World)) (t : Tick) :
  steady_cycle a n s ->
  exists k : nat,
    switches_of (fst (fst (cyclic_body is_alive sleep s t)))
    = cycle_from (level_idx (fst s)) k
    /\ level_idx (fst (snd (fst (cyclic_body is_alive sleep s t))))
       = (level_idx (fst s) + Z.of_nat k) mod 5.
Proof.
  destruct s as [c [r w]]. intros Hst.
  pose proof (proj1 Hst) as Hi. cbn [fst] in Hi.
  destruct (cyclic_body_turn is_alive sleep a n c r w t Hst)
    as (_ & _ & [(e & _ & ->)|(k & workers & p & w' & _ & _ & _ & _ & ->)]);
    cbn [fst snd].
  - destruct (Py.ge _ _); [exists 1%nat | exists 0%nat]; cbn [level_idx].
    + split; reflexivity.
    + split; [reflexivity|]. rewrite Z.add_0_r, Z.mod_small by exact Hi. reflexivity.
  - pose proof (read_quiet (sensor r) (answer t)) as (_ & Hq2 & _).
    destruct (SensorReader.read (sensor r) (answer t)) as [[logs [rd|]] sr];
      cbn [fst snd] in *.
    + match goal with
      | |- context [sampled ?f ?r1 ?t ?rd ?l ?wk] =>
          pose proof (sampled_ending f r1 t rd l wk) as (_ & _ & _ & H4);
          destruct (sampled f r1 t rd l wk) as [[out r2] e]
      end.
      cbn [fst snd level_idx] in *. rewrite !switches_of_app, Hq2, H4, !app_nil_r.
      destruct (Py.ge _ _); [exists 1%nat | exists 0%nat].
      * split; reflexivity.
      * split; [reflexivity|]. rewrite Z.add_0_r, Z.mod_small by exact Hi. reflexivity.
    + cbn [level_idx]. rewrite switches_of_app, Hq2, app_nil_r.
      destruct (Py.ge _ _); [exists 1%nat | exists 0%nat].
      * split; reflexivity.
      * split; [reflexivity|]. rewrite Z.add_0_r, Z.mod_small by exact Hi. reflexivity.
Qed.

Lemma profile_switches (a : Args) (n : Z) (began : float) (r : BenchmarkRunner)
  (w : World) (ticks : list Tick) :
  steady a n (r, w) ->
  exists k : nat,
    switches_of (fst (fst (match profile a with
                           | stress => run_stress is_alive sleep r w ticks
                           | cyclic => run_cyclic is_alive sleep began r w ticks
                           end)))
    = match profile a with stress => [] | cyclic => cycle_from 0 k end.
Proof.
  intros Hs. destruct (profile a).
  - exists 0%nat.
    destruct (run_stress_while is_alive sleep a n r w Hs) as (k & p & w' & Hs' & _ & E).
    rewrite E.
    apply (while_outputs _ (stress_body sleep k) (fun _ => True) (fun _ => True)
             (fun _ o _ => switches_of o = [])
             (fun _ o => switches_of o = [])).
    + reflexivity.
    + intros s1 o1 s2 o2 H1 H2. rewrite switches_of_app, H1, H2. reflexivity.
    + intros s t _. exact I.
    + intros s t o s' _ _ Eb. pose proof (stress_body_ending sleep k s t) as (_ & H & _).
      rewrite Eb in H. exact H.
    + intros s t o s' e _ _ Eb. pose proof (stress_body_ending sleep k s t) as (_ & H & _).
      rewrite Eb in H. exact H.
    + exact I.
    + apply Forall_forall. intros t _. exact I.
  - rewrite run_cyclic_while. cbn [fst snd].
    apply (while_outputs _ (cyclic_body is_alive sleep) (steady_cycle a n) (fun _ => True)
             (fun s o s' =>
                exists k : nat,
                  switches_of o = cycle_from (level_idx (fst s)) k
                  /\ level_idx (fst s') = (level_idx (fst s) + Z.of_nat k) mod 5
                  /\ 0 <= level_idx (fst s) < 5)
             (fun s o => exists k : nat, switches_of o = cycle_from (level_idx (fst s)) k)).
    + intros s. exists 0%nat. reflexivity.
    + intros s1 o1 s2 o2 (k1 & H1 & H2 & Hi) (k2 & H3).
      exists (k1 + k2)%nat. rewrite switches_of_app, H1, H3, H2.
      symmetry. apply cycle_from_app. exact Hi.
    + intros s t H. apply (cyclic_body_steady is_alive sleep a n s t H).
    + intros s t o s' H _ Eb.
      destruct (cyclic_body_switches a n s t H) as (k & H1 & H2).
      rewrite Eb in H1, H2. exists k. split; [exact H1|]. split; [exact H2|].
      apply H.
    + intros s t o s' e H _ Eb.
      destruct (cyclic_body_switches a n s t H) as (k & H1 & _).
      rewrite Eb in H1. exists k. exact H1.
    + apply steady_cycle_start. exact Hs.
    + apply Forall_forall. intros t _. exact I.
Qed.

End Loads.

Lemma cycle_from_period (k : nat) :
  cycle_from 0 (5 + k) = [75; 50; 25; 0; 100] ++ cycle_from 0 k.
Proof. rewrite cycle_from_app by lia. reflexivity. Qed.

Lemma cycle_from_repeat (m : nat) :
  forall k : nat,
  (k <= 5 * m)%nat ->
  cycle_from 0 k = firstn k (List.concat (repeat [75; 50; 25; 0; 100] m)).
Proof.
  induction m as [|m IH]; intros k Hk.
  - assert (k = 0%nat) by lia. subst k. reflexivity.
  - cbn [repeat List.concat].
    destruct (Nat.le_gt_cases 5 k) as [H5|H5].
    + replace k with (5 + (k - 5))%nat by lia.
      rewrite cycle_from_period, IH by lia. reflexivity.
    + assert (E : (k = 0 \/ k = 1 \/ k = 2 \/ k = 3 \/ k = 4)%nat) by lia.
      destruct E as [->|[->|[->|[->| ->]]]]; reflexivity.
Qed.

(** X22: the cyclic profile goes through its load levels in the order
    100, 75, 50, 25, 0 and again: it starts at 100 without a word, and the
    loads it announces are the first ones of 75, 50, 25, 0, 100, 75, ...;
    the stress profile announces none. *)
Theorem cyclic_loads_follow_the_cycle :
  forall (is_alive : handle -> bool) (sleep : float -> option Exn)
         (a : Args) (cores : Z) (w : World)
         (env : Env),
  exists k : nat,
    switches_of (fst (fst (main is_alive sleep a cores w env)))
    = match profile a with
      | stress => []
      | cyclic => firstn k (List.concat (repeat [75; 50; 25; 0; 100] k))
      end.
Proof.
  intros is_alive sleep a cores w env.
  assert (Hz : exists k : nat,
            [] = match profile a with
                 | stress => []
                 | cyclic => firstn k (List.concat (repeat [75; 50; 25; 0; 100] k))
                 end).
  { exists 0%nat. destruct (profile a); reflexivity. }
  destruct (main_cases is_alive sleep a cores w env)
    as [(out & r' & E & _ & _ & Hsw & _)
       |[(x & r' & E & _)
        |(x & pct & r0 & _ & _ & _ & _ & Hst & _ & _ & E)]].
  - rewrite E. cbn [fst snd]. rewrite Hsw. exact Hz.
  - rewrite E. exact Hz.
  - rewrite E. clear E Hz.
    destruct (profile_switches is_alive sleep a cores (cycle_began env) r0 w (ticks env) Hst)
      as [k H].
    exists k.
    replace (match profile a with
             | stress => []
             | cyclic => firstn k (List.concat (repeat [75; 50; 25; 0; 100] k))
             end)
      with (match profile a with stress => [] | cyclic => cycle_from 0 k end)
      by (destruct (profile a); [reflexivity | apply cycle_from_repeat; lia]).
    rewrite <- H.
    destruct (match profile a with
              | stress => run_stress is_alive sleep r0 w (ticks env)
              | cyclic => run_cyclic is_alive sleep (cycle_began env) r0 w (ticks env)
              end) as [[out [r w']] e].
    cbn [fst snd].
    assert (Hfin : forall o,
              switches_of (fst (fst (let '(out', s, res) :=
                                       finally is_alive r w' (last_answer env) o in
                                     (out ++ out', s, res)))) = switches_of out).
    { intros o.
      pose proof (finally_result is_alive r w' (last_answer env) o)
        as (_ & _ & _ & _ & _ & H1 & _).
      destruct (finally is_alive r w' (last_answer env) o) as [[out' s] res].
      cbn [fst snd] in *. rewrite switches_of_app, H1, app_nil_r. reflexivity. }
    destruct e as [|y|]; [apply Hfin | apply Hfin | reflexivity].
Qed.

(** ** What a run raises *)

Lemma percent_defined (c : Z) (v v' : float) :
  calculate_battery_percent v c = None -> calculate_battery_percent v' c = None.
Proof.
  unfold calculate_battery_percent, Py.div.
  destruct (Py.converted c); [|reflexivity].
  destruct (PrimFloat.eqb _ 0); [reflexivity | discriminate].
Qed.

(** Which of its two exceptions the percentage raises. *)
Lemma percent_error_cases (c : Z) :
  (percent_error c = OverflowError /\ Py.converted c = None)
  \/ (percent_error c = ZeroDivisionError /\ Py.converted c <> None).
Proof.
  unfold percent_error. destruct (Py.converted c).
  - right. split; [reflexivity | discriminate].
  - left. split; reflexivity.
Qed.

Section Raising.

Variable is_alive : handle -> bool.
Variable sleep : float -> option Exn.

Lemma profile_raised (a : Args) (n : Z) (began : float) (r : BenchmarkRunner)
  (w : World) (ticks : list Tick) (x : Exn) :
  steady a n (r, w) ->
  snd (match profile a with
       | stress => run_stress is_alive sleep r w ticks
       | cyclic => run_cyclic is_alive sleep began r w ticks
       end) = Raised x ->
  (x = percent_error (cells a) /\ exists v, calculate_battery_percent v (cells a) = None)
  \/ (x = OSError /\ no_csv a = false)
  \/ (exists load, In load load_levels /\ target_workers n load = inl x)
  \/ sleep (interval a) = Some x.
Proof.
  intros Hs. destruct (profile a).
  - destruct (run_stress_while is_alive sleep a n r w Hs) as (k & p & w' & Hs' & _ & E).
    rewrite E. intros Hr.
    destruct (while_raised _ (stress_body sleep k) (steady a n)
                (fun s t => stress_body_steady sleep a n k s t) ticks _ x Hs' Hr)
      as (s' & t & (Ha & _ & Hc & _) & _ & Hb).
    pose proof (stress_body_ending sleep k s' t) as (_ & _ & _ & H).
    destruct (H x Hb) as [[-> Hz]|[[-> Hw]|Hsl]].
    + left. split; [rewrite <- Ha; reflexivity|]. rewrite <- Ha. exact Hz.
    + right. left. split; [reflexivity|]. rewrite Hc in Hw.
      destruct (no_csv a); [discriminate Hw | reflexivity].
    + right. right. right. rewrite <- Ha. exact Hsl.
  - rewrite run_cyclic_while. cbn [snd]. intros Hr.
    destruct (while_raised _ (cyclic_body is_alive sleep) (steady_cycle a n)
                (fun s t H => proj1 (cyclic_body_steady is_alive sleep a n s t H))
                ticks _ x
                (steady_cycle_start a n began (r, w) Hs) Hr)
      as (s' & t & Hst & _ & Hb).
    pose proof (cyclic_body_ending is_alive sleep a n s' t Hst) as (_ & _ & H).
    exact (H x Hb).
Qed.

End Raising.

(** X23: what a run can raise.  On a machine of up to 1024 cores, [run]
    raises the exceptions of the battery percentage only on its first
    reading, before any process is started, and only with a cell count for
    which no percentage can be computed, whatever the voltage:
    [OverflowError] when the cell count is beyond the range of floats,
    [ZeroDivisionError] otherwise, and neither with 1 to 6 cells.  Besides,
    it raises nothing but the
    [OSError] of a CSV file that cannot be made or written, so not when
    [--no-csv] is given, and what [time.sleep] raises for the interval it
    is given. *)
Theorem run_raises_only_before_starting_or_for_csv :
  forall (is_alive : handle -> bool) (sleep : float -> option Exn)
         (a : Args) (cores : Z) (w : World)
         (env : Env) (x : Exn),
  0 <= cores <= 1024 ->
  snd (main is_alive sleep a cores w env) = Raise x ->
  (((x = OverflowError /\ Py.converted (cells a) = None)
    \/ (x = ZeroDivisionError /\ Py.converted (cells a) <> None))
   /\ snd (snd (fst (main is_alive sleep a cores w env))) = w
   /\ (forall v, calculate_battery_percent v (cells a) = None)
   /\ ~ 1 <= cells a <= 6)
  \/ (x = OSError /\ no_csv a = false)
  \/ sleep (interval a) = Some x.
Proof.
  intros is_alive sleep a cores w env x Hc.
  destruct (main_cases is_alive sleep a cores w env)
    as [(out & r' & E & _)
       |[(y & r' & E & _ & _ & He)
        |(y & pct & r0 & _ & _ & Ep & _ & Hst & _ & _ & E)]].
  - rewrite E. discriminate.
  - rewrite E. cbn [fst snd]. intros H. injection H as <-.
    destruct He as [[-> Hz]|[-> Hcsv]].
    + left. split; [|split; [reflexivity | split; [exact Hz|]]].
      * destruct (percent_error_cases (cells a)) as [[-> H]|[-> H]];
          [left | right]; split; [reflexivity | exact H | reflexivity | exact H].
      * intros Hcells. pose proof (ina_percent_cells 0 (cells a) Hcells) as H.
        change (Ina219.calculate_battery_percent 0 (cells a))
          with (calculate_battery_percent 0 (cells a)) in H.
        rewrite Hz in H. discriminate H.
    + right. left. split; [reflexivity | exact Hcsv].
  - assert (Hdef : forall v, calculate_battery_percent v (cells a) <> None).
    { intros v Hv. rewrite (percent_defined (cells a) v _ Hv) in Ep. discriminate Ep. }
    rewrite E. clear E.
    pose proof (profile_steady is_alive sleep a cores (cycle_began env) r0 w
                  (ticks env) Hst) as [(Ha & _) _].
    pose proof (profile_raised is_alive sleep a cores (cycle_began env) r0 w
                  (ticks env)) as Hr.
    destruct (match profile a with
              | stress => run_stress is_alive sleep r0 w (ticks env)
              | cyclic => run_cyclic is_alive sleep (cycle_began env) r0 w (ticks env)
              end) as [[out [r w']] e].
    cbn [fst snd] in Ha, Hr.
    assert (Hfin : forall o,
              snd (let '(out', s, res) := finally is_alive r w' (last_answer env) o in
                   (out ++ out', s, res)) = Raise x -> o = Some x).
    { intros o.
      pose proof (finally_result is_alive r w' (last_answer env) o)
        as (_ & _ & _ & H1 & _).
      destruct (finally is_alive r w' (last_answer env) o) as [[out' s] res].
      cbn [snd] in *. intros H. destruct (H1 x H) as [H2|[_ [v Hv]]]; [exact H2|].
      rewrite Ha in Hv. destruct (Hdef v Hv). }
    destruct e as [|z|].
    + intros H. discriminate (Hfin None H).
    + intros H. specialize (Hfin (Some z) H). injection Hfin as ->.
      destruct (Hr x Hst eq_refl) as [[_ [v Hv]]|[H1|[[load [Hl Ht]]|Hsl]]].
      * destruct (Hdef v Hv).
      * right. left. exact H1.
      * rewrite (target_workers_floor cores load Hc Hl) in Ht. discriminate Ht.
      * right. right. exact Hsl.
    + discriminate.
Qed.

(** ** The theorems on a small machine *)

Lemma run_leaves_no_worker_behind_witness :
  snd (main Trial.nobody Trial.sleep (defaults cyclic) 4 Trial.world
         (Trial.env [Trial.tick 1 11.4 500; Trial.tick 61 9.3 500;
                     Trial.tick 62 9.3 500; Trial.tick 122 9.3 500;
                     Trial.signal])) = Returned 0
  /\ all_joined
       (calls (snd (snd (fst (main Trial.nobody Trial.sleep (defaults cyclic) 4 Trial.world
                                (Trial.env [Trial.tick 1 11.4 500;
                                            Trial.tick 61 9.3 500;
                                            Trial.tick 62 9.3 500;
                                            Trial.tick 122 9.3 500;
                                            Trial.signal])))))) = true.
Proof.
  split; [vm_compute; reflexivity|].
  exact (proj2 (proj2 (proj1 (run_leaves_no_worker_behind Trial.nobody Trial.sleep
                                (defaults cyclic) 4 Trial.world
                                (Trial.env [Trial.tick 1 11.4 500;
                                            Trial.tick 61 9.3 500;
                                            Trial.tick 62 9.3 500;
                                            Trial.tick 122 9.3 500;
                                            Trial.signal])
                                eq_refl)
                         ltac:(vm_compute; discriminate)))).
Defined.

Lemma charging_never_ends_the_run_witness :
  existsb is_threshold_reached
    (fst (fst (main Trial.nobody Trial.sleep (defaults stress) 2 Trial.world
                 (Trial.env [Trial.tick 1 11.4 500; Trial.tick 2 9.3 500]))))
  = false
  /\ snd (main Trial.nobody Trial.sleep (defaults stress) 2 Trial.world
            (Trial.env [Trial.tick 1 11.4 500; Trial.tick 2 9.3 500])) = Running.
Proof.
  split; [|vm_compute; reflexivity].
  apply (charging_never_ends_the_run Trial.nobody Trial.sleep (defaults stress) 2 Trial.world
           (Trial.env [Trial.tick 1 11.4 500; Trial.tick 2 9.3 500])).
  intros t x [<-|[<-|[]]] E; injection E as <-; reflexivity.
Defined.

Lemma threshold_ends_the_run_witness :
  main Trial.nobody Trial.sleep (defaults stress) 2 Trial.world
    (Trial.env [Trial.tick 1 11.4 (-500); Trial.tick 2 9.3 (-500);
                Trial.tick 3 11 (-500)])
  = main Trial.nobody Trial.sleep (defaults stress) 2 Trial.world
      (Trial.env [Trial.tick 1 11.4 (-500); Trial.tick 2 9.3 (-500)])
  /\ snd (main Trial.nobody Trial.sleep (defaults stress) 2 Trial.world
            (Trial.env [Trial.tick 1 11.4 (-500); Trial.tick 2 9.3 (-500);
                        Trial.tick 3 11 (-500)])) <> Running.
Proof.
  exact (threshold_ends_the_run Trial.nobody Trial.sleep (defaults stress) 2 Trial.world
           (Trial.env [Trial.tick 1 11.4 (-500); Trial.tick 2 9.3 (-500);
                       Trial.tick 3 11 (-500)])
           [Trial.tick 1 11.4 (-500)] [Trial.tick 3 11 (-500)]
           (Trial.tick 2 9.3 (-500)) (Trial.reading 9.3 (-500))
           8.3333333333333499%float
           eq_refl eq_refl eq_refl eq_refl eq_refl).
Defined.

Lemma run_raises_only_before_starting_or_for_csv_witness :
  snd (main Trial.nobody Trial.sleep (Trial.with_cells 0) 2 Trial.world
         (Trial.env [])) = Raise ZeroDivisionError
  /\ snd (main Trial.nobody Trial.sleep (Trial.with_cells (10 ^ 400)) 2
            Trial.world (Trial.env [])) = Raise OverflowError
  /\ ((((OverflowError = OverflowError
         /\ Py.converted (cells (Trial.with_cells (10 ^ 400))) = None)
        \/ (OverflowError = ZeroDivisionError
            /\ Py.converted (cells (Trial.with_cells (10 ^ 400))) <> None))
       /\ snd (snd (fst (main Trial.nobody Trial.sleep
                           (Trial.with_cells (10 ^ 400)) 2 Trial.world
                           (Trial.env [])))) = Trial.world
       /\ (forall v,
           calculate_battery_percent v (cells (Trial.with_cells (10 ^ 400)))
           = None)
       /\ ~ 1 <= cells (Trial.with_cells (10 ^ 400)) <= 6)
      \/ (OverflowError = OSError
          /\ no_csv (Trial.with_cells (10 ^ 400)) = false)
      \/ Trial.sleep (interval (Trial.with_cells (10 ^ 400)))
         = Some OverflowError).
Proof.
  split; [vm_compute; reflexivity|]. split; [vm_compute; reflexivity|].
  apply (run_raises_only_before_starting_or_for_csv Trial.nobody Trial.sleep
           (Trial.with_cells (10 ^ 400)) 2 Trial.world (Trial.env [])
           OverflowError ltac:(lia)).
  vm_compute. reflexivity.
Defined.

(** ** How a run comes to return 0 *)

Section Ended.

Variable is_alive : handle -> bool.
Variable sleep : float -> option Exn.

Lemma reading_at_threshold (a : Args) (s : SensorReader.t) (t : Tick)
  (rd : Reading) :
  snd (fst (SensorReader.read s (answer t))) = Some rd ->
  negb (charging rd)
  && match calculate_battery_percent (voltage rd) (cells a) with
     | Some pct => Py.le pct (threshold a)
     | None => false
     end = true ->
  at_threshold a t = true.
Proof.
  intros Hr H. destruct (read_charging s (answer t) rd Hr) as (x & Ex & Hv & Hc).
  unfold at_threshold. rewrite Ex, <- Hv, <- Hc. exact H.
Qed.

Lemma stress_body_ended (a : Args) (n k : Z) (s : BenchmarkRunner * World)
  (t : Tick) :
  steady a n s ->
  snd (stress_body sleep k s t) = Some Ended -> at_threshold a t = true.
Proof.
  destruct s as [r w]. intros (Ha & _). cbn [fst] in Ha. unfold stress_body.
  pose proof (reading_at_threshold a (sensor r) t) as Hr.
  destruct (SensorReader.read (sensor r) (answer t)) as [[logs [rd|]] sr];
    cbn [fst snd] in *;
    [|intros E; discriminate (pause_ended sleep _ _ E)].
  match goal with
  | |- context [sampled ?f ?r1 ?t ?rd ?l ?wk] =>
      pose proof (sampled_ended f r1 t rd l wk) as H;
      destruct (sampled f r1 t rd l wk) as [[out r2] e]
  end.
  cbn [fst snd args with_sensor] in *. rewrite Ha in H.
  intros E. exact (Hr rd eq_refl (H (pause_ended sleep _ _ E))).
Qed.

Lemma cyclic_body_ended (a : Args) (n : Z)
  (s : Cycle * (BenchmarkRunner * World)) (t : Tick) :
  steady_cycle a n s ->
  snd (cyclic_body is_alive sleep s t) = Some Ended -> at_threshold a t = true.
Proof.
  destruct s as [c [r w]]. intros Hst.
  destruct (cyclic_body_turn is_alive sleep a n c r w t Hst)
    as (_ & _ & [(e & _ & ->)|(k & workers & p & w' & _ & _ & _ & _ & ->)]);
    [discriminate|].
  destruct Hst as [_ (Ha & _)]. cbn [fst snd] in Ha.
  pose proof (reading_at_threshold a (sensor r) t) as Hr.
  destruct (SensorReader.read (sensor r) (answer t)) as [[logs [rd|]] sr];
    cbn [fst snd] in *;
    [|intros E; discriminate (pause_ended sleep _ _ E)].
  match goal with
  | |- context [sampled ?f ?r1 ?t ?rd ?l ?wk] =>
      pose proof (sampled_ended f r1 t rd l wk) as H;
      destruct (sampled f r1 t rd l wk) as [[out r2] e]
  end.
  cbn [fst snd args with_sensor with_pool] in *. rewrite Ha in H.
  intros E. exact (Hr rd eq_refl (H (pause_ended sleep _ _ E))).
Qed.

Lemma profile_ended (a : Args) (n : Z) (began : float) (r : BenchmarkRunner)
  (w : World) (ticks : list Tick) :
  steady a n (r, w) ->
  snd (match profile a with
       | stress => run_stress is_alive sleep r w ticks
       | cyclic => run_cyclic is_alive sleep began r w ticks
       end) = Ended ->
  exists t, In t ticks /\ (running t = false \/ at_threshold a t = true).
Proof.
  intros Hs. destruct (profile a).
  - destruct (run_stress_while is_alive sleep a n r w Hs) as (k & p & w' & Hs' & _ & E).
    rewrite E.
    apply (while_ended_by _ (stress_body sleep k) (steady a n)
             (fun t => at_threshold a t = true)); [| |exact Hs'].
    + intros s t. apply stress_body_steady.
    + intros s t. apply stress_body_ended.
  - rewrite run_cyclic_while. cbn [snd].
    apply (while_ended_by _ (cyclic_body is_alive sleep) (steady_cycle a n)
             (fun t => at_threshold a t = true)).
    + intros s t H. apply (cyclic_body_steady is_alive sleep a n s t H).
    + intros s t. apply cyclic_body_ended.
    + apply steady_cycle_start. exact Hs.
Qed.

End Ended.

(** X24: a run returns 0 only by a signal or by the threshold: among its
    ticks one found [running] false, or one had a reading taken while
    discharging with a percentage at or below the threshold.  A sensor that
    stops answering, or a battery on charge, never ends a run. *)
Theorem run_returns_zero_only_by_signal_or_threshold :
  forall (is_alive : handle -> bool) (sleep : float -> option Exn)
         (a : Args) (cores : Z) (w : World)
         (env : Env),
  snd (main is_alive sleep a cores w env) = Returned 0 ->
  exists t, In t (ticks env)
            /\ (running t = false \/ at_threshold a t = true).
Proof.
  intros is_alive sleep a cores w env.
  destruct (main_cases is_alive sleep a cores w env)
    as [(out & r' & E & _)
       |[(x & r' & E & _)
        |(x & pct & r0 & _ & _ & _ & _ & Hst & _ & _ & E)]].
  - rewrite E. discriminate.
  - rewrite E. discriminate.
  - rewrite E. clear E.
    pose proof (profile_ended is_alive sleep a cores (cycle_began env) r0 w (ticks env) Hst)
      as H.
    destruct (match profile a with
              | stress => run_stress is_alive sleep r0 w (ticks env)
              | cyclic => run_cyclic is_alive sleep (cycle_began env) r0 w (ticks env)
              end) as [[out [r w']] e].
    cbn [snd] in H.
    destruct e as [|y|].
    + intros _. apply H. reflexivity.
    + pose proof (finally_result is_alive r w' (last_answer env) (Some y))
        as (_ & _ & H0 & _).
      destruct (finally is_alive r w' (last_answer env) (Some y)) as [[out' s] res].
      cbn [snd] in *. intros E. discriminate (H0 E).
    + discriminate.
Qed.

Lemma run_returns_zero_only_by_signal_or_threshold_witness :
  exists t,
    In t [Trial.tick 1 11.4 (-500); Trial.tick 2 9.3 (-500); Trial.tick 3 11 (-500)]
    /\ (running t = false \/ at_threshold (defaults stress) t = true).
Proof.
  apply (run_returns_zero_only_by_signal_or_threshold Trial.nobody Trial.sleep
           (defaults stress) 2 Trial.world
           (Trial.env [Trial.tick 1 11.4 (-500); Trial.tick 2 9.3 (-500);
                       Trial.tick 3 11 (-500)])).
  vm_compute. reflexivity.
Defined.

(** ** What the samples report *)

Lemma forallb_weaken {A : Type} (f g : A -> bool) (l : list A) :
  (forall x, f x = true -> g x = true) ->
  forallb f l = true -> forallb g l = true.
Proof.
  intros H. induction l as [|x l IH]; [reflexivity|].
  cbn [forallb]. intros E. apply andb_true_iff in E. destruct E as [E1 E2].
  rewrite (H x E1), (IH E2). reflexivity.
Qed.

Lemma no_notes_reports (cores : Z) (p : Profile) (out : list Output) :
  notes_of out = [] -> forallb (reports cores p) out = true.
Proof.
  induction out as [|o out IH]; [reflexivity|].
  destruct o; cbn [notes_of forallb reports]; try exact IH. discriminate.
Qed.

Lemma share_bounds (cores load : Z) :
  0 <= cores -> In load load_levels -> 0 <= cores * load / 100 <= cores.
Proof.
  intros Hc Hl. assert (0 <= load <= 100) by (cbn in Hl; lia).
  split; [apply Z.div_pos; nia | apply Z.div_le_upper_bound; nia].
Qed.

Lemma carries_reports (cores load workers : Z) (p : Profile) (o : Output) :
  match p with stress => load = 100 | cyclic => In load load_levels end ->
  workers = cores * load / 100 ->
  carries load workers o = true -> reports cores p o = true.
Proof.
  intros Hl Hw. destruct o; try reflexivity. cbn [carries reports].
  intros E. apply andb_true_iff in E. destruct E as [E1 E2].
  apply Z.eqb_eq in E1, E2. subst target_load workers0.
  apply andb_true_iff. split; [|apply Z.eqb_eq; exact Hw].
  destruct p.
  - apply Z.eqb_eq. exact Hl.
  - apply existsb_exists. exists load. split; [exact Hl | apply Z.eqb_refl].
Qed.

Section Reports.

Variable is_alive : handle -> bool.
Variable sleep : float -> option Exn.

Lemma stress_body_carries (k : Z) (s : BenchmarkRunner * World) (t : Tick) :
  forallb (carries 100 k) (fst (fst (stress_body sleep k s t))) = true.
Proof.
  destruct s as [r w]. unfold stress_body.
  pose proof (read_carries (sensor r) (answer t) (carries 100 k)
                (fun _ => eq_refl) eq_refl) as Hl.
  destruct (SensorReader.read (sensor r) (answer t)) as [[logs [rd|]] sr];
    cbn [fst snd] in *; [|exact Hl].
  match goal with
  | |- context [sampled ?f ?r1 ?t ?rd ?l ?wk] =>
      pose proof (sampled_carries f r1 t rd l wk) as H;
      destruct (sampled f r1 t rd l wk) as [[out r2] e]
  end.
  cbn [fst snd] in *. rewrite forallb_app, Hl, H. reflexivity.
Qed.

Lemma run_stress_reports (a : Args) (n : Z) (r : BenchmarkRunner) (w : World)
  (ticks : list Tick) :
  steady a n (r, w) ->
  0 <= n ->
  max_workers (worker_pool r) = n ->
  forallb (reports n stress) (fst (fst (run_stress is_alive sleep r w ticks))) = true.
Proof.
  intros (_ & Hn & _ & _ & Hp) H0 Hmax. cbn [fst snd] in *.
  destruct (set_worker_count_sized is_alive (worker_pool r) w (cpu_count r)
              ltac:(lia) Hp) as (p & w' & E & _).
  unfold run_stress. rewrite E, Hn, Hmax.
  replace (Z.min (Z.max 0 n) n) with n by lia.
  apply (while_outputs _ (stress_body sleep n) (fun _ => True) (fun _ => True)
           (fun _ o _ => forallb (reports n stress) o = true)
           (fun _ o => forallb (reports n stress) o = true)).
  - reflexivity.
  - intros s1 o1 s2 o2 H1 H2. rewrite forallb_app, H1, H2. reflexivity.
  - intros s t _. exact I.
  - intros s t o s' _ _ Eb. pose proof (stress_body_carries n s t) as H.
    rewrite Eb in H. revert H. apply forallb_weaken. intros o'.
    apply carries_reports; [reflexivity | rewrite Z.div_mul by lia; reflexivity].
  - intros s t o s' e _ _ Eb. pose proof (stress_body_carries n s t) as H.
    rewrite Eb in H. revert H. apply forallb_weaken. intros o'.
    apply carries_reports; [reflexivity | rewrite Z.div_mul by lia; reflexivity].
  - exact I.
  - apply Forall_forall. intros t _. exact I.
Qed.

Lemma cyclic_body_reports (a : Args) (n : Z)
  (s : Cycle * (BenchmarkRunner * World)) (t : Tick) :
  steady_cycle a n s ->
  0 <= n <= 1024 ->
  max_workers (worker_pool (fst (snd s))) = n ->
  forallb (reports n cyclic) (fst (fst (cyclic_body is_alive sleep s t))) = true
  /\ max_workers (worker_pool (fst (snd (snd (fst (cyclic_body is_alive sleep s t)))))) = n.
Proof.
  destruct s as [c [r w]]. intros Hst Hn Hmax. cbn [fst snd] in Hmax.
  assert (Hlogs : forall load,
            forallb (reports n cyclic)
              (if Py.ge (monotonic t - cycle_start c) (cycle_duration a)
               then [Switching load] else []) = true)
    by (intros load; destruct (Py.ge _ _); reflexivity).
  destruct (cyclic_body_turn is_alive sleep a n c r w t Hst)
    as (_ & Hin & [(e & _ & ->)|(k & workers & p & w' & Et & [Es Hm] & _ & _ & ->)]);
    cbn [fst snd].
  - split; [apply Hlogs | exact Hmax].
  - destruct Hst as [_ (_ & _ & _ & _ & Hp)]. cbn [fst snd] in Hp.
    destruct (set_worker_count_sized is_alive (worker_pool r) w k
                ltac:(lia) Hp) as (p2 & w2 & E2 & _).
    rewrite E2 in Es. injection Es as Hw <- <-.
    set (load := nth (Z.to_nat _) load_levels 0) in *.
    rewrite (target_workers_floor n load Hn Hin) in Et.
    assert (Ek : k = n * load / 100) by congruence.
    pose proof (share_bounds n load ltac:(lia) Hin) as Hb.
    assert (Hworkers : workers = n * load / 100) by lia.
    pose proof (read_carries (sensor r) (answer t) (reports n cyclic)
                  (fun _ => eq_refl) eq_refl) as Hl.
    destruct (SensorReader.read (sensor r) (answer t)) as [[logs [rd|]] sr];
      cbn [fst snd] in *.
    + match goal with
      | |- context [sampled ?f ?r1 ?t ?rd ?l ?wk] =>
          pose proof (sampled_carries f r1 t rd l wk) as H;
          pose proof (sampled_keeps f r1 t rd l wk) as (_ & _ & Kp & _);
          destruct (sampled f r1 t rd l wk) as [[out r2] e]
      end.
      cbn [fst snd] in *. rewrite !forallb_app, Hlogs, Hl, Kp.
      cbn [andb worker_pool with_sensor with_pool].
      split; [|lia]. revert H. apply forallb_weaken. intros o'.
      apply carries_reports; [exact Hin | exact Hworkers].
    + rewrite forallb_app, Hlogs, Hl. cbn [worker_pool with_sensor with_pool].
      split; [reflexivity | lia].
Qed.

Lemma profile_reports (a : Args) (n : Z) (began : float) (r : BenchmarkRunner)
  (w : World) (ticks : list Tick) :
  steady a n (r, w) ->
  0 <= n <= 1024 ->
  max_workers (worker_pool r) = n ->
  forallb (reports n (profile a))
    (fst (fst (match profile a with
               | stress => run_stress is_alive sleep r w ticks
               | cyclic => run_cyclic is_alive sleep began r w ticks
               end))) = true.
Proof.
  intros Hs Hn Hmax. destruct (profile a).
  - apply (run_stress_reports a); [exact Hs | lia | exact Hmax].
  - rewrite run_cyclic_while. cbn [fst snd].
    apply (while_outputs _ (cyclic_body is_alive sleep)
             (fun s => steady_cycle a n s
                       /\ max_workers (worker_pool (fst (snd s))) = n)
             (fun _ => True)
             (fun _ o _ => forallb (reports n cyclic) o = true)
             (fun _ o => forallb (reports n cyclic) o = true)).
    + reflexivity.
    + intros s1 o1 s2 o2 H1 H2. rewrite forallb_app, H1, H2. reflexivity.
    + intros s t [H1 H2]. split.
      * apply (cyclic_body_steady is_alive sleep a n s t H1).
      * apply (cyclic_body_reports a n s t H1 Hn H2).
    + intros s t o s' [H1 H2] _ Eb.
      pose proof (cyclic_body_reports a n s t H1 Hn H2) as [H _].
      rewrite Eb in H. exact H.
    + intros s t o s' e [H1 H2] _ Eb.
      pose proof (cyclic_body_reports a n s t H1 Hn H2) as [H _].
      rewrite Eb in H. exact H.
    + split; [apply steady_cycle_start; exact Hs | exact Hmax].
    + apply Forall_forall. intros t _. exact I.
Qed.

End Reports.

(** X25: the samples report what ran.  On a machine of up to 1024 cores,
    every sample of a stress run reports a load of 100 and as many
    workers as there are cores; every sample of a cyclic run reports one of
    the five load levels and, as its workers, the whole part of that
    percentage of the cores: the pool always reaches the target. *)
Theorem samples_report_the_load_and_its_workers :
  forall (is_alive : handle -> bool) (sleep : float -> option Exn)
         (a : Args) (cores : Z) (w : World)
         (env : Env),
  0 <= cores <= 1024 ->
  forallb (reports cores (profile a)) (fst (fst (main is_alive sleep a cores w env)))
  = true.
Proof.
  intros is_alive sleep a cores w env Hc.
  destruct (main_cases is_alive sleep a cores w env)
    as [(out & r' & E & _ & Hn & _)
       |[(x & r' & E & _)
        |(x & pct & r0 & _ & _ & _ & _ & Hst & _ & Hp0 & E)]].
  - rewrite E. cbn [fst]. apply no_notes_reports. exact Hn.
  - rewrite E. reflexivity.
  - rewrite E. clear E.
    assert (Hmax : max_workers (worker_pool r0) = cores) by (rewrite Hp0; reflexivity).
    pose proof (profile_reports is_alive sleep a cores (cycle_began env) r0 w (ticks env)
                  Hst Hc Hmax) as H.
    destruct (match profile a with
              | stress => run_stress is_alive sleep r0 w (ticks env)
              | cyclic => run_cyclic is_alive sleep (cycle_began env) r0 w (ticks env)
              end) as [[out [r w']] e].
    cbn [fst snd] in H.
    assert (Hfin : forall o,
              forallb (reports cores (profile a))
                (fst (fst (let '(out', s, res) :=
                             finally is_alive r w' (last_answer env) o in
                           (out ++ out', s, res)))) = true).
    { intros o.
      pose proof (finally_result is_alive r w' (last_answer env) o)
        as (_ & _ & _ & _ & H1 & _).
      destruct (finally is_alive r w' (last_answer env) o) as [[out' s] res].
      cbn [fst snd] in *.
      rewrite forallb_app, H, (no_notes_reports cores (profile a) out' H1).
      reflexivity. }
    destruct e as [|y|]; [apply Hfin | apply Hfin | exact H].
Qed.

Lemma samples_report_the_load_and_its_workers_witness :
  fst (fst (main Trial.nobody Trial.sleep (defaults cyclic) 4 Trial.world
              (Trial.env [Trial.tick 1 11.4 500; Trial.tick 61 9.3 500;
                          Trial.tick 62 9.3 500; Trial.tick 122 9.3 500;
                          Trial.signal])))
  = [Sample 66.666666666666657 100 4 true "test_start"; Switching 75;
     Sample 8.3333333333333499 75 3 true ""; Sample 8.3333333333333499 75 3 true "";
     Switching 50; Sample 8.3333333333333499 50 2 true "";
     Summary 66.666666666666657 66.666666666666657]
  /\ forallb (reports 4 cyclic)
       (fst (fst (main Trial.nobody Trial.sleep (defaults cyclic) 4 Trial.world
                    (Trial.env [Trial.tick 1 11.4 500; Trial.tick 61 9.3 500;
                                Trial.tick 62 9.3 500; Trial.tick 122 9.3 500;
                                Trial.signal])))) = true.
Proof.
  split; [vm_compute; reflexivity|].
  apply (samples_report_the_load_and_its_workers Trial.nobody Trial.sleep (defaults cyclic) 4
           Trial.world
           (Trial.env [Trial.tick 1 11.4 500; Trial.tick 61 9.3 500;
                       Trial.tick 62 9.3 500; Trial.tick 122 9.3 500;
                       Trial.signal])).
  lia.
Defined.
